(** * Timeline tools of the sandbox: a shallow embedding

    The two scripts under [tools/] turn the per-tick CSV of the sandbox
    simulator into Mermaid [xychart-beta] blocks ([mermaid_timeline.py]) and
    into a six-panel figure ([plot_timeline.py]).  This file embeds their
    data-reduction code and states its properties.

    - Python integers are [Z]; lists are [list]; [dict]s are association
      lists in insertion order.
    - A Python exception is a constructor of [exn]; code that may raise
      returns a [result].
    - Python floats are IEEE 754 binary64 numbers, modelled by the
      Standard Library's [spec_float] with its round-to-nearest-even
      operations ([prec = 53], [emax = 1024]).
    - Output written with [print(..., file=out)] is a list of strings, one
      per call, threaded through the [io] monad.
    - A [str] that the code only compares, joins and prints (titles, field
      names, cells) is a [string]; the argument of [-m], which is split
      and stripped, is the list of its Unicode code points ([text]). *)

From Stdlib Require Import ZArith List String Ascii Bool Lia.
From Stdlib Require Import DecimalString DecimalZ SpecFloat.
Import ListNotations.
Local Open Scope Z_scope.

(** ** Exceptions and fallible computations *)

Inductive exn : Type :=
| IndexError
| KeyError (key : option string)
| ValueError
| TypeError
| ZeroDivisionError
| OverflowError.

(** The name of the exception's class, as Python reports it. *)
Definition exn_name (e : exn) : string :=
  match e with
  | IndexError => "IndexError"
  | KeyError _ => "KeyError"
  | ValueError => "ValueError"
  | TypeError => "TypeError"
  | ZeroDivisionError => "ZeroDivisionError"
  | OverflowError => "OverflowError"
  end.

Inductive result (A : Type) : Type :=
| Ok (a : A)
| Raise (e : exn).
Arguments Ok {A} a.
Arguments Raise {A} e.

Definition bind {A B : Type} (c : result A) (k : A -> result B) : result B :=
  match c with
  | Ok a => k a
  | Raise e => Raise e
  end.

Declare Scope result_scope.
Delimit Scope result_scope with result.
Notation "x <- c ;; k" := (bind c (fun x => k))
  (at level 61, c at next level, right associativity) : result_scope.
Notation "' p <- c ;; k" := (bind c (fun x => match x with p => k end))
  (at level 61, p pattern, c at next level, right associativity) : result_scope.
Local Open Scope result_scope.

(** [r] is an exception of class [name]. *)
Definition fails_with {A : Type} (name : string) (r : result A) : Prop :=
  exists e, r = Raise e /\ exn_name e = name.

(** A loop that appends one computed element per item and stops at the
    first exception. *)
Fixpoint mapM {A B : Type} (f : A -> result B) (l : list A) : result (list B) :=
  match l with
  | [] => Ok []
  | a :: l' => b <- f a ;; bs <- mapM f l' ;; Ok (b :: bs)
  end.

(** ** Python built-ins on integers and lists *)

Fixpoint range_from (start : Z) (len : nat) : list Z :=
  match len with
  | O => []
  | S k => start :: range_from (start + 1) k
  end.

(** [range(start, stop)]; empty when [stop <= start]. *)
Definition py_range2 (start stop : Z) : list Z :=
  range_from start (Z.to_nat (stop - start)).

(** [range(stop)]. *)
Definition py_range (stop : Z) : list Z := py_range2 0 stop.

Definition py_len {A : Type} (l : list A) : Z := Z.of_nat (List.length l).

(** A slice bound, brought into [0..len] the way [l[a:b]] does. *)
Definition clamp_index (len k : Z) : Z :=
  if k <? 0 then Z.max (k + len) 0 else Z.min k len.

(** [l[start:stop]]. *)
Definition py_slice {A : Type} (l : list A) (start stop : Z) : list A :=
  let lo := clamp_index (py_len l) start in
  let hi := clamp_index (py_len l) stop in
  firstn (Z.to_nat (hi - lo)) (skipn (Z.to_nat lo) l).

(** [l[i]], with negative indices counted from the end. *)
Definition py_getitem {A : Type} (l : list A) (i : Z) : result A :=
  let j := if i <? 0 then i + py_len l else i in
  if j <? 0 then Raise IndexError
  else match nth_error l (Z.to_nat j) with
       | Some a => Ok a
       | None => Raise IndexError
       end.

(** [sum(l)]. *)
Definition py_sum (l : list Z) : Z := fold_left Z.add l 0.

(** [a // b] on integers: floor division. *)
Definition py_floordiv (a b : Z) : result Z :=
  if b =? 0 then Raise ZeroDivisionError else Ok (a / b).

(** The number of digits up to which [str] converts an integer, and
    [int] a string ([sys.get_int_max_str_digits()], 4300 unless set
    otherwise); beyond it both raise [ValueError]. *)
Definition max_str_digits : Z := 4300.

(** An integer that [str] converts: one of at most [max_str_digits]
    digits. *)
Definition printable (v : Z) : bool := Z.abs v <? 10 ^ max_str_digits.

(** [str(v)] for a [printable] integer: its decimal digits. *)
Definition py_str (v : Z) : string := NilZero.string_of_int (Z.to_int v).

(** ** Python floats: IEEE 754 binary64 *)

Module F64.

Definition prec : Z := 53.
Definition emax : Z := 1024.

Definition float : Type := spec_float.

(** No Python operation here returns an infinity from integers: the
    conversion and the true division raise instead. *)
Definition finite_or_overflow (f : float) : result float :=
  match f with
  | S754_infinity _ => Raise OverflowError
  | _ => Ok f
  end.

(** [float(i)] for an integer [i], rounded to nearest even. *)
Definition of_int (i : Z) : result float :=
  finite_or_overflow (binary_normalize prec emax i 0 false).

(** [a / b] on two integers: the correctly rounded quotient. *)
Definition int_truediv (a b : Z) : result float :=
  match b with
  | Z0 => Raise ZeroDivisionError
  | _ =>
      let neg := xorb (a <? 0) (b <? 0) in
      match a with
      | Z0 => Ok (S754_zero neg)
      | _ =>
          let '(q, e, l) :=
            SFdiv_core_binary prec emax (Z.abs a) 0 (Z.abs b) 0 in
          finite_or_overflow (binary_round_aux prec emax neg q e l)
      end
  end.

Definition mul (x y : float) : float := SFmul prec emax x y.

(** [i * x] for an integer [i] and a float [x]. *)
Definition int_mul (i : Z) (x : float) : result float :=
  fi <- of_int i ;; Ok (mul fi x).

(** [int(x)]: truncation towards zero. *)
Definition to_int (x : float) : result Z :=
  match x with
  | S754_nan => Raise ValueError
  | S754_infinity _ => Raise OverflowError
  | S754_zero _ => Ok 0
  | S754_finite s m e =>
      Ok (cond_Zopp s
            match e with
            | Zneg p => Zpos m / 2 ^ Zpos p
            | _ => Zpos m * 2 ^ e
            end)
  end.

End F64.

(** ** [mermaid_timeline.py]: the downsampler *)

(** [int(i * step)], the index where bucket [i] starts and bucket [i - 1]
    ends. *)
Definition boundary (step : F64.float) (i : Z) : result Z :=
  x <- F64.int_mul i step ;; F64.to_int x.

(** The bounds [(start, end)] computed for bucket [i] of [n] values cut
    into [max_points] buckets. *)
Definition bucket (n max_points i : Z) : result (Z * Z) :=
  step <- F64.int_truediv n max_points ;;
  start <- boundary step i ;;
  end_ <- boundary step (i + 1) ;;
  Ok (start, end_).

(** One iteration of the loop of [downsample]: the point of bucket [i]. *)
Definition bucket_point (values : list Z) (step : F64.float) (i : Z) : result Z :=
  start <- boundary step i ;;
  end_ <- boundary step (i + 1) ;;
  py_floordiv (py_sum (py_slice values start end_)) (end_ - start).

Definition downsample (values : list Z) (max_points : Z) : result (list Z) :=
  if py_len values <=? max_points then Ok values
  else
    step <- F64.int_truediv (py_len values) max_points ;;
    mapM (bucket_point values step) (py_range max_points).

(** The default [max_points=30]. *)
Definition default_max_points : Z := 30.

(** ** [mermaid_timeline.py]: the text renderer *)

Local Open Scope string_scope.

Definition newline : string := String "010"%char EmptyString.
Definition dquote : string := String "034"%char EmptyString.

(** [", ".join(str(v) for v in vs)]. *)
Definition join_values (vs : list Z) : string :=
  String.concat ", " (map py_str vs).

(** The [line [...]] directive of one downsampled series. *)
Definition line_directive (y_down : list Z) : string :=
  "    line [" ++ join_values y_down ++ "]".

(** The four lines that open a block. *)
Definition chart_header (title x_label : string) (x_down : list Z) : list string :=
  [ "```mermaid";
    "xychart-beta";
    "    title " ++ dquote ++ title ++ dquote;
    "    x-axis " ++ dquote ++ x_label ++ dquote ++ " [" ++ join_values x_down ++ "]" ].

(** [xychart(title, x_values, series, x_label, y_label)]; [y_label] is
    accepted and not used, as in the source. *)
Definition xychart (title : string) (x_values : list Z)
    (series : list (string * list Z)) (x_label y_label : string) : result string :=
  x_down <- downsample x_values default_max_points ;;
  series_lines <-
    mapM (fun s : string * list Z =>
            y_down <- downsample (snd s) default_max_points ;;
            Ok (line_directive y_down)) series ;;
  Ok (String.concat newline
        (chart_header title x_label x_down ++ series_lines ++ ["```"])%list).

Definition flowchart : string :=
"```mermaid
flowchart TD
    subgraph Simulation
        W[World NxN Grid] --> S[Scheduler]
        S --> |tick| VM[micro-PSIL VM]
        VM --> |actions| W
    end

    subgraph NPC Lifecycle
        Spawn[Spawn] --> Live[Live & Act]
        Live --> |eat/trade/craft/teach| Live
        Live --> |age/starve/poison| Die[Die]
        Die --> |evolve| Spawn
    end

    subgraph Economy
        Food[Food Tiles] --> |eat| Energy[NPC Energy]
        Items[Item Tiles] --> |pickup| Trade[Trade]
        Trade --> |bilateral| Gold[Gold]
        Trade --> Craft[Craft]
        Craft --> |forge| Shield[Shield/Compass]
    end

    subgraph Knowledge
        Genome[NPC Genome] --> |teach| Student[Student Genome]
        Student --> |mutate| Evolved[Evolved Genome]
        Evolved --> |GA| Genome
    end

    S --> |sample| TL[Timeline CSV]
    TL --> |pyplot| Plot[PNG Charts]
    TL --> |mermaid| MD[Markdown Diagrams]
```".

(** ** The catalogs *)

(** [(title, column, unit label)]. *)
Definition metric : Type := string * string * string.

Definition METRIC_GROUPS : list (string * metric) :=
  [ ("alive", ("Population", "alive", "count"));
    ("trades", ("Cumulative Trades", "trades", "count"));
    ("teaches", ("Cumulative Teaches", "teaches", "count"));
    ("gold", ("Total Gold", "gold", "gold"));
    ("avg_stress", ("Average Stress", "avg_stress", "stress (0-100)"));
    ("food", ("Food on Map", "food", "tiles"));
    ("items", ("Items on Map", "items", "tiles"));
    ("avg_fit", ("Average Fitness", "avg_fit", "fitness"));
    ("best_fit", ("Best Fitness", "best_fit", "fitness"));
    ("holders", ("Item Holders", "holders", "count"));
    ("crafted", ("Crafted Items (shield+compass)", "crafted", "count"));
    ("crystal_npcs", ("Crystal NPCs", "crystal_npcs", "count")) ].

(** [(title, [(series label, column)])]. *)
Definition composite : Type := string * list (string * string).

Definition COMPOSITES : list (string * composite) :=
  [ ("population", ("Population & Stress", [("alive", "alive"); ("avg_stress", "avg_stress")]));
    ("economy", ("Economy", [("trades", "trades"); ("teaches", "teaches")]));
    ("fitness", ("Fitness", [("best_fit", "best_fit"); ("avg_fit", "avg_fit")]));
    ("resources", ("Resources", [("food", "food"); ("items", "items")])) ].

(** [k in d] and [d[k]] in one lookup, for a literal key. *)
Fixpoint catalog_find {V : Type} (d : list (string * V)) (k : string) : option V :=
  match d with
  | [] => None
  | (k', v) :: d' => if String.eqb k k' then Some v else catalog_find d' k
  end.

(** ** Dictionaries read from the CSV *)

(** A key of a row of [csv.DictReader]: a field name, or [None] for the
    cells beyond the header. *)
Definition key : Type := option string.

Definition key_eqb (a b : key) : bool :=
  match a, b with
  | Some x, Some y => String.eqb x y
  | None, None => true
  | _, _ => false
  end.

(** A value of a row: a cell, [None] for a missing cell, or the list of
    the cells beyond the header. *)
Inductive cell : Type :=
| CellStr (s : string)
| CellNone
| CellList (l : list string).

Definition dict (V : Type) : Type := list (key * V).

(** [d[k]]. *)
Fixpoint dict_get {V : Type} (d : dict V) (k : key) : result V :=
  match d with
  | [] => Raise (KeyError k)
  | (k', v) :: d' => if key_eqb k k' then Ok v else dict_get d' k
  end.

(** [d[k] = v]. *)
Fixpoint dict_set {V : Type} (d : dict V) (k : key) (v : V) : dict V :=
  match d with
  | [] => [(k, v)]
  | (k', v') :: d' =>
      if key_eqb k k' then (k', v) :: d' else (k', v') :: dict_set d' k v
  end.

Definition row : Type := dict cell.

Section LoadCsv.

(** [int(s)] on a string: [None] where Python raises [ValueError]. *)
Variable parse_int : string -> option Z.

(** [int(c)] on a value of a row. *)
Definition int_of_cell (c : cell) : result Z :=
  match c with
  | CellStr s =>
      match parse_int s with
      | Some z => Ok z
      | None => Raise ValueError
      end
  | CellNone | CellList _ => Raise TypeError
  end.

(** [[int(r[key]) for r in rows]]. *)
Definition column (rows : list row) (k : key) : result (list Z) :=
  mapM (fun r => c <- dict_get r k ;; int_of_cell c) rows.

(** The loop [for key in rows[0]: cols[key] = ...]. *)
Fixpoint load_columns (rows : list row) (keys : list key) (cols : dict (list Z))
  : result (dict (list Z)) :=
  match keys with
  | [] => Ok cols
  | k :: keys' =>
      col <- column rows k ;;
      load_columns rows keys' (dict_set cols k col)
  end.

(** [load_csv], from the rows that [csv.DictReader] yields. *)
Definition load_csv (rows : list row) : result (dict (list Z)) :=
  row0 <- py_getitem rows 0 ;;
  load_columns rows (map fst row0) [].

End LoadCsv.

(** ** [mermaid_timeline.py]: [main] *)

(** The text written to [out], one entry per [print]. *)
Definition output : Type := list string.

Definition io (A : Type) : Type := output -> output * result A.

Definition io_ret {A : Type} (a : A) : io A := fun out => (out, Ok a).

Definition io_bind {A B : Type} (c : io A) (k : A -> io B) : io B :=
  fun out =>
    match c out with
    | (out', Ok a) => k a out'
    | (out', Raise e) => (out', Raise e)
    end.

Definition io_lift {A : Type} (r : result A) : io A := fun out => (out, r).

(** [print(s, file=out)]. *)
Definition print (s : string) : io unit :=
  fun out => ((out ++ [(s ++ newline)%string])%list, Ok tt).

Fixpoint io_for {A : Type} (l : list A) (body : A -> io unit) : io unit :=
  match l with
  | [] => io_ret tt
  | a :: l' => io_bind (body a) (fun _ => io_for l' body)
  end.

Declare Scope io_scope.
Delimit Scope io_scope with io.
Notation "x <- c ;; k" := (io_bind c (fun x => k))
  (at level 61, c at next level, right associativity) : io_scope.
Notation "c ;;; k" := (io_bind c (fun _ => k))
  (at level 61, right associativity) : io_scope.

(** A [str] by its Unicode code points. *)
Definition text : Type := list Z.

(** The code points of a literal of the source: the literals are ASCII,
    one character per code point. *)
Definition code_points (s : string) : text :=
  map (fun a => Z.of_nat (nat_of_ascii a)) (list_ascii_of_string s).

(** The separator [","]. *)
Definition comma : Z := 0x2C.

(** The white space of [str.strip()]: the code points for which
    [str.isspace()] holds.  Beyond ASCII these are NEL, the no-break
    space, the Ogham space mark, the spaces U+2000 to U+200A, the line and
    paragraph separators, the narrow no-break space, the medium
    mathematical space and the ideographic space. *)
Definition is_space (c : Z) : bool :=
  (((0x09 <=? c) && (c <=? 0x0D)) || ((0x1C <=? c) && (c <=? 0x20))
   || (c =? 0x85) || (c =? 0xA0) || (c =? 0x1680)
   || ((0x2000 <=? c) && (c <=? 0x200A))
   || (c =? 0x2028) || (c =? 0x2029) || (c =? 0x202F) || (c =? 0x205F)
   || (c =? 0x3000))%Z.

Fixpoint lstrip (s : text) : text :=
  match s with
  | a :: s' => if is_space a then lstrip s' else s
  | [] => []
  end.

Fixpoint rstrip (s : text) : text :=
  match s with
  | [] => []
  | a :: s' =>
      match rstrip s' with
      | [] => if is_space a then [] else [a]
      | r => a :: r
      end
  end.

(** [s.strip()]. *)
Definition py_strip (s : text) : text := rstrip (lstrip s).

(** [s.split(c)] for a one-character separator. *)
Fixpoint py_split (c : Z) (s : text) : list text :=
  match s with
  | [] => [[]]
  | a :: s' =>
      if (a =? c)%Z then [] :: py_split c s'
      else match py_split c s' with
           | h :: t => (a :: h) :: t
           | [] => [[a]]
           end
  end.

(** [a == b] on two [str]s. *)
Fixpoint text_eqb (a b : text) : bool :=
  match a, b with
  | [], [] => true
  | x :: a', y :: b' => (x =? y)%Z && text_eqb a' b'
  | _, _ => false
  end.

(** [key in d] and [d[key]] in one lookup, for a key given by its code
    points against the literal keys of a catalog. *)
Fixpoint catalog_find_text {V : Type} (d : list (string * V)) (k : text) : option V :=
  match d with
  | [] => None
  | (k', v) :: d' =>
      if text_eqb k (code_points k') then Some v else catalog_find_text d' k
  end.

Record args : Type := {
  metrics : option text;
  output_path : option string;
  flowchart_flag : bool;
  all_flag : bool
}.

(** The body shared by the [-m] and [--all] loops. *)
Definition render_metric (cols : dict (list Z)) (ticks : list Z) (m : metric) : io unit :=
  (let '(title, col, ylabel) := m in
   values <- io_lift (dict_get cols (Some col)) ;;
   chart <- io_lift (xychart title ticks [(col, values)] "tick" ylabel) ;;
   print chart ;;; print "")%io.

(** [[(name, cols[col]) for name, col in series_defs]]. *)
Definition composite_series (cols : dict (list Z)) (series_defs : list (string * string))
  : result (list (string * list Z)) :=
  mapM (fun d : string * string =>
          values <- dict_get cols (Some (snd d)) ;; Ok (fst d, values)) series_defs.

(** The chart of one composite. *)
Definition composite_chart (cols : dict (list Z)) (ticks : list Z) (c : composite)
  : result string :=
  series <- composite_series cols (snd c) ;;
  xychart (fst c) ticks series "tick" "value".

Definition render_composite (cols : dict (list Z)) (ticks : list Z) (c : composite) : io unit :=
  (chart <- io_lift (composite_chart cols ticks c) ;;
   print chart ;;; print "")%io.

(** The [-m key,key,...] loop. *)
Definition render_selection (cols : dict (list Z)) (ticks : list Z) (keys : list text)
  : io unit :=
  io_for keys (fun k =>
    match catalog_find_text METRIC_GROUPS (py_strip k) with
    | Some m => render_metric cols ticks m
    | None => io_ret tt
    end).

Section Main.

Variable parse_int : string -> option Z.

(** [main], from the parsed arguments and the rows of the CSV file, with
    [out] open: lines 132 to 155.  The opening of [out] (line 131), which
    comes before the load, its closing and the note on [stderr] are left
    out. *)
Definition main (a : args) (rows : list row) : io unit :=
  (cols <- io_lift (load_csv parse_int rows) ;;
   ticks <- io_lift (dict_get cols (Some "tick")) ;;
   (if flowchart_flag a then print flowchart ;;; print "" else io_ret tt) ;;;
   match metrics a with
   | Some (c :: s) =>
       render_selection cols ticks (py_split comma (c :: s))
   | _ =>
       if all_flag a
       then io_for METRIC_GROUPS (fun km => render_metric cols ticks (snd km))
       else io_for COMPOSITES (fun kc => render_composite cols ticks (snd kc))
   end)%io.

End Main.

(** ** [plot_timeline.py]: the activity rates and the calls of [plot] *)

(** [[cols[name][i] - cols[name][i - 1] for i in range(1, len(ticks))]]. *)
Definition rate (cols : dict (list Z)) (name : string) (ticks : list Z) : result (list Z) :=
  mapM (fun i =>
          c <- dict_get cols (Some name) ;;
          a <- py_getitem c i ;;
          c' <- dict_get cols (Some name) ;;
          b <- py_getitem c' (i - 1) ;;
          Ok (a - b))
       (py_range2 1 (py_len ticks)).

(** [[l[i] - l[i - 1] for i in range(1, len(l))]]: the [dt] of [plot],
    which is computed and not drawn. *)
Definition differences (l : list Z) : result (list Z) :=
  mapM (fun i =>
          a <- py_getitem l i ;;
          b <- py_getitem l (i - 1) ;;
          Ok (a - b))
       (py_range2 1 (py_len l)).

(** The calls [ax.plot(x, y, ...)] of [plot], in the order of the source,
    each with the [x] and the [y] that it is given.  The columns are read
    where the source reads them, so that a missing column raises its
    [KeyError] at the call that names it; what matplotlib does with the
    data is left out. *)
Definition plot_calls (cols : dict (list Z)) : result (list (list Z * list Z)) :=
  ticks <- dict_get cols (Some "tick") ;;
  alive <- dict_get cols (Some "alive") ;;
  avg_stress <- dict_get cols (Some "avg_stress") ;;
  trades <- dict_get cols (Some "trades") ;;
  teaches <- dict_get cols (Some "teaches") ;;
  dt <- differences ticks ;;
  trade_rate <- rate cols "trades" ticks ;;
  teach_rate <- rate cols "teaches" ticks ;;
  food <- dict_get cols (Some "food") ;;
  items <- dict_get cols (Some "items") ;;
  gold <- dict_get cols (Some "gold") ;;
  best_fit <- dict_get cols (Some "best_fit") ;;
  avg_fit <- dict_get cols (Some "avg_fit") ;;
  holders <- dict_get cols (Some "holders") ;;
  crafted <- dict_get cols (Some "crafted") ;;
  crystal_npcs <- dict_get cols (Some "crystal_npcs") ;;
  Ok [ (ticks, alive); (ticks, avg_stress);
       (ticks, trades); (ticks, teaches);
       (py_slice ticks 1 (py_len ticks), trade_rate);
       (py_slice ticks 1 (py_len ticks), teach_rate);
       (ticks, food); (ticks, items); (ticks, gold);
       (ticks, best_fit); (ticks, avg_fit);
       (ticks, holders); (ticks, crafted); (ticks, crystal_npcs) ]%list.

(** ** Notions used to state the properties *)

(** Whether the [-m] loop draws something for [k]. *)
Definition known_key (k : text) : bool :=
  match catalog_find_text METRIC_GROUPS (py_strip k) with
  | Some _ => true
  | None => false
  end.


Local Close Scope string_scope.

(** [min(values)] and [max(values)] of a non-empty list. *)
Definition list_min (l : list Z) : Z :=
  match l with
  | [] => 0
  | x :: l' => fold_left Z.min l' x
  end.

Definition list_max (l : list Z) : Z :=
  match l with
  | [] => 0
  | x :: l' => fold_left Z.max l' x
  end.

(** The bucket bound of the specification: [floor(i * step)] where
    [step = n / cap] is the exact quotient, not its binary64 rounding. *)
Definition exact_boundary (n cap i : Z) : Z := i * n / cap.

(** The points of the specification for [len(values) > cap]: the floor
    average of every bucket [[exact_boundary i, exact_boundary (i + 1))]. *)
Definition exact_downsample (values : list Z) (cap : Z) : list Z :=
  let n := py_len values in
  map (fun i =>
         py_sum (py_slice values (exact_boundary n cap i) (exact_boundary n cap (i + 1)))
         / (exact_boundary n cap (i + 1) - exact_boundary n cap i))
      (py_range cap).

(** Rounding [X] to the nearest multiple of [U], ties to the even
    multiple. *)
Definition rne_at (U X : Z) : Z :=
  let q := X / U in
  let r := X mod U in
  U * (if (U <? 2 * r) || ((U =? 2 * r) && Z.odd q) then q + 1 else q).

(** Rounding a positive integer to 53 significant bits, to nearest even:
    what binary64 does to the exact product, seen through a fixed scale. *)
Definition rnd (X : Z) : Z := rne_at (2 ^ (Z.log2 X - 52)) X.

(** The scale: a binary64 number [m * 2^e] with [e >= -104] is the integer
    [m * 2^(e + frac_bits)]. *)
Definition frac_bits : Z := 104.

(** The length up to which the bucket bounds of [downsample] are proved
    well formed. *)
Definition max_len : Z := 2 ^ 51.

(** ** Sample data *)

Local Open Scope string_scope.

(** A parser of the few numerals of the samples. *)
Definition sample_parse (s : string) : option Z :=
  if String.eqb s "0" then Some 0
  else if String.eqb s "1" then Some 1
  else if String.eqb s "2" then Some 2
  else if String.eqb s "5" then Some 5
  else None.

(** A CSV with the columns [tick], [alive] and [avg_stress] only. *)
Definition sample_row (t a s : string) : row :=
  [ (Some "tick", CellStr t); (Some "alive", CellStr a); (Some "avg_stress", CellStr s) ].

Definition sample_rows : list row :=
  [ sample_row "0" "5" "1"; sample_row "1" "5" "2" ].

Definition sample_cols : dict (list Z) :=
  [ (Some "tick", [0; 1; 2; 3]); (Some "trades", [0; 3; 3; 7]);
    (Some "teaches", [0; 1; 1; 2]) ].

Definition default_args : args :=
  {| metrics := None; output_path := None; flowchart_flag := false; all_flag := false |}.

Definition select_args (keys : text) : args :=
  {| metrics := Some keys; output_path := None; flowchart_flag := false; all_flag := false |}.

Local Close Scope string_scope.

(** ** Notions used to state the further properties *)

(** A cell that [int] accepts: a string that parses. *)
Definition integer_cell (parse_int : string -> option Z) (r : row) (k : key) : Prop :=
  exists s z, dict_get r k = Ok (CellStr s) /\ parse_int s = Some z.

(** A row as [csv.DictReader] yields it for the header [fields]: every
    field of the header is there, with its cell or with [None] where the
    line was short, and the cells beyond the header, if any, are a list
    under the key [None]. *)
Definition reader_row (fields : list string) (r : row) : bool :=
  forallb (fun f => match dict_get r (Some f) with
                    | Ok (CellStr _) | Ok CellNone => true
                    | _ => false
                    end) fields
  && forallb (fun kc : key * cell =>
                match kc with
                | (Some f, _) => existsb (String.eqb f) fields
                | (None, CellList _) => true
                | (None, _) => false
                end) r.

(** The floor average of the values in the bucket [(start, end)]. *)
Definition bucket_average (values : list Z) (se : Z * Z) : Z :=
  py_sum (py_slice values (fst se) (snd se)) / (snd se - fst se).

(** Every element stands in relation [r] to the next one. *)
Fixpoint sorted_by (r : Z -> Z -> bool) (l : list Z) : bool :=
  match l with
  | a :: (b :: _) as t => r a b && sorted_by r t
  | _ => true
  end.

Definition nondecreasing : list Z -> bool := sorted_by Z.leb.
Definition increasing : list Z -> bool := sorted_by Z.ltb.

(** What [print(chart, file=out)] followed by [print(file=out)] adds to
    the output. *)
Definition block (chart : string) : list string :=
  [(chart ++ newline)%string; newline].

(** One chart asked for: a metric of [METRIC_GROUPS] or a composite of
    [COMPOSITES]. *)
Inductive request : Type :=
| Metric (m : metric)
| Composite (c : composite).

(** The charts that the arguments ask for, in the order of the loops of
    [main]: the known keys of [-m], else every metric with [--all], else
    the composites. *)
Definition requests (a : args) : list request :=
  match metrics a with
  | Some (c :: s) =>
      flat_map (fun k => match catalog_find_text METRIC_GROUPS (py_strip k) with
                         | Some m => [Metric m]
                         | None => []
                         end)
               (py_split comma (c :: s))
  | _ =>
      if all_flag a
      then map (fun km : string * metric => Metric (snd km)) METRIC_GROUPS
      else map (fun kc : string * composite => Composite (snd kc)) COMPOSITES
  end.

(** The text of the chart of one request. *)
Definition chart_of (cols : dict (list Z)) (ticks : list Z) (r : request) : result string :=
  match r with
  | Metric (title, col, ylabel) =>
      values <- dict_get cols (Some col) ;;
      xychart title ticks [(col, values)] "tick" ylabel
  | Composite c => composite_chart cols ticks c
  end.

(** What [--flowchart] writes before the charts. *)
Definition preamble (a : args) : list string :=
  if flowchart_flag a then block flowchart else [].

(** The column of a metric. *)
Definition metric_column (m : metric) : string := snd (fst m).

(** The columns that the charts read: [tick] and the column of every
    metric of the catalog. *)
Definition chart_columns : list string :=
  "tick"%string :: map (fun km : string * metric => metric_column (snd km)) METRIC_GROUPS.

(** Whether [cols] holds every column of [names]. *)
Definition has_columns (cols : dict (list Z)) (names : list string) : bool :=
  forallb (fun c => match dict_get cols (Some c) with
                    | Ok _ => true
                    | Raise _ => false
                    end) names.

(** A [str] of white space only. *)
Definition blank : text -> bool := forallb is_space.

(** A [str] without a comma. *)
Definition no_comma : text -> bool := forallb (fun c => negb (c =? comma)).

(** [sep.join(l)]. *)
Fixpoint py_join (sep : text) (l : list text) : text :=
  match l with
  | [] => []
  | x :: l' =>
      match l' with
      | [] => x
      | _ :: _ => x ++ sep ++ py_join sep l'
      end
  end.

(** A key of a selection with the white space written around it. *)
Definition padded (lkr : text * text * text) : text :=
  let '(l, k, r) := lkr in l ++ k ++ r.

Definition well_padded (lkr : text * text * text) : bool :=
  let '(l, k, r) := lkr in blank l && blank r && no_comma k.

(** ** Further sample data *)

(** A CSV of two rows with every column of the charts, and its columns. *)
Definition full_row (v : string) : row :=
  map (fun c => (Some c, CellStr v)) chart_columns.

Definition full_rows : list row := [full_row "0"; full_row "1"].

Definition full_cols : dict (list Z) :=
  map (fun c => (Some c, [0; 1])) chart_columns.

(** * Properties *)

(** ** Rounding to nearest even on integers *)

Lemma rne_at_cases U X : 0 < U ->
  (rne_at U X = U * (X / U) /\ 2 * (X mod U) <= U) \/
  (rne_at U X = U * (X / U + 1) /\ U <= 2 * (X mod U)).
Proof.
  intros HU. unfold rne_at.
  destruct (Z.ltb_spec U (2 * (X mod U))); cbn [orb andb].
  - right. split; [reflexivity | lia].
  - destruct (Z.eqb_spec U (2 * (X mod U))); cbn [orb andb].
    + destruct (Z.odd (X / U)); [right | left]; split; try reflexivity; lia.
    + left. split; [reflexivity | lia].
Qed.

Lemma rne_at_bounds U X : 0 < U ->
  2 * X - U <= 2 * rne_at U X <= 2 * X + U.
Proof.
  intros HU. pose proof (Z.div_mod X U ltac:(lia)) as E.
  pose proof (Z.mod_pos_bound X U HU) as B.
  destruct (rne_at_cases U X HU) as [[-> H] | [-> H]]; nia.
Qed.

Lemma rne_at_multiple U X : 0 < U -> (U | X) -> rne_at U X = X.
Proof.
  intros HU [c ->]. unfold rne_at.
  rewrite Z.mod_mul, Z.div_mul by lia.
  replace (U <? 2 * 0) with false by (symmetry; apply Z.ltb_ge; lia).
  replace (U =? 2 * 0) with false by (symmetry; apply Z.eqb_neq; lia).
  cbn [orb andb]. lia.
Qed.

Lemma rne_at_divide U X : 0 < U -> (U | rne_at U X).
Proof.
  intros HU. destruct (rne_at_cases U X HU) as [[-> _] | [-> _]];
    apply Z.divide_factor_l.
Qed.

(** A multiple of [U] below [X] stays below the rounding of [X], and one above stays above. *)
Lemma rne_at_ge_multiple U X A : 0 < U -> (U | A) -> A <= X -> A <= rne_at U X.
Proof.
  intros HU [c ->] H.
  assert (c <= X / U) by (apply Z.div_le_lower_bound; lia).
  destruct (rne_at_cases U X HU) as [[-> _] | [-> _]]; nia.
Qed.

Lemma rne_at_le_multiple U X A : 0 < U -> (U | A) -> X <= A -> rne_at U X <= A.
Proof.
  intros HU [c ->] H.
  pose proof (Z.div_mod X U ltac:(lia)) as E.
  pose proof (Z.mod_pos_bound X U HU) as B.
  destruct (Z.eq_dec (X mod U) 0) as [Z0|NZ].
  - rewrite rne_at_multiple; try lia. exists (X / U). lia.
  - assert (X / U < c) by nia.
    destruct (rne_at_cases U X HU) as [[-> _] | [-> _]]; nia.
Qed.

Lemma rne_at_mono U X Y : 0 < U -> X <= Y -> rne_at U X <= rne_at U Y.
Proof.
  intros HU H.
  pose proof (Z.div_mod X U ltac:(lia)) as EX.
  pose proof (Z.mod_pos_bound X U HU) as BX.
  pose proof (Z.div_mod Y U ltac:(lia)) as EY.
  pose proof (Z.mod_pos_bound Y U HU) as BY.
  assert (X / U <= Y / U) as Hq by (apply Z.div_le_mono; lia).
  destruct (Z.eq_dec (X / U) (Y / U)) as [Eq | Ne].
  - assert (X mod U <= Y mod U) as Hr by nia.
    unfold rne_at. rewrite <- Eq.
    clear EX EY Hq Eq.
    destruct (Z.ltb_spec U (2 * (X mod U))), (Z.ltb_spec U (2 * (Y mod U))); cbn [orb andb]; try lia.
    + destruct (Z.eqb_spec U (2 * (X mod U))); cbn [orb andb]; destruct (Z.odd (X / U)); lia.
    + destruct (Z.eqb_spec U (2 * (X mod U))), (Z.eqb_spec U (2 * (Y mod U))); cbn [orb andb];
      destruct (Z.odd (X / U)); lia.
  - apply Z.le_trans with (U * (X / U + 1)).
    + destruct (rne_at_cases U X HU) as [[-> _] | [-> _]]; nia.
    + apply rne_at_ge_multiple; try lia. * apply Z.divide_factor_l. * nia.
Qed.

Lemma rne_at_translate U X c : 0 < U ->
  rne_at U (X + U * (2 * c)) = rne_at U X + U * (2 * c).
Proof.
  intros HU. unfold rne_at.
  replace (X + U * (2 * c)) with (X + (2 * c) * U) by lia.
  rewrite Z.mod_add, Z.div_add by lia.
  replace (Z.odd (X / U + 2 * c)) with (Z.odd (X / U)).
  2:{ symmetry. apply Z.odd_add_mul_2. }
  destruct ((U <? 2 * (X mod U)) || (U =? 2 * (X mod U)) && Z.odd (X / U)); lia.
Qed.

(** ** Powers of two and binades *)

Lemma pow2_pos a : 0 < 2 ^ a \/ a < 0.
Proof. destruct (Z.le_gt_cases 0 a); [left; apply Z.pow_pos_nonneg; lia | right; lia]. Qed.

Lemma pow2_split a b : 0 <= b <= a -> 2 ^ a = 2 ^ b * 2 ^ (a - b).
Proof. intros H. rewrite <- Z.pow_add_r by lia. f_equal. lia. Qed.

Lemma pow2_le a b : 0 <= a <= b -> 2 ^ a <= 2 ^ b.
Proof. intros H. apply Z.pow_le_mono_r; lia. Qed.

Lemma pow2_divide a b : 0 <= a <= b -> (2 ^ a | 2 ^ b).
Proof. intros H. exists (2 ^ (b - a)). rewrite (pow2_split b a) by lia. lia. Qed.

Lemma log2_binade X D : 0 <= D -> 2 ^ D <= X < 2 ^ (D + 1) -> Z.log2 X = D.
Proof. intros HD H. apply Z.log2_unique; [lia|]. replace (Z.succ D) with (D + 1) by lia. lia. Qed.

Lemma log2_bounds X : 0 < X -> 2 ^ Z.log2 X <= X < 2 ^ (Z.log2 X + 1).
Proof. intros H. pose proof (Z.log2_spec X H). replace (Z.succ (Z.log2 X)) with (Z.log2 X + 1) in * by lia. lia. Qed.

Lemma log2_ge X D : 0 <= D -> 2 ^ D <= X -> D <= Z.log2 X.
Proof. intros HD H. apply Z.log2_le_pow2; [|exact H]. pose proof (Z.pow_pos_nonneg 2 D); lia. Qed.

Lemma log2_lt X D : 0 < X -> X < 2 ^ D -> Z.log2 X < D.
Proof. intros HX H. apply Z.log2_lt_pow2; assumption. Qed.

Lemma rnd_binade X D : 52 <= D -> 2 ^ D <= X < 2 ^ (D + 1) ->
  2 ^ D <= rnd X <= 2 ^ (D + 1).
Proof.
  intros HD H. unfold rnd. rewrite (log2_binade X D) by lia.
  assert (0 < 2 ^ (D - 52)) by (apply Z.pow_pos_nonneg; lia).
  split.
  - apply rne_at_ge_multiple; try lia. apply pow2_divide; lia.
  - apply rne_at_le_multiple; try lia. apply pow2_divide; lia.
Qed.

Lemma rnd_mono X Y : 2 ^ 52 <= X -> X <= Y -> rnd X <= rnd Y.
Proof.
  intros HX H.
  assert (0 < X) by (pose proof (Z.pow_pos_nonneg 2 52); lia).
  pose proof (log2_bounds X ltac:(lia)) as BX.
  pose proof (log2_bounds Y ltac:(lia)) as BY.
  assert (52 <= Z.log2 X) by (apply log2_ge; lia).
  assert (Z.log2 X <= Z.log2 Y) as HL by (apply Z.log2_le_mono; lia).
  destruct (Z.eq_dec (Z.log2 X) (Z.log2 Y)) as [E | NE].
  - unfold rnd. rewrite <- E. apply rne_at_mono; [apply Z.pow_pos_nonneg|]; lia.
  - pose proof (rnd_binade X (Z.log2 X) ltac:(lia) BX).
    pose proof (rnd_binade Y (Z.log2 Y) ltac:(lia) BY).
    pose proof (pow2_le (Z.log2 X + 1) (Z.log2 Y) ltac:(lia)). lia.
Qed.

Lemma rne_at_ge_near V X A : 0 < V -> (V | A) -> 2 * A - V < 2 * X -> A <= rne_at V X.
Proof.
  intros HV [c ->] H.
  destruct (Z.le_gt_cases (c * V) X) as [G | L].
  - apply rne_at_ge_multiple; try lia. exists c; lia.
  - pose proof (Z.div_mod X V ltac:(lia)) as E.
    pose proof (Z.mod_pos_bound X V HV) as B.
    assert (X / V = c - 1) as Hq by nia.
    destruct (rne_at_cases V X HV) as [[-> Hr] | [-> Hr]]; rewrite Hq in *; nia.
Qed.

Lemma rnd_floor_step K X Y : 52 <= K ->
  2 ^ K <= X -> X + 2 ^ K <= Y -> Y < 2 ^ (K + 52) ->
  rnd X / 2 ^ K + 1 <= rnd Y / 2 ^ K.
Proof.
  intros HK HX HXY HY.
  set (T := 2 ^ K) in *.
  assert (0 < T) as HT by (apply Z.pow_pos_nonneg; lia).
  pose proof (log2_bounds X ltac:(lia)) as BX.
  pose proof (log2_bounds Y ltac:(lia)) as BY.
  set (D := Z.log2 X) in *. set (D' := Z.log2 Y) in *.
  assert (K <= D) as HKD by (apply log2_ge; lia).
  assert (D' < K + 52) as HD' by (apply log2_lt; lia).
  assert (D <= D') as HDD by (apply Z.log2_le_mono; lia).
  set (U := 2 ^ (D - 52)).
  assert (0 < U) as HU by (apply Z.pow_pos_nonneg; lia).
  assert (T = U * (2 * 2 ^ (K + 51 - D))) as ET.
  { unfold T, U. rewrite <- (Z.pow_succ_r 2) by lia. rewrite <- Z.pow_add_r by lia.
    f_equal. lia. }
  destruct (Z.eq_dec D D') as [E | NE].
  - (* same binade *)
    assert (rnd X + T <= rnd Y) as Hs.
    { unfold rnd. fold D D'. rewrite <- E. fold U.
      rewrite ET at 1. rewrite <- rne_at_translate by lia. rewrite <- ET.
      apply rne_at_mono; lia. }
    apply Z.le_trans with ((rnd X + 1 * T) / T).
    + rewrite Z.div_add by lia. lia.
    + apply Z.div_le_mono; lia.
  - (* the binade of [Y] is above that of [X] *)
    set (P := 2 ^ (D + 1)) in *.
    assert (P = T * 2 ^ (D + 1 - K)) as EP by (apply pow2_split; lia).
    assert (0 < 2 ^ (D + 1 - K)) as HPK by (apply Z.pow_pos_nonneg; lia).
    assert (P <= 2 ^ D') as HPD by (apply pow2_le; lia).
    pose proof (rnd_binade X D ltac:(lia) BX) as RX. fold P in RX.
    pose proof (rnd_binade Y D' ltac:(lia) BY) as RY.
    destruct (Z.eq_dec (rnd X) P) as [EQ | LT].
    + (* [X] rounds up to the power of two *)
      assert (2 * P - U <= 2 * X) as HXP.
      { assert (P = U * 2 ^ 53) as EPU.
        { unfold P, U. rewrite <- Z.pow_add_r by lia. f_equal. lia. }
        unfold rnd in EQ. fold D U in EQ.
        pose proof (Z.div_mod X U ltac:(lia)) as EX.
        pose proof (Z.mod_pos_bound X U HU) as BXU.
        destruct (rne_at_cases U X HU) as [[R Hr] | [R Hr]]; rewrite R in EQ; nia. }
      assert (P + T <= rnd Y) as HY'.
      { destruct (Z.eq_dec D' (D + 1)) as [E1 | N1].
        - unfold rnd. fold D'. rewrite E1.
          replace (D + 1 - 52) with (Z.succ (D - 52)) by lia.
          rewrite Z.pow_succ_r by lia. fold U.
          apply rne_at_ge_near; try lia.
          apply Z.divide_add_r.
          + exists (2 ^ 52). unfold P, U.
            replace (2 ^ 52 * (2 * 2 ^ (D - 52))) with (2 ^ 52 * 2 ^ 1 * 2 ^ (D - 52)) by lia.
            rewrite <- !Z.pow_add_r by lia. f_equal. lia.
          + rewrite ET. exists (2 ^ (K + 51 - D)). lia.
        - assert (2 ^ (D + 2) <= 2 ^ D') by (apply pow2_le; lia).
          assert (2 ^ (D + 2) = 2 * P).
          { unfold P. replace (D + 2) with (Z.succ (D + 1)) by lia.
            rewrite Z.pow_succ_r by lia. reflexivity. }
          nia. }
      rewrite EQ.
      apply Z.le_trans with ((P + 1 * T) / T).
      * rewrite Z.div_add by lia. lia.
      * apply Z.div_le_mono; lia.
    + assert (rnd X / T < 2 ^ (D + 1 - K)) by (apply Z.div_lt_upper_bound; lia).
      assert (2 ^ (D + 1 - K) <= rnd Y / T) by (apply Z.div_le_lower_bound; lia).
      lia.
Qed.

Lemma rnd_upper K X N : 52 <= K -> 2 ^ K <= X -> X < 2 ^ (K + 52) ->
  4 * X <= 4 * N * 2 ^ K + 2 * 2 ^ K -> rnd X / 2 ^ K <= N.
Proof.
  intros HK HX HY HN.
  set (T := 2 ^ K) in *.
  assert (0 < T) as HT by (apply Z.pow_pos_nonneg; lia).
  pose proof (log2_bounds X ltac:(lia)) as BX.
  set (D := Z.log2 X) in *.
  assert (K <= D) as HKD by (apply log2_ge; lia).
  assert (D < K + 52) as HD' by (apply log2_lt; lia).
  set (U := 2 ^ (D - 52)).
  assert (0 < U) as HU by (apply Z.pow_pos_nonneg; lia).
  assert (T = U * (2 * 2 ^ (K + 51 - D))) as ET.
  { unfold T, U. rewrite <- (Z.pow_succ_r 2) by lia. rewrite <- Z.pow_add_r by lia.
    f_equal. lia. }
  assert (0 < 2 ^ (K + 51 - D)) by (apply Z.pow_pos_nonneg; lia).
  pose proof (rne_at_bounds U X HU) as B. fold U in B.
  assert (rnd X < (N + 1) * T).
  { unfold rnd. fold D U. nia. }
  apply Z.lt_succ_r. apply Z.div_lt_upper_bound; lia.
Qed.

(** ** The rounding of [binary_round_aux] *)

Lemma digits2_pos_size p : digits2_pos p = Pos.size p.
Proof. induction p; simpl; congruence. Qed.

Lemma Zdigits2_log2 m : 0 < m -> Zdigits2 m = Z.log2 m + 1.
Proof.
  destruct m as [|p|p]; try lia. intros _. simpl. rewrite digits2_pos_size.
  destruct p; simpl; lia.
Qed.

Lemma iter_pos_nat {A} (f : A -> A) p x :
  iter_pos f p x = Nat.iter (Pos.to_nat p) f x.
Proof.
  revert x. induction p as [p IH | p IH |]; intros x; cbn [iter_pos].
  - rewrite !IH. rewrite <- Nat.iter_succ_r, <- Nat.iter_add.
    f_equal. lia.
  - rewrite !IH. rewrite Pos2Nat.inj_xO. rewrite <- Nat.iter_add. f_equal. lia.
  - reflexivity.
Qed.

Lemma shr_1_nonneg m r s : 0 <= m ->
  shr_1 (Build_shr_record m r s) = Build_shr_record (m / 2) (Z.odd m) (r || s).
Proof.
  intros H. rewrite <- Z.div2_div.
  destruct m as [|p|p]; try lia; [|destruct p]; reflexivity.
Qed.

Lemma shr_spec mrs e k : 0 <= k ->
  shr mrs e k = (Nat.iter (Z.to_nat k) shr_1 mrs, e + k).
Proof.
  intros H. destruct k as [|p|p]; try lia; simpl.
  - rewrite Z.add_0_r. reflexivity.
  - rewrite iter_pos_nat. reflexivity.
Qed.

Lemma iter_shr_m k mrs : 0 <= shr_m mrs ->
  shr_m (Nat.iter k shr_1 mrs) = shr_m mrs / 2 ^ Z.of_nat k.
Proof.
  intros H. induction k as [|k IH].
  - simpl. rewrite Z.div_1_r. reflexivity.
  - rewrite Nat.iter_succ.
    destruct (Nat.iter k shr_1 mrs) as [m r s] eqn:E. simpl in IH.
    assert (0 <= m) by (subst m; apply Z.div_pos; [lia | apply Z.pow_pos_nonneg; lia]).
    rewrite shr_1_nonneg by lia. simpl shr_m.
    assert (0 < 2 ^ Z.of_nat k) by (apply Z.pow_pos_nonneg; lia).
    rewrite IH, Nat2Z.inj_succ, Z.pow_succ_r by lia.
    rewrite Z.div_div by lia.
    f_equal. lia.
Qed.

(** Shifting an exact mantissa by [k >= 1] bits keeps the bit below the
    cut and whether anything lies below that bit. *)
Lemma iter_shr_exact k M : 0 <= M ->
  Nat.iter (S k) shr_1 (Build_shr_record M false false) =
  Build_shr_record (M / 2 ^ Z.of_nat (S k))
                   (Z.odd (M / 2 ^ Z.of_nat k))
                   (negb (M mod 2 ^ Z.of_nat k =? 0)).
Proof.
  intros H. induction k as [|k IH].
  - unfold Nat.iter. cbn [nat_rect]. rewrite shr_1_nonneg by lia.
    change (2 ^ Z.of_nat 0) with 1. change (2 ^ Z.of_nat 1) with 2.
    rewrite Z.div_1_r, Z.mod_1_r. reflexivity.
  - rewrite Nat.iter_succ, IH.
    assert (0 < 2 ^ Z.of_nat k) as Hp by (apply Z.pow_pos_nonneg; lia).
    assert (2 ^ Z.of_nat (S k) = 2 ^ Z.of_nat k * 2) as E1
        by (rewrite Nat2Z.inj_succ, Z.pow_succ_r by lia; lia).
    assert (0 <= M / 2 ^ Z.of_nat (S k))
      by (apply Z.div_pos; [lia | apply Z.pow_pos_nonneg; lia]).
    rewrite shr_1_nonneg by lia. f_equal.
    + assert (0 < 2 ^ Z.of_nat (S k)) by (apply Z.pow_pos_nonneg; lia).
      rewrite (Nat2Z.inj_succ (S k)), Z.pow_succ_r by lia.
      rewrite Z.div_div by lia.
      f_equal. lia.
    + rewrite E1, Z.rem_mul_r by lia.
      pose proof (Z.mod_pos_bound M (2 ^ Z.of_nat k) Hp) as B1.
      pose proof (Z.mod_pos_bound (M / 2 ^ Z.of_nat k) 2 ltac:(lia)) as B2.
      rewrite (Zodd_mod (M / 2 ^ Z.of_nat k)).
      destruct (Z.eqb_spec ((M / 2 ^ Z.of_nat k) mod 2) 1) as [e1 | n1].
      * cbn [orb]. symmetry. apply negb_true_iff. apply Z.eqb_neq. nia.
      * cbn [orb]. f_equal.
        destruct (Z.eqb_spec (M mod 2 ^ Z.of_nat k) 0),
                 (Z.eqb_spec (M mod 2 ^ Z.of_nat k + 2 ^ Z.of_nat k * ((M / 2 ^ Z.of_nat k) mod 2)) 0);
          try reflexivity; nia.
Qed.

Lemma round_nearest_even_cases m l :
  round_nearest_even m l = m \/ round_nearest_even m l = m + 1.
Proof. destruct l as [|[]]; simpl; try (left; reflexivity); try (right; reflexivity).
  destruct (Z.even m); [left | right]; reflexivity. Qed.

(** Rounding the shifted mantissa is [rne_at] on the grid of the shift. *)
Lemma round_shifted_exact k M : 0 <= M ->
  let mrs := Nat.iter (S k) shr_1 (Build_shr_record M false false) in
  2 ^ Z.of_nat (S k) * round_nearest_even (shr_m mrs) (loc_of_shr_record mrs)
  = rne_at (2 ^ Z.of_nat (S k)) M.
Proof.
  intros H mrs. subst mrs. rewrite iter_shr_exact by lia.
  assert (0 < 2 ^ Z.of_nat k) as Hp by (apply Z.pow_pos_nonneg; lia).
  assert (2 ^ Z.of_nat (S k) = 2 ^ Z.of_nat k * 2) as E1
      by (rewrite Nat2Z.inj_succ, Z.pow_succ_r by lia; lia).
  set (U := 2 ^ Z.of_nat (S k)) in *. set (h := 2 ^ Z.of_nat k) in *.
  unfold rne_at. f_equal. simpl shr_m.
  assert (M mod U = M mod h + h * ((M / h) mod 2)) as ER by (rewrite E1; apply Z.rem_mul_r; lia).
  pose proof (Z.mod_pos_bound M h Hp) as B1.
  pose proof (Z.mod_pos_bound (M / h) 2 ltac:(lia)) as B2.
  rewrite (Zodd_mod (M / h)).
  destruct (Z.eqb_spec ((M / h) mod 2) 1) as [e1 | n1];
    destruct (Z.eqb_spec (M mod h) 0) as [e0 | n0]; cbn [negb loc_of_shr_record round_nearest_even].
  - (* tie *)
    replace (U <? 2 * (M mod U)) with false by (symmetry; apply Z.ltb_ge; nia).
    replace (U =? 2 * (M mod U)) with true by (symmetry; apply Z.eqb_eq; nia).
    cbn [orb andb]. rewrite <- Z.negb_odd. destruct (Z.odd (M / U)); reflexivity.
  - replace (U <? 2 * (M mod U)) with true by (symmetry; apply Z.ltb_lt; nia).
    reflexivity.
  - replace (U <? 2 * (M mod U)) with false by (symmetry; apply Z.ltb_ge; nia).
    replace (U =? 2 * (M mod U)) with false by (symmetry; apply Z.eqb_neq; nia).
    reflexivity.
  - replace (U <? 2 * (M mod U)) with false by (symmetry; apply Z.ltb_ge; nia).
    replace (U =? 2 * (M mod U)) with false by (symmetry; apply Z.eqb_neq; nia).
    reflexivity.
Qed.

Lemma fexp_normal x : -1074 <= x - 53 -> fexp 53 1024 x = x - 53.
Proof. unfold fexp, emin. lia. Qed.

Lemma shr_m_of_loc m l : shr_m (shr_record_of_loc m l) = m.
Proof. destruct l as [|[]]; reflexivity. Qed.

Lemma loc_of_record_of_loc m l : loc_of_shr_record (shr_record_of_loc m l) = l.
Proof. destruct l as [|[]]; reflexivity. Qed.

Lemma shr_fexp_spec M E l : 0 < M -> 53 <= Z.log2 M + 1 ->
  -1074 <= E + (Z.log2 M - 52) ->
  shr_fexp 53 1024 M E l =
  (Nat.iter (Z.to_nat (Z.log2 M - 52)) shr_1 (shr_record_of_loc M l), E + (Z.log2 M - 52)).
Proof.
  intros HM Hd HE. unfold shr_fexp.
  rewrite Zdigits2_log2, fexp_normal by lia.
  replace (Z.log2 M + 1 + E - 53 - E) with (Z.log2 M - 52) by lia.
  apply shr_spec. lia.
Qed.

Lemma shifted_mantissa_range M : 0 < M -> 52 <= Z.log2 M ->
  2 ^ 52 <= M / 2 ^ (Z.log2 M - 52) < 2 ^ 53.
Proof.
  intros HM HL. pose proof (log2_bounds M HM) as B.
  assert (0 < 2 ^ (Z.log2 M - 52)) as HU by (apply Z.pow_pos_nonneg; lia).
  rewrite (pow2_split (Z.log2 M) (Z.log2 M - 52)) in B by lia.
  rewrite (pow2_split (Z.log2 M + 1) (Z.log2 M - 52)) in B by lia.
  replace (Z.log2 M - (Z.log2 M - 52)) with 52 in B by lia.
  replace (Z.log2 M + 1 - (Z.log2 M - 52)) with 53 in B by lia.
  split.
  - apply Z.div_le_lower_bound; lia.
  - apply Z.div_lt_upper_bound; lia.
Qed.

(** The result of [binary_round_aux] on a positive mantissa of at least 53
    bits, away from underflow and overflow: a normal number whose value is
    the rounded shifted mantissa. *)
Lemma binary_round_aux_normal M E l :
  0 < M -> 52 <= Z.log2 M ->
  -1074 <= E + (Z.log2 M - 52) -> E + (Z.log2 M - 52) + 1 <= 971 ->
  let k := Z.log2 M - 52 in
  let mrs := Nat.iter (Z.to_nat k) shr_1 (shr_record_of_loc M l) in
  let R := round_nearest_even (shr_m mrs) (loc_of_shr_record mrs) in
  exists m e,
    binary_round_aux 53 1024 false M E l = S754_finite false m e /\
    2 ^ 52 <= Zpos m < 2 ^ 53 /\
    E + k <= e <= E + k + 1 /\
    Zpos m * 2 ^ (e - (E + k)) = R.
Proof.
  intros HM HL Hlo Hhi k mrs R.
  unfold binary_round_aux. rewrite shr_fexp_spec by lia.
  fold k mrs R.
  assert (shr_m mrs = M / 2 ^ k) as Hq.
  { unfold mrs. rewrite iter_shr_m; rewrite shr_m_of_loc; try lia.
    rewrite Z2Nat.id by (unfold k; lia). reflexivity. }
  pose proof (shifted_mantissa_range M HM HL) as Hr. fold k in Hr. rewrite <- Hq in Hr.
  assert (R = shr_m mrs \/ R = shr_m mrs + 1) as HR by apply round_nearest_even_cases.
  assert (2 ^ 52 <= R <= 2 ^ 53) as HRr by lia.
  destruct (Z.eq_dec R (2 ^ 53)) as [Etop | Ntop].
  - (* the carry reaches bit 53 *)
    rewrite Etop. exists (Z.to_pos (2 ^ 52)), (E + k + 1).
    repeat split; try lia; try reflexivity.
    + cbv [shr_fexp Zdigits2 digits2_pos Z.pow Z.pow_pos Pos.iter Z.mul Pos.mul Pos.succ].
      unfold fexp, emin.
      replace (Z.max (54 + (E + k) - 53) (3 - 1024 - 53) - (E + k)) with 1 by lia.
      cbn [shr iter_pos shr_1 shr_record_of_loc shr_m Z.to_pos].
      replace (E + k + 1 <=? 1024 - 53) with true by (symmetry; apply Z.leb_le; lia).
      reflexivity.
    + replace (E + k + 1 - (E + k)) with 1 by lia. reflexivity.
  - assert (Z.log2 R = 52) as HLR by (apply log2_binade; lia).
    assert (0 < R) as HRpos by (pose proof (Z.pow_pos_nonneg 2 52); lia).
    rewrite shr_fexp_spec by lia. rewrite HLR.
    replace (52 - 52) with 0 by lia. unfold Nat.iter. cbn [Z.to_nat nat_rect shr_record_of_loc shr_m].
    destruct R as [|m|m]; try lia.
    exists m, (E + k).
    replace (E + k + 0 <=? 1024 - 53) with true by (symmetry; apply Z.leb_le; lia).
    rewrite Z.add_0_r. repeat split; try lia.
    rewrite Z.sub_diag. lia.
Qed.

(** ** Conversion, division and product in binary64 *)

Lemma pos_iter_xO m d : Zpos (Pos.iter xO m d) = Zpos m * 2 ^ Zpos d.
Proof.
  induction d as [|d IH] using Pos.peano_ind.
  - cbn [Pos.iter]. change (2 ^ 1) with 2. lia.
  - rewrite Pos.iter_succ, Pos2Z.inj_succ, Z.pow_succ_r by lia.
    rewrite Pos2Z.inj_xO, IH. lia.
Qed.

(** [float(i)] is exact for [1 <= i < 2^53]. *)
Lemma of_int_exact i : 1 <= i < 2 ^ 53 ->
  exists m e, F64.of_int i = Ok (S754_finite false m e) /\
              2 ^ 52 <= Zpos m < 2 ^ 53 /\ -52 <= e <= 0 /\
              Zpos m = i * 2 ^ (- e).
Proof.
  intros Hi. destruct i as [|p|p]; try lia.
  unfold F64.of_int, binary_normalize, binary_round, F64.prec, F64.emax.
  pose proof (log2_bounds (Zpos p) ltac:(lia)) as B.
  assert (0 <= Z.log2 (Zpos p)) as HL0 by apply Z.log2_nonneg.
  assert (Z.log2 (Zpos p) < 53) as HL by (apply log2_lt; lia).
  assert (Zpos (digits2_pos p) = Z.log2 (Zpos p) + 1) as Hd
      by (apply (Zdigits2_log2 (Zpos p)); lia).
  rewrite Hd, fexp_normal by lia.
  set (L := Z.log2 (Zpos p)) in *.
  assert (exists mz, shl_align p 0 (L + 1 + 0 - 53) = (mz, L - 52) /\
                     Zpos mz = Zpos p * 2 ^ (52 - L)) as [mz [-> Hmz]].
  { unfold shl_align. replace (L + 1 + 0 - 53 - 0) with (L - 52) by lia.
    destruct (L - 52) as [|d|d] eqn:Ed; try lia.
    - exists p. split; [f_equal; lia|]. replace (52 - L) with 0 by lia. lia.
    - exists (Pos.iter xO p d). split; [f_equal; lia|].
      rewrite pos_iter_xO. f_equal. f_equal. lia. }
  assert (2 ^ 52 <= Zpos mz < 2 ^ 53) as Hr.
  { rewrite Hmz. rewrite (pow2_split 52 (52 - L)), (pow2_split 53 (52 - L)) by lia.
    replace (52 - (52 - L)) with L by lia. replace (53 - (52 - L)) with (L + 1) by lia.
    assert (0 < 2 ^ (52 - L)) by (apply Z.pow_pos_nonneg; lia). nia. }
  assert (Z.log2 (Zpos mz) = 52) as HLz by (apply log2_binade; lia).
  destruct (binary_round_aux_normal (Zpos mz) (L - 52) loc_Exact) as (m & e & -> & Hm & He & Hv);
    try lia.
  rewrite HLz in He, Hv. replace (52 - 52) with 0 in * by lia.
  unfold Nat.iter in Hv. cbn [Z.to_nat nat_rect shr_record_of_loc shr_m loc_of_shr_record round_nearest_even] in Hv.
  assert (e = L - 52) as ->.
  { destruct (Z.eq_dec e (L - 52)) as [|N]; [assumption|].
    replace (e - (L - 52 + 0)) with 1 in Hv by lia. change (2 ^ 1) with 2 in Hv. lia. }
  replace (L - 52 - (L - 52 + 0)) with 0 in Hv by lia. change (2 ^ 0) with 1 in Hv.
  exists m, (L - 52). cbn [F64.finite_or_overflow].
  repeat split; try lia.
  rewrite Z.mul_1_r in Hv. rewrite Hv, Hmz. f_equal. f_equal. lia.
Qed.

Lemma div_core_int n c : 0 < c -> c <= n -> n < 2 ^ 53 ->
  let s := 53 - (Z.log2 n - Z.log2 c) in
  exists l, SFdiv_core_binary 53 1024 n 0 c 0 = (n * 2 ^ s / c, - s, l).
Proof.
  intros Hc Hcn Hn s.
  assert (Z.log2 c <= Z.log2 n) by (apply Z.log2_le_mono; lia).
  assert (0 <= Z.log2 c) by apply Z.log2_nonneg.
  assert (Z.log2 n < 53) by (apply log2_lt; lia).
  unfold SFdiv_core_binary.
  rewrite !Zdigits2_log2 by lia.
  rewrite fexp_normal by lia.
  replace (Z.min (Z.log2 n + 1 + 0 - (Z.log2 c + 1 + 0) - 53) (0 - 0)) with (- s) by (unfold s; lia).
  replace (0 - 0 - - s) with s by lia.
  assert (0 < s) as Hs by (unfold s; lia).
  destruct s as [|p|p] eqn:Es; try lia.
  rewrite Z.shiftl_mul_pow2 by lia.
  unfold Z.div. destruct (Z.div_eucl (n * 2 ^ Z.pos p) c) as [q r].
  eexists. reflexivity.
Qed.


(** The arithmetic behind the bounds on the step: [Q] is the quotient cut
    to 53 bits, [R] its rounding, [a], [b], [c] and [P] are powers of two. *)
Lemma step_bounds_arith a b c P Q R q n cap :
  0 < a -> 0 < b -> 0 < c -> 0 < P -> 0 < cap ->
  Q <= R <= Q + 1 -> P <= Q -> a * Q <= q -> c <= Q * a -> cap * q <= n * c ->
  c * b <= R * a * b /\
  cap * (R * a * b) * P <= n * (c * b) * (P + 1).
Proof.
  intros Ha Hb Hc HP Hcap HR HPQ Hq HcQ Hn.
  assert (Q * a <= R * a) as H1 by (apply Z.mul_le_mono_nonneg_r; lia).
  assert (R * a <= Q * a + a) as H2 by nia.
  assert (a * P <= a * Q) as H3 by (apply Z.mul_le_mono_nonneg_l; lia).
  split.
  - apply Z.mul_le_mono_nonneg_r; lia.
  - assert (R * a * P <= q * (P + 1)) as Hup.
    { apply Z.le_trans with ((Q * a + a) * P).
      - apply Z.mul_le_mono_nonneg_r; lia.
      - nia. }
    assert (0 <= q) by nia.
    apply Z.le_trans with (q * (P + 1) * (cap * b)).
    + replace (cap * (R * a * b) * P) with (R * a * P * (cap * b)) by ring.
      apply Z.mul_le_mono_nonneg_r; nia.
    + replace (q * (P + 1) * (cap * b)) with (cap * q * ((P + 1) * b)) by ring.
      replace (n * (c * b) * (P + 1)) with (n * c * ((P + 1) * b)) by ring.
      apply Z.mul_le_mono_nonneg_r; nia.
Qed.

(** The step [n / cap] for [1 <= cap <= n < 2^53]: a normal number, at
    least 1 and at most [(n / cap) * (1 + 2^-52)]. *)
Lemma int_truediv_bounds n cap : 1 <= cap <= n -> n < 2 ^ 53 ->
  exists ms es,
    F64.int_truediv n cap = Ok (S754_finite false ms es) /\
    2 ^ 52 <= Zpos ms < 2 ^ 53 /\ -52 <= es <= 1 /\
    2 ^ frac_bits <= Zpos ms * 2 ^ (es + frac_bits) /\
    cap * (Zpos ms * 2 ^ (es + frac_bits)) * 2 ^ 52 <= n * 2 ^ frac_bits * (2 ^ 52 + 1).
Proof.
  intros Hc Hn.
  assert (Z.log2 cap <= Z.log2 n) as HLL by (apply Z.log2_le_mono; lia).
  assert (0 <= Z.log2 cap) as HL0 by apply Z.log2_nonneg.
  assert (Z.log2 n < 53) as HL53 by (apply log2_lt; lia).
  pose proof (log2_bounds n ltac:(lia)) as Bn.
  pose proof (log2_bounds cap ltac:(lia)) as Bc.
  destruct (div_core_int n cap) as [l Hcore]; try lia.
  set (s := 53 - (Z.log2 n - Z.log2 cap)) in *.
  assert (1 <= s <= 53) as Hs by (unfold s; lia).
  set (q := n * 2 ^ s / cap) in *.
  assert (0 < 2 ^ s) as Hps by (apply Z.pow_pos_nonneg; lia).
  (* the quotient has 53 or 54 bits *)
  assert (2 ^ 52 * cap <= n * 2 ^ s) as Hq1.
  { apply Z.le_trans with (2 ^ 52 * 2 ^ (Z.log2 cap + 1)); [nia|].
    rewrite <- Z.pow_add_r by lia.
    replace (52 + (Z.log2 cap + 1)) with (Z.log2 n + s) by (unfold s; lia).
    rewrite Z.pow_add_r by lia. nia. }
  assert (n * 2 ^ s < 2 ^ 54 * cap) as Hq2.
  { apply Z.lt_le_trans with (2 ^ (Z.log2 n + 1) * 2 ^ s); [nia|].
    rewrite <- Z.pow_add_r by lia.
    replace (Z.log2 n + 1 + s) with (54 + Z.log2 cap) by (unfold s; lia).
    rewrite Z.pow_add_r by lia. nia. }
  assert (2 ^ 52 <= q) as Hqlo by (apply Z.div_le_lower_bound; lia).
  assert (q < 2 ^ 54) as Hqhi by (apply Z.div_lt_upper_bound; lia).
  assert (2 ^ s <= q) as Hqs by (apply Z.div_le_lower_bound; nia).
  assert (cap * q <= n * 2 ^ s) as Hqc by (apply Z.mul_div_le; lia).
  assert (52 <= Z.log2 q) as HLq by (apply log2_ge; lia).
  assert (Z.log2 q < 54) as HLq' by (apply log2_lt; lia).
  destruct n as [|pn|pn]; try lia. destruct cap as [|pc|pc]; try lia.
  unfold F64.int_truediv, F64.prec, F64.emax.
  change (Z.abs (Z.pos pn)) with (Z.pos pn). change (Z.abs (Z.pos pc)) with (Z.pos pc).
  rewrite Hcore.
  change (xorb (Z.pos pn <? 0) (Z.pos pc <? 0)) with false.
  destruct (binary_round_aux_normal q (- s) l) as (m & e & -> & Hm & He & Hv); try lia.
  set (k := Z.log2 q - 52) in *.
  assert (0 <= k <= 1) as Hk by (unfold k; lia).
  set (mrs := Nat.iter (Z.to_nat k) shr_1 (shr_record_of_loc q l)) in *.
  assert (shr_m mrs = q / 2 ^ k) as HQ.
  { unfold mrs. rewrite iter_shr_m; rewrite shr_m_of_loc; try lia.
    rewrite Z2Nat.id by lia. reflexivity. }
  set (R := round_nearest_even (shr_m mrs) (loc_of_shr_record mrs)) in *.
  assert (R = shr_m mrs \/ R = shr_m mrs + 1) as HR by apply round_nearest_even_cases.
  pose proof (shifted_mantissa_range q ltac:(lia) HLq) as HQr. fold k in HQr.
  rewrite <- HQ in HQr.
  set (Q := shr_m mrs) in *.
  assert (0 < 2 ^ k) as Hpk by (apply Z.pow_pos_nonneg; lia).
  pose proof (Z.mul_div_le q (2 ^ k) Hpk) as HQq. rewrite <- HQ in HQq.
  assert (2 ^ s <= Q * 2 ^ k) as HQs.
  { rewrite HQ.
    destruct (Z.eq_dec k 0) as [-> | Nk].
    - change (2 ^ 0) with 1. rewrite Z.div_1_r. lia.
    - replace k with 1 by lia. change (2 ^ 1) with 2.
      assert (s = Z.succ (s - 1)) as Es by lia. rewrite Es in Hqs |- *.
      rewrite Z.pow_succ_r in * by lia.
      pose proof (Z.div_le_lower_bound q 2 (2 ^ (s - 1)) ltac:(lia) Hqs). lia. }
  set (j := e - (- s + k)) in *.
  assert (0 <= j <= 1) as Hj by (unfold j; lia).
  assert (0 < 2 ^ j) as Hpj by (apply Z.pow_pos_nonneg; lia).
  (* scaled value *)
  assert (Z.pos m * 2 ^ (e + frac_bits) = R * 2 ^ k * 2 ^ (frac_bits - s)) as Hsig.
  { rewrite <- Hv. replace (e + frac_bits) with (j + k + (frac_bits - s)) by (unfold j, frac_bits; lia).
    rewrite !Z.pow_add_r by (unfold frac_bits; lia). lia. }
  assert (0 < 2 ^ (frac_bits - s)) as HpKs by (apply Z.pow_pos_nonneg; unfold frac_bits; lia).
  assert (2 ^ frac_bits = 2 ^ s * 2 ^ (frac_bits - s)) as EK by (apply pow2_split; unfold frac_bits; lia).
  exists m, e. cbn [F64.finite_or_overflow].
  split; [reflexivity|]. split; [lia|].
  assert (-52 <= e) as He52.
  { destruct (Z.eq_dec k 0) as [Ek | Nk].
    - assert (s <= 52).
      { destruct (Z.eq_dec s 53) as [E53|]; [|lia]. exfalso.
        assert (Z.log2 q = 52) as E52 by (unfold k in Ek; lia).
        pose proof (log2_bounds q ltac:(lia)) as Bq. rewrite E52 in Bq.
        rewrite E53 in Hqs. change (52 + 1) with 53 in Bq. lia. }
      lia.
    - lia. }
  split; [lia|].
  rewrite Hsig, EK.
  apply (step_bounds_arith (2 ^ k) (2 ^ (frac_bits - s)) (2 ^ s) (2 ^ 52) Q R q); lia.
Qed.

Lemma rne_at_scale U X c : 0 < U -> 0 < c ->
  rne_at (U * c) (X * c) = rne_at U X * c.
Proof.
  intros HU Hc. unfold rne_at.
  rewrite Z.div_mul_cancel_r, Z.mul_mod_distr_r by lia.
  replace (U * c <? 2 * (X mod U * c)) with (U <? 2 * (X mod U)).
  2:{ destruct (Z.ltb_spec U (2 * (X mod U))); symmetry; [apply Z.ltb_lt | apply Z.ltb_ge]; nia. }
  replace (U * c =? 2 * (X mod U * c)) with (U =? 2 * (X mod U)).
  2:{ destruct (Z.eqb_spec U (2 * (X mod U))); symmetry; [apply Z.eqb_eq | apply Z.eqb_neq]; nia. }
  lia.
Qed.

Lemma to_int_scaled m e : - frac_bits <= e ->
  F64.to_int (S754_finite false m e) = Ok (Zpos m * 2 ^ (e + frac_bits) / 2 ^ frac_bits).
Proof.
  intros He. unfold F64.to_int. cbn [cond_Zopp]. f_equal.
  destruct e as [|p|p].
  - change (2 ^ 0) with 1. rewrite Z.add_0_l, Z.div_mul, Z.mul_1_r; [reflexivity|].
    unfold frac_bits; lia.
  - rewrite Z.pow_add_r by (unfold frac_bits; lia). rewrite Z.mul_assoc, Z.div_mul; [reflexivity|].
    unfold frac_bits; lia.
  - assert (2 ^ frac_bits = 2 ^ Z.pos p * 2 ^ (Z.neg p + frac_bits)) as E.
    { rewrite <- Z.pow_add_r by lia. f_equal. lia. }
    rewrite E. rewrite Z.div_mul_cancel_r; [reflexivity | |];
      apply Z.pow_nonzero; lia.
Qed.

(** [int(i * step)] is the floor of the product rounded to nearest even. *)
Lemma boundary_rnd ms es i :
  2 ^ 52 <= Zpos ms < 2 ^ 53 -> -52 <= es <= 1 -> 1 <= i < 2 ^ 53 ->
  boundary (S754_finite false ms es) i =
  Ok (rnd (i * (Zpos ms * 2 ^ (es + frac_bits))) / 2 ^ frac_bits).
Proof.
  intros Hms Hes Hi.
  destruct (of_int_exact i Hi) as (mi & ei & Hof & Hmi & Hei & Hval).
  unfold boundary, F64.int_mul. rewrite Hof. cbn [bind].
  unfold F64.mul, SFmul, F64.prec, F64.emax. cbn [xorb].
  rewrite Pos2Z.inj_mul.
  set (M := Z.pos mi * Z.pos ms). set (E := ei + es).
  assert (2 ^ 104 <= M < 2 ^ 106) as HM by (unfold M; nia).
  assert (104 <= Z.log2 M) as HL1 by (apply log2_ge; lia).
  assert (Z.log2 M < 106) as HL2 by (apply log2_lt; lia).
  destruct (binary_round_aux_normal M E loc_Exact) as (m & e & -> & Hm & He & Hv);
    try (unfold E; lia).
  set (k := Z.log2 M - 52) in *.
  rewrite to_int_scaled by (unfold frac_bits, E in *; lia).
  f_equal. f_equal.
  (* the rounded mantissa is [rne_at] on the product *)
  assert (exists k', Z.to_nat k = S k') as [k' Ek'] by (exists (Z.to_nat (k - 1)); lia).
  cbn [shr_record_of_loc] in Hv.
  pose proof (round_shifted_exact k' M ltac:(lia)) as HR. cbv zeta in HR.
  rewrite <- Ek', Z2Nat.id in HR by lia.
  assert (0 < 2 ^ k) as Hpk by (apply Z.pow_pos_nonneg; lia).
  assert (0 <= E + frac_bits) as HEK by (unfold E, frac_bits; lia).
  assert (0 < 2 ^ (E + frac_bits)) as HpEK by (apply Z.pow_pos_nonneg; lia).
  assert (i * (Z.pos ms * 2 ^ (es + frac_bits)) = M * 2 ^ (E + frac_bits)) as EX.
  { unfold M. rewrite Hval.
    replace (es + frac_bits) with (- ei + (E + frac_bits)) by (unfold E; lia).
    rewrite Z.pow_add_r by lia. lia. }
  rewrite EX. unfold rnd.
  rewrite Z.log2_mul_pow2 by lia.
  replace (E + frac_bits + Z.log2 M - 52) with (k + (E + frac_bits)) by (unfold k; lia).
  rewrite (Z.pow_add_r 2 k (E + frac_bits)) by lia.
  rewrite rne_at_scale by lia. rewrite <- HR, <- Hv.
  replace (e + frac_bits) with ((e - (E + k)) + k + (E + frac_bits)) by lia.
  rewrite (Z.pow_add_r 2 (e - (E + k) + k) (E + frac_bits)) by lia.
  rewrite (Z.pow_add_r 2 (e - (E + k)) k) by lia. lia.
Qed.

Lemma boundary_zero ms es : boundary (S754_finite false ms es) 0 = Ok 0.
Proof. reflexivity. Qed.

(** ** The buckets of [downsample] *)

(** The boundaries computed for [n] values and [cap] buckets. *)
Lemma boundaries_ok n cap : 1 <= cap < n -> n <= max_len ->
  exists step (b : Z -> Z),
    F64.int_truediv n cap = Ok step /\
    (forall i, 0 <= i <= cap -> boundary step i = Ok (b i)) /\
    b 0 = 0 /\
    (forall i, 0 <= i < cap -> b i < b (i + 1)) /\
    b cap <= n.
Proof.
  unfold max_len. intros Hc Hn.
  destruct (int_truediv_bounds n cap) as (ms & es & Hdiv & Hms & Hes & Hlo & Hhi); try lia.
  set (sigma := Z.pos ms * 2 ^ (es + frac_bits)) in *.
  set (T := 2 ^ frac_bits) in *.
  assert (0 < T) as HT by (apply Z.pow_pos_nonneg; unfold frac_bits; lia).
  assert (2 * (cap * sigma) <= 2 * n * T + T) as Hcs by nia.
  assert (2 ^ (frac_bits + 52) = T * 2 ^ 52) as ET by (unfold T; apply Z.pow_add_r; unfold frac_bits; lia).
  assert (forall i, 1 <= i <= cap -> T <= i * sigma < 2 ^ (frac_bits + 52)) as Hrange.
  { intros i Hi. split; [nia|]. rewrite ET.
    apply Z.le_lt_trans with (cap * sigma); nia. }
  exists (S754_finite false ms es),
         (fun i => if i =? 0 then 0 else rnd (i * sigma) / T).
  split; [exact Hdiv|]. split; [|split; [reflexivity|split]].
  - intros i Hi. destruct (Z.eqb_spec i 0) as [-> | Ni].
    + apply boundary_zero.
    + apply boundary_rnd; lia.
  - intros i Hi. replace (i + 1 =? 0) with false by (symmetry; apply Z.eqb_neq; lia).
    destruct (Z.eqb_spec i 0) as [-> | Ni].
    + pose proof (Hrange 1 ltac:(lia)) as H1. rewrite Z.mul_1_l in H1.
      replace ((0 + 1) * sigma) with sigma by lia.
      pose proof (rnd_binade sigma (Z.log2 sigma) ltac:(apply log2_ge; unfold T, frac_bits in *; lia)
                    (log2_bounds sigma ltac:(lia))) as [Hb _].
      assert (frac_bits <= Z.log2 sigma) by (apply log2_ge; unfold T, frac_bits in *; lia).
      assert (T <= 2 ^ Z.log2 sigma) by (apply pow2_le; unfold frac_bits in *; lia).
      assert (1 <= rnd sigma / T) by (apply Z.div_le_lower_bound; lia). lia.
    + pose proof (Hrange i ltac:(lia)). pose proof (Hrange (i + 1) ltac:(lia)).
      pose proof (rnd_floor_step frac_bits (i * sigma) ((i + 1) * sigma) ltac:(unfold frac_bits; lia)).
      fold T in H1. lia.
  - replace (cap =? 0) with false by (symmetry; apply Z.eqb_neq; lia).
    pose proof (Hrange cap ltac:(lia)).
    apply (rnd_upper frac_bits); fold T; try lia. unfold frac_bits; lia.
Qed.

Lemma boundaries_mono (b : Z -> Z) cap :
  (forall i, 0 <= i < cap -> b i < b (i + 1)) ->
  forall i j, 0 <= i <= j -> j <= cap -> b i <= b j.
Proof.
  intros Hs i j Hij Hj.
  replace j with (i + Z.of_nat (Z.to_nat (j - i))) in * by lia.
  induction (Z.to_nat (j - i)) as [|d IH].
  - rewrite Z.add_0_r. lia.
  - rewrite Nat2Z.inj_succ in *.
    specialize (IH ltac:(lia) ltac:(lia)).
    specialize (Hs (i + Z.of_nat d) ltac:(lia)).
    replace (i + Z.succ (Z.of_nat d)) with (i + Z.of_nat d + 1) by lia. lia.
Qed.

Lemma mapM_ok {A B} (f : A -> result B) (g : A -> B) l :
  (forall a, In a l -> f a = Ok (g a)) -> mapM f l = Ok (map g l).
Proof.
  induction l as [|a l IH]; intros H; cbn [mapM map].
  - reflexivity.
  - rewrite (H a (or_introl eq_refl)). cbn [bind].
    rewrite IH by (intros; apply H; right; assumption). reflexivity.
Qed.

Lemma in_range_from i s len : In i (range_from s len) <-> s <= i < s + Z.of_nat len.
Proof.
  revert s. induction len as [|len IH]; intros s; cbn [range_from In].
  - lia.
  - rewrite IH. lia.
Qed.

Lemma in_py_range i n : In i (py_range n) <-> 0 <= i < n.
Proof. unfold py_range, py_range2. rewrite in_range_from. lia. Qed.

Lemma length_range_from s len : List.length (range_from s len) = len.
Proof. revert s. induction len; intros; cbn [range_from List.length]; auto. Qed.

Lemma fold_left_add_bounds lo hi l a :
  Forall (fun v => lo <= v <= hi) l ->
  a + lo * Z.of_nat (List.length l) <= fold_left Z.add l a <= a + hi * Z.of_nat (List.length l).
Proof.
  intros H. revert a. induction H as [|v l Hv _ IH]; intros a; cbn [fold_left List.length].
  - lia.
  - specialize (IH (a + v)). rewrite Nat2Z.inj_succ. lia.
Qed.

Lemma py_slice_inner {A} (l : list A) s e : 0 <= s <= e -> e <= py_len l ->
  py_slice l s e = firstn (Z.to_nat (e - s)) (skipn (Z.to_nat s) l) /\
  py_len (py_slice l s e) = e - s.
Proof.
  intros Hs He. unfold py_slice, clamp_index.
  replace (s <? 0) with false by (symmetry; apply Z.ltb_ge; lia).
  replace (e <? 0) with false by (symmetry; apply Z.ltb_ge; lia).
  rewrite !Z.min_l by lia. split; [reflexivity|].
  unfold py_len in *. rewrite length_firstn, length_skipn. lia.
Qed.

Lemma Forall_firstn_skipn {A} (P : A -> Prop) (l : list A) n :
  Forall P l -> Forall P (firstn n l) /\ Forall P (skipn n l).
Proof.
  intros H. rewrite <- (firstn_skipn n l) in H.
  apply Forall_app in H. exact H.
Qed.

Lemma Forall_py_slice {A} (P : A -> Prop) (l : list A) s e :
  Forall P l -> Forall P (py_slice l s e).
Proof.
  intros H. unfold py_slice.
  apply Forall_firstn_skipn. apply Forall_firstn_skipn. exact H.
Qed.

(** The point of a non-empty bucket inside the list lies between any
    bounds of the values. *)
Lemma bucket_average_bounds lo hi values s e :
  Forall (fun v => lo <= v <= hi) values ->
  0 <= s < e -> e <= py_len values ->
  lo <= py_sum (py_slice values s e) / (e - s) <= hi.
Proof.
  intros H Hs He.
  pose proof (fold_left_add_bounds lo hi (py_slice values s e) 0
                (Forall_py_slice _ values s e H)) as B.
  destruct (py_slice_inner values s e ltac:(lia) He) as [_ HL].
  unfold py_len in HL. rewrite HL in B. fold (py_sum (py_slice values s e)) in B.
  split.
  - apply Z.div_le_lower_bound; lia.
  - apply Z.div_le_upper_bound; lia.
Qed.

(** With at most [max_len] values, [downsample] goes through every bucket:
    the buckets are non-empty, adjacent, inside the list, and no iteration
    divides by zero. *)
Lemma downsample_buckets values cap :
  1 <= cap < py_len values -> py_len values <= max_len ->
  exists b : Z -> Z,
    b 0 = 0 /\
    (forall i, 0 <= i < cap -> b i < b (i + 1)) /\
    b cap <= py_len values /\
    (forall i, 0 <= i < cap -> bucket (py_len values) cap i = Ok (b i, b (i + 1))) /\
    downsample values cap =
    Ok (map (fun i => py_sum (py_slice values (b i) (b (i + 1))) / (b (i + 1) - b i))
            (py_range cap)).
Proof.
  intros Hc Hn.
  destruct (boundaries_ok (py_len values) cap Hc Hn) as (step & b & Hdiv & Hb & Hb0 & Hstrict & Hcap).
  exists b. repeat split; try assumption.
  - intros i Hi. unfold bucket. rewrite Hdiv. cbn [bind].
    rewrite !Hb by lia. reflexivity.
  - unfold downsample.
    replace (py_len values <=? cap) with false by (symmetry; apply Z.leb_gt; lia).
    rewrite Hdiv. cbn [bind]. apply mapM_ok.
    intros i Hi. apply in_py_range in Hi.
    unfold bucket_point. rewrite !Hb by lia. cbn [bind].
    unfold py_floordiv.
    specialize (Hstrict i Hi).
    replace (b (i + 1) - b i =? 0) with false by (symmetry; apply Z.eqb_neq; lia).
    reflexivity.
Qed.

(** ** Lists, ranges and indexing *)

Lemma py_getitem_inner {A} (l : list A) (d : A) i : 0 <= i < py_len l ->
  py_getitem l i = Ok (nth (Z.to_nat i) l d).
Proof.
  intros H. unfold py_getitem. cbv zeta.
  assert ((i <? 0) = false) as E0 by (apply Z.ltb_ge; lia).
  rewrite E0. cbv iota. rewrite E0.
  destruct (nth_error l (Z.to_nat i)) as [a|] eqn:E.
  - rewrite (nth_error_nth l (Z.to_nat i) d E). reflexivity.
  - apply nth_error_None in E. unfold py_len in H. lia.
Qed.

Lemma nth_range_from s len k : (k < len)%nat ->
  nth k (range_from s len) 0 = s + Z.of_nat k.
Proof.
  revert s k. induction len as [|len IH]; intros s k H; [lia|].
  destruct k as [|k]; cbn [range_from nth].
  - lia.
  - rewrite IH by lia. lia.
Qed.

Lemma py_len_map {A B} (f : A -> B) l : py_len (map f l) = py_len l.
Proof. unfold py_len. rewrite length_map. reflexivity. Qed.

Lemma py_len_range2 a b : a <= b -> py_len (py_range2 a b) = b - a.
Proof. intros H. unfold py_len, py_range2. rewrite length_range_from. lia. Qed.

Lemma mapM_inv {A B} (f : A -> result B) l r :
  mapM f l = Ok r -> Forall2 (fun a b => f a = Ok b) l r.
Proof.
  revert r. induction l as [|a l IH]; intros r H; cbn [mapM] in H.
  - injection H as <-. constructor.
  - destruct (f a) as [b|e] eqn:Ea; cbn [bind] in H; [|discriminate].
    destruct (mapM f l) as [bs|e] eqn:El; cbn [bind] in H; [|discriminate].
    injection H as <-. constructor; [exact Ea | apply IH; reflexivity].
Qed.

(** ** The columns of a loaded CSV *)

Lemma key_eqb_eq a b : key_eqb a b = true <-> a = b.
Proof.
  destruct a as [x|], b as [y|]; cbn [key_eqb]; try (split; congruence).
  rewrite String.eqb_eq. split; congruence.
Qed.

Lemma dict_get_set {V} (d : dict V) k v j :
  dict_get (dict_set d k v) j = if key_eqb j k then Ok v else dict_get d j.
Proof.
  induction d as [|[k' v'] d IH]; cbn [dict_set dict_get].
  - destruct (key_eqb j k); reflexivity.
  - destruct (key_eqb k k') eqn:Ek; cbn [dict_get].
    + apply key_eqb_eq in Ek. subst k'. destruct (key_eqb j k); reflexivity.
    + destruct (key_eqb j k') eqn:Ej.
      * apply key_eqb_eq in Ej. subst k'.
        destruct (key_eqb j k) eqn:Ejk; [|reflexivity].
        apply key_eqb_eq in Ejk. subst k.
        rewrite (proj2 (key_eqb_eq j j) eq_refl) in Ek. discriminate.
      * exact IH.
Qed.

Lemma column_length parse_int rows k col :
  column parse_int rows k = Ok col -> py_len col = py_len rows.
Proof.
  unfold column. intros H. apply mapM_inv in H.
  unfold py_len. f_equal. symmetry. exact (Forall2_length H).
Qed.

Lemma load_columns_lengths parse_int rows keys cols cols' :
  (forall k c, dict_get cols k = Ok c -> py_len c = py_len rows) ->
  load_columns parse_int rows keys cols = Ok cols' ->
  forall k c, dict_get cols' k = Ok c -> py_len c = py_len rows.
Proof.
  revert cols. induction keys as [|k0 keys IH]; intros cols Hinv H; cbn [load_columns] in H.
  - injection H as <-. exact Hinv.
  - destruct (column parse_int rows k0) as [col|e] eqn:Ec; cbn [bind] in H; [|discriminate].
    apply (IH (dict_set cols k0 col)); [|exact H].
    intros k c. rewrite dict_get_set.
    destruct (key_eqb k k0).
    + intros E. injection E as <-. exact (column_length _ _ _ _ Ec).
    + apply Hinv.
Qed.

(** Every column that [load_csv] returns has one value per row: any two
    of them, the ticks among them, have the same length. *)
Lemma load_csv_same_length parse_int rows cols :
  load_csv parse_int rows = Ok cols ->
  forall k c, dict_get cols k = Ok c -> py_len c = py_len rows.
Proof.
  unfold load_csv. intros H.
  destruct (py_getitem rows 0) as [row0|e]; cbn [bind] in H; [|discriminate].
  apply (load_columns_lengths parse_int rows (map fst row0) [] cols); [|exact H].
  intros k c E. discriminate E.
Qed.

(** ** The lines of a chart *)

(** The directives of a chart follow the series one for one. *)
Lemma series_lines_inv (series : list (string * list Z)) lines :
  mapM (fun s : string * list Z =>
          y_down <- downsample (snd s) default_max_points ;;
          Ok (line_directive y_down)) series = Ok lines ->
  exists ys,
    Forall2 (fun s y => downsample (snd s) default_max_points = Ok y) series ys /\
    lines = map line_directive ys.
Proof.
  revert lines. induction series as [|s series IH]; intros lines H; cbn [mapM] in H.
  - injection H as <-. exists []. split; [constructor | reflexivity].
  - destruct (downsample (snd s) default_max_points) as [y|e] eqn:Ey; cbn [bind] in H;
      [|discriminate].
    destruct (mapM _ series) as [ls|e] eqn:El; cbn [bind] in H; [|discriminate].
    injection H as <-. destruct (IH ls eq_refl) as (ys & Hys & ->).
    exists (y :: ys). split; [constructor; assumption | reflexivity].
Qed.

Lemma xychart_inv title x_values series x_label y_label text :
  xychart title x_values series x_label y_label = Ok text ->
  exists x_down ys,
    downsample x_values default_max_points = Ok x_down /\
    Forall2 (fun s y => downsample (snd s) default_max_points = Ok y) series ys /\
    text = String.concat newline
             (chart_header title x_label x_down ++ map line_directive ys ++ ["```"%string]).
Proof.
  unfold xychart. intros H.
  destruct (downsample x_values default_max_points) as [x_down|e]; cbn [bind] in H;
    [|discriminate].
  destruct (mapM _ series) as [lines|e] eqn:El; cbn [bind] in H; [|discriminate].
  injection H as <-. destruct (series_lines_inv series lines El) as (ys & Hys & ->).
  exists x_down, ys. auto.
Qed.

Lemma composite_series_inv cols defs series :
  composite_series cols defs = Ok series ->
  Forall2 (fun d s => fst s = fst d /\ dict_get cols (Some (snd d)) = Ok (snd s)) defs series.
Proof.
  unfold composite_series. intros H. apply mapM_inv in H.
  induction H as [|d s defs series Hd _ IH]; constructor; [|exact IH].
  destruct (dict_get cols (Some (snd d))) as [v|e]; cbn [bind] in Hd; [|discriminate].
  injection Hd as <-. auto.
Qed.

Lemma composite_chart_inv cols ticks c text :
  composite_chart cols ticks c = Ok text ->
  exists x_down ys,
    downsample ticks default_max_points = Ok x_down /\
    Forall2 (fun d y => exists values,
               dict_get cols (Some (snd d)) = Ok values /\
               downsample values default_max_points = Ok y) (snd c) ys /\
    text = String.concat newline
             (chart_header (fst c) "tick" x_down ++ map line_directive ys ++ ["```"%string]).
Proof.
  unfold composite_chart. intros H.
  destruct (composite_series cols (snd c)) as [series|e] eqn:Es; cbn [bind] in H;
    [|discriminate].
  apply composite_series_inv in Es.
  apply xychart_inv in H. destruct H as (x_down & ys & Hx & Hys & ->).
  exists x_down, ys. split; [exact Hx|]. split; [|reflexivity].
  clear Hx. revert ys Hys.
  induction Es as [|d s defs series [_ Hd] _ IH]; intros ys Hys; inversion Hys; subst.
  - constructor.
  - constructor; [exists (snd s); auto | apply IH; assumption].
Qed.

(** ** Exceptions and the selection loop *)

(** No exception of the program belongs to a class of its own: the four
    names below are not names of [exn]. *)
Lemma no_custom_exception (e : exn) :
  exn_name e <> "EmptyInputError"%string /\
  exn_name e <> "UnknownMetricError"%string /\
  exn_name e <> "InvalidConfigurationError"%string /\
  exn_name e <> "InternalInvariantError"%string.
Proof. destruct e; repeat split; discriminate. Qed.

Lemma text_eqb_eq a b : text_eqb a b = true <-> a = b.
Proof.
  revert b. induction a as [|x a IH]; intros [|y b]; cbn [text_eqb];
    try (split; [discriminate | discriminate]); [tauto|].
  rewrite andb_true_iff, Z.eqb_eq, IH. split.
  - intros [-> ->]. reflexivity.
  - intros H. injection H as -> ->. auto.
Qed.

(** A key is found when its code points are those of a key of the
    catalog. *)
Lemma catalog_find_text_Some {V} (d : list (string * V)) k :
  (exists v, catalog_find_text d k = Some v) <->
  exists name v, In (name, v) d /\ k = code_points name.
Proof.
  induction d as [|[k' v'] d IH]; cbn [catalog_find_text].
  - split; [intros [v H]; discriminate H | intros (name & v & [] & _)].
  - destruct (text_eqb k (code_points k')) eqn:E.
    + apply text_eqb_eq in E. split; [|intros _; exists v'; reflexivity].
      intros _. exists k', v'. split; [left; reflexivity | exact E].
    + rewrite IH. split.
      * intros (name & v & Hin & ->). exists name, v. split; [right; exact Hin | reflexivity].
      * intros (name & v & [Heq | Hin] & ->).
        -- injection Heq as -> ->.
           rewrite (proj2 (text_eqb_eq _ _) eq_refl) in E. discriminate E.
        -- exists name, v. split; [exact Hin | reflexivity].
Qed.

Lemma render_selection_skips cols ticks keys out :
  render_selection cols ticks keys out
  = render_selection cols ticks (filter known_key keys) out.
Proof.
  unfold render_selection. revert out.
  induction keys as [|k keys IH]; intros out; [reflexivity|].
  cbn [filter]. unfold known_key at 1.
  destruct (catalog_find_text METRIC_GROUPS (py_strip k)) as [m|] eqn:E.
  - cbn [io_for]. rewrite E. unfold io_bind.
    destruct (render_metric cols ticks m out) as [out' [[]|e]]; [apply IH | reflexivity].
  - cbn [io_for]. rewrite E. unfold io_bind, io_ret. apply IH.
Qed.

(** ** The true division never overflows on list lengths *)

Lemma Zdigits2_nonneg m : 0 <= Zdigits2 m.
Proof. destruct m; simpl; lia. Qed.

Lemma Zdigits2_le_of_lt m x : 0 <= m < 2 ^ x -> 0 <= x -> Zdigits2 m <= x.
Proof.
  intros Hm Hx. destruct (Z.eq_dec m 0) as [-> | N]; [exact Hx|].
  rewrite Zdigits2_log2 by lia.
  pose proof (log2_lt m x ltac:(lia) ltac:(lia)). lia.
Qed.

Lemma Zdigits2_lt_pow m : 0 <= m -> m < 2 ^ Zdigits2 m.
Proof.
  intros Hm. destruct (Z.eq_dec m 0) as [-> | N]; [reflexivity|].
  rewrite Zdigits2_log2 by lia. apply log2_bounds. lia.
Qed.

Lemma Zdigits2_div_pow2 m n : 0 <= m -> 0 <= n ->
  0 <= m / 2 ^ n /\ Zdigits2 (m / 2 ^ n) <= Z.max (Zdigits2 m - n) 0.
Proof.
  intros Hm Hn.
  assert (0 < 2 ^ n) as Hp by (apply Z.pow_pos_nonneg; lia).
  assert (0 <= m / 2 ^ n) as H0 by (apply Z.div_pos; lia).
  split; [exact H0|].
  pose proof (Zdigits2_lt_pow m Hm) as Hd.
  pose proof (Zdigits2_nonneg m) as Hd0.
  destruct (Z.le_gt_cases n (Zdigits2 m)) as [Le | Gt].
  - rewrite Z.max_l by lia. apply Zdigits2_le_of_lt; [|lia].
    split; [exact H0|]. apply Z.div_lt_upper_bound; [lia|].
    rewrite <- Z.pow_add_r by lia. replace (n + (Zdigits2 m - n)) with (Zdigits2 m) by lia.
    exact Hd.
  - rewrite Z.max_r by lia.
    assert (2 ^ Zdigits2 m <= 2 ^ n) by (apply pow2_le; lia).
    rewrite Z.div_small by lia. reflexivity.
Qed.

Lemma shr_any mrs e n :
  shr mrs e n = (Nat.iter (Z.to_nat n) shr_1 mrs, e + Z.max n 0).
Proof.
  destruct n as [|p|p]; cbn [shr].
  - rewrite Z.add_0_r. reflexivity.
  - rewrite iter_pos_nat. reflexivity.
  - rewrite Z.add_0_r. reflexivity.
Qed.

(** [binary_round_aux] on a mantissa below [2^1023 / 2^e], with [e <= 0],
    does not reach the infinities. *)
Lemma binary_round_aux_not_infinity sx q e l s :
  0 <= q -> e <= 0 -> Zdigits2 q + e <= 1023 ->
  binary_round_aux 53 1024 sx q e l <> S754_infinity s.
Proof.
  intros Hq He Hd.
  unfold binary_round_aux, shr_fexp. rewrite shr_any.
  set (n1 := fexp 53 1024 (Zdigits2 q + e) - e).
  set (mrs := Nat.iter (Z.to_nat n1) shr_1 (shr_record_of_loc q l)).
  set (m1 := round_nearest_even (shr_m mrs) (loc_of_shr_record mrs)).
  rewrite shr_any.
  set (e1 := e + Z.max n1 0).
  set (n2 := fexp 53 1024 (Zdigits2 m1 + e1) - e1).
  cbn [shr_record_of_loc].
  destruct (shr_m (Nat.iter (Z.to_nat n2) shr_1 (Build_shr_record m1 false false)));
    try discriminate.
  assert (e1 + Z.max n2 0 <= 971) as Hle.
  { assert (shr_m mrs = q / 2 ^ Z.max n1 0) as Hm0.
    { unfold mrs. rewrite iter_shr_m; rewrite shr_m_of_loc; try lia.
      f_equal. f_equal. lia. }
    destruct (Zdigits2_div_pow2 q (Z.max n1 0) Hq ltac:(lia)) as [H0 Hd0].
    rewrite <- Hm0 in H0, Hd0.
    pose proof (Zdigits2_lt_pow (shr_m mrs) H0) as Hlt.
    pose proof (Zdigits2_nonneg (shr_m mrs)) as Hn0.
    assert (Zdigits2 m1 <= Zdigits2 (shr_m mrs) + 1) as Hd1.
    { apply Zdigits2_le_of_lt; [|lia].
      rewrite Z.pow_add_r by lia. change (2 ^ 1) with 2.
      destruct (round_nearest_even_cases (shr_m mrs) (loc_of_shr_record mrs)) as [E | E];
        fold m1 in E; rewrite E; lia. }
    unfold n2, e1, n1, fexp, emin in *. lia. }
  replace (e1 + Z.max n2 0 <=? 1024 - 53) with true by (symmetry; apply Z.leb_le; lia).
  discriminate.
Qed.

(** [len / cap] for a negative [cap] is a float: the division does not
    raise. *)
Lemma int_truediv_negative n cap : 0 <= n < 2 ^ 1023 -> cap < 0 ->
  exists f, F64.int_truediv n cap = Ok f.
Proof.
  intros Hn Hc. unfold F64.int_truediv.
  destruct cap as [|pc|pc]; try lia.
  destruct n as [|pn|pn]; try lia; [eexists; reflexivity|].
  change (Z.abs (Z.pos pn)) with (Z.pos pn). change (Z.abs (Z.neg pc)) with (Z.pos pc).
  destruct (SFdiv_core_binary F64.prec F64.emax (Z.pos pn) 0 (Z.pos pc) 0) as [[q e] l] eqn:E.
  assert (0 <= q /\ e <= 0 /\ Zdigits2 q + e <= 1023) as (Hq & He & Hd).
  { unfold SFdiv_core_binary in E.
    set (e' := Z.min (fexp F64.prec F64.emax
                        (Zdigits2 (Z.pos pn) + 0 - (Zdigits2 (Z.pos pc) + 0))) (0 - 0)) in E.
    assert (e' <= 0) as He' by (unfold e'; lia).
    assert (exists m', 0 <= m' /\ Zdigits2 m' + e' <= 1023 /\
                       Z.div_eucl m' (Z.pos pc) = (q, snd (Z.div_eucl m' (Z.pos pc))) /\ e = e')
      as (m' & Hm' & Hdm & Hdiv & ->).
    { destruct (0 - 0 - e') as [|p|p] eqn:Es; try lia.
      - destruct (Z.div_eucl (Z.pos pn) (Z.pos pc)) as [q0 r0] eqn:Ed.
        injection E as <- <- _. exists (Z.pos pn).
        rewrite Ed. repeat split; try lia.
        assert (Zdigits2 (Z.pos pn) <= 1023) by (apply Zdigits2_le_of_lt; lia). lia.
      - rewrite Z.shiftl_mul_pow2 in E by lia.
        destruct (Z.div_eucl (Z.pos pn * 2 ^ Z.pos p) (Z.pos pc)) as [q0 r0] eqn:Ed.
        injection E as <- <- _. exists (Z.pos pn * 2 ^ Z.pos p).
        rewrite Ed.
        assert (0 < 2 ^ Z.pos p) by (apply Z.pow_pos_nonneg; lia).
        repeat split; try lia.
        assert (Zdigits2 (Z.pos pn * 2 ^ Z.pos p) <= 1023 + Z.pos p); [|lia].
        apply Zdigits2_le_of_lt; [|lia]. split; [lia|].
        rewrite Z.pow_add_r by lia. nia. }
    assert (q = m' / Z.pos pc) as -> by (unfold Z.div; rewrite Hdiv; reflexivity).
    assert (0 <= m' / Z.pos pc) by (apply Z.div_pos; lia).
    split; [assumption|]. split; [assumption|].
    assert (Zdigits2 (m' / Z.pos pc) <= Zdigits2 m'); [|lia].
    apply Zdigits2_le_of_lt; [|apply Zdigits2_nonneg].
    split; [assumption|].
    apply Z.le_lt_trans with m'; [|apply Zdigits2_lt_pow; lia].
    apply Z.div_le_upper_bound; nia. }
  pose proof (fun s => binary_round_aux_not_infinity
                         (xorb (Z.pos pn <? 0) (Z.neg pc <? 0)) q e l s Hq He Hd) as Hinf.
  change F64.prec with 53. change F64.emax with 1024.
  destruct (binary_round_aux 53 1024 (xorb (Z.pos pn <? 0) (Z.neg pc <? 0)) q e l) as [| s0 | |];
    try (eexists; reflexivity).
  exfalso. exact (Hinf s0 eq_refl).
Qed.

(** ** Minimum, maximum and constant lists *)

Lemma fold_left_min_le l a :
  fold_left Z.min l a <= a /\ Forall (fun v => fold_left Z.min l a <= v) l.
Proof.
  revert a. induction l as [|x l IH]; intros a; cbn [fold_left].
  - split; [lia | constructor].
  - destruct (IH (Z.min a x)) as [H1 H2]. split; [lia|].
    constructor; [lia | exact H2].
Qed.

Lemma fold_left_max_ge l a :
  a <= fold_left Z.max l a /\ Forall (fun v => v <= fold_left Z.max l a) l.
Proof.
  revert a. induction l as [|x l IH]; intros a; cbn [fold_left].
  - split; [lia | constructor].
  - destruct (IH (Z.max a x)) as [H1 H2]. split; [lia|].
    constructor; [lia | exact H2].
Qed.

Lemma list_min_max_bounds l : Forall (fun v => list_min l <= v <= list_max l) l.
Proof.
  destruct l as [|x l]; [constructor|]. unfold list_min, list_max.
  destruct (fold_left_min_le l x) as [H1 H2].
  destruct (fold_left_max_ge l x) as [H3 H4].
  constructor; [lia|].
  rewrite Forall_forall in *. intros v Hv. specialize (H2 v Hv). specialize (H4 v Hv). lia.
Qed.

Lemma list_min_repeat v n : (0 < n)%nat -> list_min (repeat v n) = v.
Proof.
  destruct n as [|n]; [lia|]. intros _. cbn [repeat list_min].
  induction n as [|n IH]; cbn [repeat fold_left]; [reflexivity|].
  rewrite Z.min_id. exact IH.
Qed.

Lemma Forall_repeat {A} (P : A -> Prop) v n : P v -> Forall P (repeat v n).
Proof. intros H. induction n; cbn [repeat]; constructor; assumption. Qed.

Lemma py_len_slice {A} (l : list A) s e : 0 <= s <= e ->
  py_len (py_slice l s e) = Z.min e (py_len l) - Z.min s (py_len l).
Proof.
  intros H. unfold py_slice, clamp_index.
  replace (s <? 0) with false by (symmetry; apply Z.ltb_ge; lia).
  replace (e <? 0) with false by (symmetry; apply Z.ltb_ge; lia).
  unfold py_len. rewrite length_firstn, length_skipn. lia.
Qed.

(** The sum of a slice of a constant list. *)
Lemma py_sum_slice_repeat v n s e : 0 <= s <= e ->
  py_sum (py_slice (repeat v n) s e) = v * (Z.min e (Z.of_nat n) - Z.min s (Z.of_nat n)).
Proof.
  intros H.
  pose proof (fold_left_add_bounds v v (py_slice (repeat v n) s e) 0
                (Forall_py_slice _ _ s e (Forall_repeat (fun x => v <= x <= v) v n ltac:(cbv beta; lia))))
    as B.
  pose proof (py_len_slice (repeat v n) s e H) as L.
  unfold py_len in L. rewrite repeat_length in L. rewrite L in B.
  unfold py_sum. lia.
Qed.

(** The call of [downsample] on [2^53 - 1] ones, with 3 buckets. *)
Lemma downsample_huge_ones (n : nat) :
  Z.of_nat n = 9007199254740991 ->
  downsample (repeat 1 n) 3 = Ok [1; 1; 0].
Proof.
  intros Hn. unfold downsample, py_len. rewrite repeat_length, Hn.
  change (9007199254740991 <=? 3) with false. cbv iota.
  assert (F64.int_truediv 9007199254740991 3
          = Ok (S754_finite false 6004799503160661 (-1))) as -> by (vm_compute; reflexivity).
  cbn [bind]. change (py_range 3) with [0; 1; 2].
  set (step := S754_finite false 6004799503160661 (-1)).
  assert (boundary step 0 = Ok 0) as B0 by (vm_compute; reflexivity).
  assert (boundary step 1 = Ok 3002399751580330) as B1 by (vm_compute; reflexivity).
  assert (boundary step 2 = Ok 6004799503160661) as B2 by (vm_compute; reflexivity).
  assert (boundary step 3 = Ok 9007199254740992) as B3 by (vm_compute; reflexivity).
  cbn [mapM]. unfold bucket_point.
  change (0 + 1) with 1. change (1 + 1) with 2. change (2 + 1) with 3.
  rewrite B0, B1, B2, B3. cbn [bind].
  rewrite !py_sum_slice_repeat by lia. rewrite Hn.
  vm_compute. reflexivity.
Qed.

(** * The claims *)

(** ** C1: Bucket coverage *)

(** C1 fails on the code: with 123 values and the default 30 buckets the
    quotient [123 / 30] is rounded down to binary64, [30 * step] falls
    just below 123 and truncates to 122.  The last bucket is [118, 122)
    where the specification has [118, 123): the last value is dropped, and
    the last point is 0 where the specification has 600. *)
Theorem downsample_drops_last_value :
  let values := (repeat 0 122 ++ [3000])%list in
  py_len values = 123 /\
  bucket 123 30 29 = Ok (118, 122) /\
  (exact_boundary 123 30 29, exact_boundary 123 30 30) = (118, 123) /\
  downsample values 30 = Ok (repeat 0 30) /\
  exact_downsample values 30 = (repeat 0 29 ++ [600])%list.
Proof. vm_compute. repeat split; reflexivity. Qed.

(** ** C2: Identity below the cap *)

(** C2 (identity below the cap): for every sequence [values] and every
    [cap] with [len(values) <= cap], [downsample(values, cap)] returns
    [values] unchanged. *)
Theorem downsample_identity (values : list Z) (cap : Z) :
  py_len values <= cap -> downsample values cap = Ok values.
Proof.
  intros H. unfold downsample.
  replace (py_len values <=? cap) with true by (symmetry; apply Z.leb_le; exact H).
  reflexivity.
Qed.

Lemma downsample_identity_witness :
  py_len [4; 8; 15] <= 30 /\ downsample [4; 8; 15] 30 = Ok [4; 8; 15].
Proof.
  split; [unfold py_len; simpl; lia | apply downsample_identity; unfold py_len; simpl; lia].
Defined.

(** ** C3: Non-empty buckets *)

(** C3, for the lengths of real lists: with [1 <= cap < len(values)] and
    at most [2^51] values, every bucket computed by [downsample] is
    non-empty and lies inside the list, so that no iteration divides by
    zero and the call returns. *)
Theorem buckets_nonempty (values : list Z) (cap : Z) :
  1 <= cap < py_len values -> py_len values <= max_len ->
  (forall i, 0 <= i < cap ->
     exists s e, bucket (py_len values) cap i = Ok (s, e) /\
                 0 <= s < e /\ e <= py_len values) /\
  (exists points, downsample values cap = Ok points /\ py_len points = cap).
Proof.
  intros Hc Hn.
  destruct (downsample_buckets values cap Hc Hn) as (b & Hb0 & Hstrict & Hcap & Hbucket & Hdown).
  pose proof (boundaries_mono b cap Hstrict) as Hmono.
  split.
  - intros i Hi. exists (b i), (b (i + 1)). split; [apply Hbucket; exact Hi|].
    pose proof (Hmono 0 i ltac:(lia) ltac:(lia)).
    pose proof (Hmono (i + 1) cap ltac:(lia) ltac:(lia)).
    specialize (Hstrict i Hi). lia.
  - eexists. split; [exact Hdown|].
    rewrite py_len_map. unfold py_range. rewrite py_len_range2; lia.
Qed.

Lemma buckets_nonempty_witness :
  (forall i, 0 <= i < 3 ->
     exists s e, bucket (py_len [1; 2; 3; 4; 5; 6; 7]) 3 i = Ok (s, e) /\
                 0 <= s < e /\ e <= py_len [1; 2; 3; 4; 5; 6; 7]) /\
  (exists points, downsample [1; 2; 3; 4; 5; 6; 7] 3 = Ok points /\ py_len points = 3).
Proof.
  apply (buckets_nonempty [1; 2; 3; 4; 5; 6; 7] 3).
  - unfold py_len; simpl; lia.
  - vm_compute. discriminate.
Defined.

(** C3, as stated for every sequence, fails beyond the precision of
    binary64: for [2^53 + 2] values and [cap = 2^53 + 1] the step rounds to
    1.0, [float(2^53 + 1)] rounds to [2^53], and bucket [2^53] is
    [[2^53, 2^53)]: empty. *)
Lemma huge_bucket_is_empty :
  let values := repeat 0 (Z.to_nat 9007199254740994) in
  let cap := 9007199254740993 in
  let i := 9007199254740992 in
  py_len values = 9007199254740994 /\
  1 <= cap < py_len values /\ 0 <= i < cap /\
  bucket (py_len values) cap i = Ok (9007199254740992, 9007199254740992) /\
  ~ (exists s e, bucket (py_len values) cap i = Ok (s, e) /\ s < e).
Proof.
  assert (forall n : nat, Z.of_nat n = 9007199254740994 ->
            py_len (repeat 0 n) = 9007199254740994 /\
            bucket (py_len (repeat 0 n)) 9007199254740993 9007199254740992
            = Ok (9007199254740992, 9007199254740992)) as H.
  { intros n Hn. unfold py_len. rewrite repeat_length, Hn.
    split; [reflexivity | vm_compute; reflexivity]. }
  destruct (H (Z.to_nat 9007199254740994) (Z2Nat.id 9007199254740994 (Pos2Z.is_nonneg _)))
    as (HL & HB).
  cbv zeta. rewrite HB, HL.
  split; [reflexivity|]. split; [lia|]. split; [lia|]. split; [reflexivity|].
  intros (s & e & E & Hlt). injection E as <- <-. lia.
Qed.

(** ** C4: Non-positive cap *)

(** C4, as the code has it: a non-positive [cap] is not checked.  With
    [cap = 0] an empty sequence is returned as it is and a non-empty one
    makes the division of the step raise [ZeroDivisionError]; with
    [cap < 0] the loop has no iteration and the result is the empty
    list. *)
Theorem downsample_nonpositive_cap (values : list Z) (cap : Z) :
  cap <= 0 -> py_len values < 2 ^ 1023 ->
  downsample values cap =
  if cap =? 0 then
    match values with
    | [] => Ok []
    | _ :: _ => Raise ZeroDivisionError
    end
  else Ok [].
Proof.
  intros Hc Hn. unfold downsample.
  assert (0 <= py_len values) as H0 by (unfold py_len; lia).
  destruct (Z.eqb_spec cap 0) as [-> | Nc].
  - destruct values as [|v values]; [reflexivity|].
    replace (py_len (v :: values) <=? 0) with false
      by (symmetry; apply Z.leb_gt; unfold py_len; cbn [List.length]; lia).
    reflexivity.
  - replace (py_len values <=? cap) with false by (symmetry; apply Z.leb_gt; lia).
    destruct (int_truediv_negative (py_len values) cap) as [f ->]; try lia.
    cbn [bind]. unfold py_range, py_range2.
    replace (Z.to_nat (cap - 0)) with O by lia. reflexivity.
Qed.

Lemma downsample_nonpositive_cap_witness :
  downsample [1; 2; 3] (-1) = Ok [] /\
  downsample [1; 2; 3] 0 = Raise ZeroDivisionError.
Proof.
  split.
  - apply (downsample_nonpositive_cap [1; 2; 3] (-1)); [lia | vm_compute; reflexivity].
  - apply (downsample_nonpositive_cap [1; 2; 3] 0); [lia | vm_compute; reflexivity].
Defined.

(** C4, as stated, fails: no call with [cap <= 0] raises an
    [InvalidConfigurationError]; with [cap = -1] the call returns. *)
Lemma nonpositive_cap_not_rejected :
  downsample [1; 2; 3] (-1) = Ok [] /\
  ~ fails_with "InvalidConfigurationError" (downsample [1; 2; 3] (-1)) /\
  ~ fails_with "InvalidConfigurationError" (downsample [1; 2; 3] 0).
Proof.
  split; [reflexivity|].
  split; intros (e & _ & H); exact (proj1 (proj2 (proj2 (no_custom_exception e))) H).
Qed.

(** ** C5: Unknown metric key *)

(** C5, as the code has it: a selected key that the catalog does not hold
    is skipped, silently.  A key is known when, stripped of the white
    space around it, it is a key of the catalog.  The [-m] loop writes and
    returns exactly what it does for the selection without the unknown
    keys, and a run without [--flowchart] whose selection holds unknown
    keys only ends normally, having written nothing. *)
Theorem unknown_keys_are_skipped :
  (forall k,
      known_key k = true <->
      exists name m, In (name, m) METRIC_GROUPS /\ py_strip k = code_points name) /\
  (forall cols ticks keys out,
      render_selection cols ticks keys out
      = render_selection cols ticks (filter known_key keys) out) /\
  (forall parse_int a rows cols ticks c s out,
      load_csv parse_int rows = Ok cols ->
      dict_get cols (Some "tick"%string) = Ok ticks ->
      metrics a = Some (c :: s) ->
      flowchart_flag a = false ->
      filter known_key (py_split comma (c :: s)) = [] ->
      main parse_int a rows out = (out, Ok tt)).
Proof.
  split.
  { intros k. rewrite <- catalog_find_text_Some. unfold known_key.
    destruct (catalog_find_text METRIC_GROUPS (py_strip k)) as [m|].
    - split; [intros _; exists m; reflexivity | reflexivity].
    - split; [discriminate | intros [m H]; discriminate H]. }
  split; [exact render_selection_skips|].
  intros parse_int a rows cols ticks c s out Hload Htick Hm Hf Hkeys.
  unfold main, io_bind, io_lift. rewrite Hload, Htick, Hf, Hm.
  unfold io_ret. rewrite render_selection_skips, Hkeys. reflexivity.
Qed.

Lemma unknown_keys_are_skipped_witness :
  main sample_parse (select_args (code_points "foo, bar")) sample_rows [] = ([], Ok tt).
Proof.
  apply (proj2 (proj2 unknown_keys_are_skipped) sample_parse
           (select_args (code_points "foo, bar"))
           sample_rows
           [(Some "tick", [0; 1]); (Some "alive", [5; 5]); (Some "avg_stress", [1; 2])]%string
           [0; 1] 0x66 (code_points "oo, bar") []); reflexivity.
Defined.

(** C5, as stated, fails: the selection ["foo"] is not in the catalog, and
    the run ends normally without any exception. *)
Lemma unknown_key_raises_nothing :
  catalog_find_text METRIC_GROUPS (code_points "foo") = None /\
  main sample_parse (select_args (code_points "foo")) sample_rows [] = ([], Ok tt) /\
  ~ fails_with "UnknownMetricError"
      (snd (main sample_parse (select_args (code_points "foo")) sample_rows [])).
Proof.
  split; [reflexivity|]. split; [reflexivity|].
  intros (e & H & _). discriminate H.
Qed.

(** ** C6: No partial output *)

(** C6, as the code has it: a failure while the input is loaded (no row, a
    cell that is not an integer, a row without a field, no [tick] column)
    ends the run with nothing written. *)
Theorem load_failure_writes_nothing parse_int (a : args) (rows : list row)
    (out : output) (e : exn) :
  load_csv parse_int rows = Raise e \/
  (exists cols, load_csv parse_int rows = Ok cols /\
                dict_get cols (Some "tick"%string) = Raise e) ->
  main parse_int a rows out = (out, Raise e).
Proof.
  intros [H | (cols & H & Ht)]; unfold main, io_bind, io_lift; rewrite H.
  - reflexivity.
  - rewrite Ht. reflexivity.
Qed.

Lemma load_failure_writes_nothing_witness :
  main sample_parse default_args [] [] = ([], Raise IndexError).
Proof.
  apply (load_failure_writes_nothing sample_parse default_args [] [] IndexError).
  left. reflexivity.
Defined.

(** C6, as stated, fails: with the columns [tick], [alive] and
    [avg_stress] only, the default run writes the first composite and then
    fails on the missing [trades] column: the output is partial. *)
Lemma missing_column_leaves_partial_output :
  exists block,
    main sample_parse default_args sample_rows []
    = ([block; newline], Raise (KeyError (Some "trades"%string))).
Proof. eexists. reflexivity. Qed.

(** ** C7: Activity rates *)

(** C7 (activity rates): for a cumulative series [c] of length [n >= 2]
    read under [name], over ticks of the same length (as all columns of a
    loaded CSV are, [load_csv_same_length]), the rate series is the first
    difference [c[i] - c[i-1]] for [i] in [1..n-1]; it has [n - 1] points,
    as has [ticks[1:]], and point [i - 1] of the rate series is drawn
    against tick [i]. *)
Theorem rate_first_difference (cols : dict (list Z)) (name : string)
    (ticks c : list Z) :
  dict_get cols (Some name) = Ok c ->
  py_len c = py_len ticks ->
  2 <= py_len c ->
  exists r,
    rate cols name ticks = Ok r /\
    py_len r = py_len c - 1 /\
    py_len (py_slice ticks 1 (py_len ticks)) = py_len c - 1 /\
    forall i, 1 <= i <= py_len c - 1 ->
      nth (Z.to_nat (i - 1)) r 0 = nth (Z.to_nat i) c 0 - nth (Z.to_nat (i - 1)) c 0 /\
      nth (Z.to_nat (i - 1)) (py_slice ticks 1 (py_len ticks)) 0 = nth (Z.to_nat i) ticks 0.
Proof.
  intros Hc Hlen Hn.
  set (g := fun i => nth (Z.to_nat i) c 0 - nth (Z.to_nat (i - 1)) c 0).
  exists (map g (py_range2 1 (py_len ticks))).
  split; [|split; [|split]].
  - unfold rate. apply mapM_ok. intros i Hi.
    unfold py_range2 in Hi. apply in_range_from in Hi.
    rewrite Hc. cbn [bind].
    rewrite (py_getitem_inner c 0 i), (py_getitem_inner c 0 (i - 1)) by lia.
    reflexivity.
  - rewrite py_len_map, py_len_range2; lia.
  - destruct (py_slice_inner ticks 1 (py_len ticks)) as [_ ->]; lia.
  - intros i Hi. split.
    + unfold py_range2.
      rewrite (nth_indep _ 0 (g 0)) by (rewrite length_map, length_range_from; lia).
      rewrite map_nth, nth_range_from by lia.
      unfold g. repeat f_equal; lia.
    + destruct (py_slice_inner ticks 1 (py_len ticks)) as [-> _]; try lia.
      unfold py_len in *.
      rewrite nth_firstn.
      replace (Z.to_nat (i - 1) <? Z.to_nat (Z.of_nat (List.length ticks) - 1))%nat with true
        by (symmetry; apply Nat.ltb_lt; lia).
      rewrite nth_skipn. f_equal. lia.
Qed.

Lemma rate_first_difference_witness :
  rate sample_cols "trades" [0; 1; 2; 3] = Ok [3; 0; 4] /\
  py_slice [0; 1; 2; 3] 1 (py_len [0; 1; 2; 3]) = [1; 2; 3] /\
  exists r,
    rate sample_cols "trades" [0; 1; 2; 3] = Ok r /\
    py_len r = py_len [0; 3; 3; 7] - 1 /\
    py_len (py_slice [0; 1; 2; 3] 1 (py_len [0; 1; 2; 3])) = py_len [0; 3; 3; 7] - 1 /\
    forall i, 1 <= i <= py_len [0; 3; 3; 7] - 1 ->
      nth (Z.to_nat (i - 1)) r 0
      = nth (Z.to_nat i) [0; 3; 3; 7] 0 - nth (Z.to_nat (i - 1)) [0; 3; 3; 7] 0 /\
      nth (Z.to_nat (i - 1)) (py_slice [0; 1; 2; 3] 1 (py_len [0; 1; 2; 3])) 0
      = nth (Z.to_nat i) [0; 1; 2; 3] 0.
Proof.
  split; [reflexivity|]. split; [reflexivity|].
  apply (rate_first_difference sample_cols "trades" [0; 1; 2; 3] [0; 3; 3; 7]).
  - reflexivity.
  - reflexivity.
  - unfold py_len; simpl; lia.
Defined.

(** ** C8: Order of the series *)

(** C8 (declared order): the chart of a composite holds, after the header,
    one [line] directive per entry of the composite's list, in the order
    of that list, each built from the column the entry names; the
    composite [economy] is the list trades, teaches, so its chart has the
    trades line first and the teaches line second. *)
Theorem composite_order_preserved :
  (forall cols ticks (c : composite) text,
      composite_chart cols ticks c = Ok text ->
      exists x_down ys,
        downsample ticks default_max_points = Ok x_down /\
        Forall2 (fun d y => exists values,
                   dict_get cols (Some (snd d)) = Ok values /\
                   downsample values default_max_points = Ok y) (snd c) ys /\
        text = String.concat newline
                 (chart_header (fst c) "tick" x_down ++ map line_directive ys
                  ++ ["```"%string])) /\
  (exists economy,
      catalog_find COMPOSITES "economy" = Some economy /\
      forall cols ticks text,
        composite_chart cols ticks economy = Ok text ->
        exists x_down trades teaches trades_down teaches_down,
          dict_get cols (Some "trades"%string) = Ok trades /\
          dict_get cols (Some "teaches"%string) = Ok teaches /\
          downsample trades default_max_points = Ok trades_down /\
          downsample teaches default_max_points = Ok teaches_down /\
          text = String.concat newline
                   (chart_header "Economy" "tick" x_down
                    ++ [line_directive trades_down; line_directive teaches_down]
                    ++ ["```"%string])).
Proof.
  split; [exact composite_chart_inv|].
  eexists. split; [reflexivity|].
  intros cols ticks text H.
  apply composite_chart_inv in H. destruct H as (x_down & ys & Hx & Hys & ->).
  cbn [snd fst] in Hys.
  inversion Hys as [|d1 y1 l1 ys1 (trades & Ht & Htd) Hys1]; subst.
  inversion Hys1 as [|d2 y2 l2 ys2 (teaches & Hs & Hsd) Hys2]; subst.
  inversion Hys2; subst.
  exists x_down, trades, teaches, y1, y2. cbn [snd] in *. auto.
Qed.

Lemma composite_order_preserved_witness :
  composite_chart sample_cols [0; 1; 2; 3]
    ("Economy"%string, [("trades", "trades"); ("teaches", "teaches")]%string)
  = Ok (String.concat newline
          (chart_header "Economy" "tick" [0; 1; 2; 3]
           ++ [line_directive [0; 3; 3; 7]; line_directive [0; 1; 1; 2]]
           ++ ["```"%string])) /\
  exists x_down ys,
    downsample [0; 1; 2; 3] default_max_points = Ok x_down /\
    Forall2 (fun d y => exists values,
               dict_get sample_cols (Some (snd d)) = Ok values /\
               downsample values default_max_points = Ok y)
            [("trades", "trades"); ("teaches", "teaches")]%string ys /\
    String.concat newline
      (chart_header "Economy" "tick" [0; 1; 2; 3]
       ++ [line_directive [0; 3; 3; 7]; line_directive [0; 1; 1; 2]]
       ++ ["```"%string])
    = String.concat newline
        (chart_header "Economy" "tick" x_down ++ map line_directive ys ++ ["```"%string]).
Proof.
  split; [reflexivity|].
  apply (proj1 composite_order_preserved sample_cols [0; 1; 2; 3]
           ("Economy"%string, [("trades", "trades"); ("teaches", "teaches")]%string)).
  reflexivity.
Defined.

(** ** C9: Empty input *)

(** C9, as the code has it: loading no row fails with [IndexError], the
    exception of [rows[0]]. *)
Theorem load_csv_empty parse_int :
  load_csv parse_int [] = Raise IndexError /\
  fails_with "IndexError" (load_csv parse_int []).
Proof.
  split; [reflexivity|]. exists IndexError. split; reflexivity.
Qed.

(** C9, as stated, fails: the exception is not an [EmptyInputError]. *)
Lemma load_csv_empty_not_EmptyInputError :
  ~ fails_with "EmptyInputError" (load_csv sample_parse []).
Proof. intros (e & _ & H). exact (proj1 (no_custom_exception e) H). Qed.

(** ** C10: Points within the range of the values *)

(** C10, for the lengths of real lists: with a non-empty sequence of at
    most [2^51] values and [cap >= 1], [downsample] returns, and every
    point is at least the minimum and at most the maximum of the values. *)
Theorem downsample_within_range (values : list Z) (cap : Z) :
  values <> [] -> 1 <= cap -> py_len values <= max_len ->
  exists points,
    downsample values cap = Ok points /\
    Forall (fun y => list_min values <= y <= list_max values) points.
Proof.
  intros Hne Hc Hn.
  pose proof (list_min_max_bounds values) as Hb.
  destruct (Z.le_gt_cases (py_len values) cap) as [Le | Gt].
  - exists values. split; [|exact Hb].
    unfold downsample.
    replace (py_len values <=? cap) with true by (symmetry; apply Z.leb_le; exact Le).
    reflexivity.
  - destruct (downsample_buckets values cap ltac:(lia) Hn)
      as (b & Hb0 & Hstrict & Hcap & _ & Hdown).
    pose proof (boundaries_mono b cap Hstrict) as Hmono.
    eexists. split; [exact Hdown|].
    apply Forall_forall. intros y Hy. apply in_map_iff in Hy.
    destruct Hy as (i & <- & Hi). apply in_py_range in Hi.
    pose proof (Hmono 0 i ltac:(lia) ltac:(lia)).
    pose proof (Hmono (i + 1) cap ltac:(lia) ltac:(lia)).
    specialize (Hstrict i Hi).
    apply bucket_average_bounds; [exact Hb | lia | lia].
Qed.

Lemma downsample_within_range_witness :
  exists points,
    downsample [1; 2; 3; 4; 5; 6; 7] 3 = Ok points /\
    Forall (fun y => list_min [1; 2; 3; 4; 5; 6; 7] <= y <= list_max [1; 2; 3; 4; 5; 6; 7])
           points.
Proof.
  apply (downsample_within_range [1; 2; 3; 4; 5; 6; 7] 3).
  - discriminate.
  - lia.
  - vm_compute. discriminate.
Defined.

(** C10, as stated for every sequence, fails beyond the precision of
    binary64: for [2^53 - 1] ones and 3 buckets, [3 * step] rounds to
    [2^53], one more than the length; the last slice is one element short
    of its divisor and the last point is 0, below the minimum 1. *)
Lemma huge_list_point_below_min :
  let values := repeat 1 (Z.to_nat 9007199254740991) in
  values <> [] /\ 1 <= 3 /\
  list_min values = 1 /\
  downsample values 3 = Ok [1; 1; 0] /\
  ~ Forall (fun y => list_min values <= y <= list_max values) [1; 1; 0].
Proof.
  assert (forall n : nat, Z.of_nat n = 9007199254740991 ->
            repeat 1 n <> [] /\ list_min (repeat 1 n) = 1) as H.
  { intros n Hn. assert (0 < n)%nat as Hpos by lia.
    split; [|apply list_min_repeat; exact Hpos].
    destruct n; [lia | discriminate]. }
  pose proof (Z2Nat.id 9007199254740991 (Pos2Z.is_nonneg _)) as Hid.
  destruct (H _ Hid) as [Hne Hmin].
  cbv zeta.
  split; [exact Hne|]. split; [lia|]. split; [exact Hmin|].
  split; [apply downsample_huge_ones; exact Hid|].
  rewrite Hmin. intros HF.
  inversion HF as [|? ? _ HF1]; subst. inversion HF1 as [|? ? _ HF2]; subst.
  inversion HF2 as [|? ? H0 _]; subst. lia.
Qed.

(** * Further properties *)

(** ** Loading: what [load_csv] returns and when it fails *)

Lemma mapM_raise {A B} (f : A -> result B) l e :
  mapM f l = Raise e -> exists a, In a l /\ f a = Raise e.
Proof.
  induction l as [|a l IH]; intros H; cbn [mapM] in H; [discriminate|].
  destruct (f a) as [b|e'] eqn:Ea; cbn [bind] in H.
  - destruct (mapM f l) as [bs|e'']; cbn [bind] in H; [discriminate|].
    injection H as ->. destruct (IH eq_refl) as (a' & Hin & Ha').
    exists a'. split; [right; exact Hin | exact Ha'].
  - injection H as ->. exists a. split; [left; reflexivity | exact Ea].
Qed.

Lemma mapM_ok_iff {A B} (f : A -> result B) l :
  (exists r, mapM f l = Ok r) <-> Forall (fun a => exists b, f a = Ok b) l.
Proof.
  split.
  - intros [r H]. apply mapM_inv in H.
    induction H as [|a b l r Hab _ IH]; constructor; [exists b; exact Hab | exact IH].
  - intros H. induction H as [|a l [b Hb] _ [r IH]].
    + exists []. reflexivity.
    + exists (b :: r). cbn [mapM]. rewrite Hb. cbn [bind]. rewrite IH. reflexivity.
Qed.

Lemma load_columns_get parse_int rows keys cols cols' :
  load_columns parse_int rows keys cols = Ok cols' ->
  forall k,
    (In k keys -> dict_get cols' k = column parse_int rows k) /\
    (~ In k keys -> dict_get cols' k = dict_get cols k).
Proof.
  revert cols. induction keys as [|k0 keys IH]; intros cols H k; cbn [load_columns] in H.
  - injection H as <-. split; [intros [] | reflexivity].
  - destruct (column parse_int rows k0) as [col|e] eqn:Ec; cbn [bind] in H; [|discriminate].
    destruct (IH _ H k) as [Hin Hout].
    assert (In k keys \/ ~ In k keys) as [Hk | Hk].
    { destruct (existsb (key_eqb k) keys) eqn:Ex.
      - left. apply existsb_exists in Ex. destruct Ex as (k' & Hk' & E).
        apply key_eqb_eq in E. subst k'. exact Hk'.
      - right. intros Hk. apply Bool.not_true_iff_false in Ex. apply Ex.
        apply existsb_exists. exists k. split; [exact Hk | apply key_eqb_eq; reflexivity]. }
    + split; [intros _; apply Hin; exact Hk | intros N; exfalso; apply N; right; exact Hk].
    + rewrite (Hout Hk), dict_get_set.
      destruct (key_eqb k k0) eqn:E.
      * apply key_eqb_eq in E. subst k0.
        split; [intros _; symmetry; exact Ec | intros N; exfalso; apply N; left; reflexivity].
      * split; [|reflexivity].
        intros [-> | Hk']; [|contradiction].
        rewrite (proj2 (key_eqb_eq k k) eq_refl) in E. discriminate.
Qed.

(** X1: the dictionary that [load_csv] returns holds exactly the fields
    of the first row; under each of them, the integers of that field in
    the order of the rows, one per row; any other key raises [KeyError]. *)
Theorem load_csv_columns parse_int (row0 : row) (rest : list row)
    (cols : dict (list Z)) :
  load_csv parse_int (row0 :: rest) = Ok cols ->
  forall k,
    (In k (map fst row0) ->
       exists col, dict_get cols k = Ok col /\
                   column parse_int (row0 :: rest) k = Ok col /\
                   py_len col = py_len (row0 :: rest)) /\
    (~ In k (map fst row0) -> dict_get cols k = Raise (KeyError k)).
Proof.
  intros H k. pose proof (load_csv_same_length _ _ _ H k) as Hlen.
  unfold load_csv in H. cbn [py_getitem Z.ltb Z.compare Z.to_nat nth_error bind] in H.
  destruct (load_columns_get _ _ _ _ _ H k) as [Hin Hout]. split.
  - intros Hk. specialize (Hin Hk).
    destruct (dict_get cols k) as [col|e] eqn:E.
    + exists col. split; [reflexivity|]. split; [symmetry; exact Hin | apply Hlen; reflexivity].
    + exfalso.
      assert (forall keys c0 c1, load_columns parse_int (row0 :: rest) keys c0 = Ok c1 ->
                forall j, In j keys -> exists c, column parse_int (row0 :: rest) j = Ok c) as Hall.
      { induction keys as [|j0 keys IHk]; intros c0 c1 Hl j Hj; [destruct Hj|].
        cbn [load_columns] in Hl.
        destruct (column parse_int (row0 :: rest) j0) as [c|e'] eqn:Ec; cbn [bind] in Hl;
          [|discriminate].
        destruct Hj as [<- | Hj]; [exists c; exact Ec | exact (IHk _ _ Hl j Hj)]. }
      destruct (Hall _ _ _ H k Hk) as [c Hc]. rewrite Hc in Hin. discriminate.
  - intros Hk. rewrite (Hout Hk). reflexivity.
Qed.

Lemma load_csv_columns_witness :
  exists col,
    dict_get [(Some "tick", [0; 1]); (Some "alive", [5; 5]); (Some "avg_stress", [1; 2])]%string
             (Some "alive"%string) = Ok col /\
    column sample_parse sample_rows (Some "alive"%string) = Ok col /\
    py_len col = py_len sample_rows.
Proof.
  apply (load_csv_columns sample_parse (sample_row "0" "5" "1") [sample_row "1" "5" "2"]
           [(Some "tick", [0; 1]); (Some "alive", [5; 5]); (Some "avg_stress", [1; 2])]%string
           eq_refl (Some "alive"%string)).
  cbn. auto.
Defined.

Lemma cell_ok_iff parse_int (r : row) (k : key) :
  (exists z, (c <- dict_get r k ;; int_of_cell parse_int c) = Ok z)
  <-> integer_cell parse_int r k.
Proof.
  unfold integer_cell. split.
  - intros [z H]. destruct (dict_get r k) as [c|e]; cbn [bind] in H; [|discriminate].
    destruct c as [s| |l]; cbn [int_of_cell] in H; try discriminate.
    destruct (parse_int s) as [z'|] eqn:E; [|discriminate].
    exists s, z'. auto.
  - intros (s & z & -> & E). exists z. cbn [bind int_of_cell]. rewrite E. reflexivity.
Qed.

Lemma load_columns_ok_iff parse_int rows keys cols :
  (exists cols', load_columns parse_int rows keys cols = Ok cols') <->
  Forall (fun k => exists col, column parse_int rows k = Ok col) keys.
Proof.
  revert cols. induction keys as [|k keys IH]; intros cols; cbn [load_columns].
  - split; [constructor | intros _; exists cols; reflexivity].
  - split.
    + intros [cols' H].
      destruct (column parse_int rows k) as [col|e] eqn:E; cbn [bind] in H; [|discriminate].
      constructor; [exists col; exact E | apply (IH (dict_set cols k col)); exists cols'; exact H].
    + intros H. inversion H as [|? ? [col Hc] Hrest]; subst.
      rewrite Hc. cbn [bind]. apply IH. exact Hrest.
Qed.

(** X2: [load_csv] succeeds exactly when there is at least one row and
    every row holds, under every field of the first row, a string that
    [int] accepts. *)
Theorem load_csv_succeeds_iff parse_int (rows : list row) :
  (exists cols, load_csv parse_int rows = Ok cols) <->
  exists row0 rest,
    rows = row0 :: rest /\
    Forall (fun k => Forall (fun r => integer_cell parse_int r k) rows) (map fst row0).
Proof.
  unfold load_csv. destruct rows as [|row0 rest].
  - split; [intros [cols H]; discriminate H | intros (r & l & H & _); discriminate H].
  - cbn [py_getitem Z.ltb Z.compare Z.to_nat nth_error bind].
    rewrite load_columns_ok_iff. split.
    + intros H. exists row0, rest. split; [reflexivity|].
      eapply Forall_impl; [|exact H]. intros k Hk. cbv beta in Hk.
      unfold column in Hk. apply mapM_ok_iff in Hk.
      eapply Forall_impl; [|exact Hk]. intros r Hr. apply cell_ok_iff. exact Hr.
    + intros (r0 & l & E & H). injection E as <- <-.
      eapply Forall_impl; [|exact H]. intros k Hk. cbv beta in Hk.
      unfold column. apply mapM_ok_iff.
      eapply Forall_impl; [|exact Hk]. intros r Hr. apply cell_ok_iff. exact Hr.
Qed.

Lemma load_csv_succeeds_iff_witness :
  exists cols, load_csv sample_parse sample_rows = Ok cols.
Proof.
  apply (proj2 (load_csv_succeeds_iff sample_parse sample_rows)).
  exists (sample_row "0" "5" "1"), [sample_row "1" "5" "2"]. split; [reflexivity|].
  cbn [map fst sample_row].
  repeat (first [apply Forall_cons | apply Forall_nil]);
    unfold integer_cell; do 2 eexists; split; reflexivity.
Defined.

Lemma dict_get_In {V} (d : dict V) k :
  In k (map fst d) -> exists v, dict_get d k = Ok v /\ In (k, v) d.
Proof.
  induction d as [|[k' v'] d IH]; cbn [map fst dict_get]; intros H; [destruct H|].
  destruct (key_eqb k k') eqn:E.
  - apply key_eqb_eq in E. subst k'. exists v'. split; [reflexivity | left; reflexivity].
  - destruct H as [<- | H].
    + rewrite (proj2 (key_eqb_eq k' k') eq_refl) in E. discriminate.
    + destruct (IH H) as (v & Hv & Hin). exists v. split; [exact Hv | right; exact Hin].
Qed.

(** The keys of a reader row: fields of the header, or [None] with the
    list of the surplus cells. *)
Lemma reader_row_keys fields r k :
  reader_row fields r = true -> In k (map fst r) ->
  match k with
  | Some f => In f fields
  | None => exists l, dict_get r None = Ok (CellList l)
  end.
Proof.
  unfold reader_row. rewrite andb_true_iff, !forallb_forall. intros [_ H] Hk.
  destruct (dict_get_In r k Hk) as (c & Hget & Hin). specialize (H _ Hin).
  destruct k as [f|].
  - apply existsb_exists in H. destruct H as (f' & Hf' & E).
    apply String.eqb_eq in E. subst f'. exact Hf'.
  - destruct c as [s| |l]; try discriminate H. exists l. exact Hget.
Qed.

(** The cell of a field in a reader row: a string, or [None]. *)
Lemma reader_row_cell fields r f :
  reader_row fields r = true -> In f fields ->
  (exists s, dict_get r (Some f) = Ok (CellStr s)) \/ dict_get r (Some f) = Ok CellNone.
Proof.
  unfold reader_row. rewrite andb_true_iff, !forallb_forall. intros [H _] Hf.
  specialize (H f Hf). destruct (dict_get r (Some f)) as [[s| |l]|e]; try discriminate H.
  - left. exists s. reflexivity.
  - right. reflexivity.
Qed.

(** X3: what a failure of the conversion means, on the rows that
    [csv.DictReader] has yielded.  [IndexError]: there is no row.
    [ValueError]: a cell is a string that [int] rejects.  [TypeError]: a
    line was shorter than the header, so that a cell is [None], or the
    first line was longer, so that it holds the list of its surplus cells
    under the key [None].  Nothing else is raised: every row of the reader
    holds every field, so no [KeyError] leaves the loop. *)
Theorem load_csv_failure parse_int (fields : list string) (rows : list row) (e : exn) :
  forallb (reader_row fields) rows = true ->
  load_csv parse_int rows = Raise e ->
  match e with
  | IndexError => rows = []
  | ValueError =>
      exists r f s, In r rows /\ In f fields /\
                    dict_get r (Some f) = Ok (CellStr s) /\ parse_int s = None
  | TypeError =>
      (exists r f, In r rows /\ In f fields /\ dict_get r (Some f) = Ok CellNone) \/
      (exists row0 rest l, rows = row0 :: rest /\ dict_get row0 None = Ok (CellList l))
  | KeyError _ | ZeroDivisionError | OverflowError => False
  end.
Proof.
  intros Hrows. rewrite forallb_forall in Hrows.
  unfold load_csv. destruct rows as [|row0 rest].
  - cbn. intros H. injection H as <-. reflexivity.
  - cbn [py_getitem Z.ltb Z.compare Z.to_nat nth_error bind].
    pose proof (Hrows row0 (or_introl eq_refl)) as Hrow0.
    assert (forall k, In k (map fst row0) -> In k (map fst row0)) as Hsub by auto.
    revert Hsub. generalize (@nil (key * list Z)) as cols.
    generalize (map fst row0) at 1 3 as keys.
    induction keys as [|k keys IH]; intros cols Hsub H; cbn [load_columns] in H;
      [discriminate|].
    destruct (column parse_int (row0 :: rest) k) as [col|e'] eqn:Ec; cbn [bind] in H.
    { apply (IH _ (fun j Hj => Hsub j (or_intror Hj)) H). }
    injection H as ->.
    pose proof (reader_row_keys fields row0 k Hrow0 (Hsub k (or_introl eq_refl))) as Hk.
    destruct k as [f|].
    + unfold column in Ec. apply mapM_raise in Ec. destruct Ec as (r & Hr & Hcell).
      destruct (reader_row_cell fields r f (Hrows r Hr) Hk) as [[s Hs] | Hnone];
        [rewrite Hs in Hcell | rewrite Hnone in Hcell]; cbn [bind int_of_cell] in Hcell.
      * destruct (parse_int s) eqn:Ep; [discriminate|]. injection Hcell as <-.
        exists r, f, s. auto.
      * injection Hcell as <-. left. exists r, f. auto.
    + destruct Hk as [l Hl]. unfold column in Ec. cbn [mapM] in Ec.
      rewrite Hl in Ec. cbn [bind int_of_cell] in Ec. injection Ec as <-.
      right. exists row0, rest, l. auto.
Qed.

Lemma load_csv_failure_witness :
  (exists r f, In r [sample_row "0" "5" "1";
                     [(Some "tick", CellStr "1"); (Some "alive", CellNone);
                      (Some "avg_stress", CellNone)]]%string /\
               In f ["tick"; "alive"; "avg_stress"]%string /\
               dict_get r (Some f) = Ok CellNone) \/
  (exists row0 rest l,
      [sample_row "0" "5" "1";
       [(Some "tick", CellStr "1"); (Some "alive", CellNone);
        (Some "avg_stress", CellNone)]]%string = row0 :: rest /\
      dict_get row0 None = Ok (CellList l)).
Proof.
  apply (load_csv_failure sample_parse ["tick"; "alive"; "avg_stress"]%string
           [sample_row "0" "5" "1";
            [(Some "tick", CellStr "1"); (Some "alive", CellNone);
             (Some "avg_stress", CellNone)]]%string TypeError); reflexivity.
Defined.

(** ** The step of [downsample], with the location of its rounding *)

Lemma div_core_int_loc n c : 0 < c -> c <= n -> n < 2 ^ 53 ->
  let s := 53 - (Z.log2 n - Z.log2 c) in
  SFdiv_core_binary 53 1024 n 0 c 0
  = (n * 2 ^ s / c, - s, new_location c ((n * 2 ^ s) mod c)).
Proof.
  intros Hc Hcn Hn s.
  assert (Z.log2 c <= Z.log2 n) by (apply Z.log2_le_mono; lia).
  assert (0 <= Z.log2 c) by apply Z.log2_nonneg.
  assert (Z.log2 n < 53) by (apply log2_lt; lia).
  unfold SFdiv_core_binary.
  rewrite !Zdigits2_log2 by lia.
  rewrite fexp_normal by lia.
  replace (Z.min (Z.log2 n + 1 + 0 - (Z.log2 c + 1 + 0) - 53) (0 - 0)) with (- s) by (unfold s; lia).
  replace (0 - 0 - - s) with s by lia.
  assert (0 < s) as Hs by (unfold s; lia).
  destruct s as [|p|p] eqn:Es; try lia.
  rewrite Z.shiftl_mul_pow2 by lia.
  unfold Z.div, Z.modulo. destruct (Z.div_eucl (n * 2 ^ Z.pos p) c) as [q r].
  reflexivity.
Qed.

(** The step [n / cap], as [binary_round_aux] builds it: the quotient [q]
    of [n * 2^s] by [cap] has 53 or 54 bits, is cut to 53 bits ([Q]) and
    rounded ([R]). *)
Lemma int_truediv_structure n cap : 1 <= cap <= n -> n < 2 ^ 53 ->
  exists ms es s k R,
    F64.int_truediv n cap = Ok (S754_finite false ms es) /\
    2 ^ 52 <= Zpos ms < 2 ^ 53 /\ -52 <= es <= 1 /\
    1 <= s <= 53 /\ 0 <= k <= 1 /\
    k = Z.log2 (n * 2 ^ s / cap) - 52 /\
    2 ^ 52 * cap <= n * 2 ^ s /\
    (let mrs := Nat.iter (Z.to_nat k) shr_1
                  (shr_record_of_loc (n * 2 ^ s / cap)
                     (new_location cap ((n * 2 ^ s) mod cap))) in
     R = round_nearest_even (shr_m mrs) (loc_of_shr_record mrs)) /\
    n * 2 ^ s / cap / 2 ^ k <= R <= n * 2 ^ s / cap / 2 ^ k + 1 /\
    Zpos ms * 2 ^ (es + frac_bits) = R * 2 ^ k * 2 ^ (frac_bits - s).
Proof.
  intros Hc Hn.
  assert (Z.log2 cap <= Z.log2 n) as HLL by (apply Z.log2_le_mono; lia).
  assert (0 <= Z.log2 cap) as HL0 by apply Z.log2_nonneg.
  assert (Z.log2 n < 53) as HL53 by (apply log2_lt; lia).
  pose proof (log2_bounds n ltac:(lia)) as Bn.
  pose proof (log2_bounds cap ltac:(lia)) as Bc.
  pose proof (div_core_int_loc n cap ltac:(lia) ltac:(lia) Hn) as Hcore. cbv zeta in Hcore.
  set (s := 53 - (Z.log2 n - Z.log2 cap)) in *.
  assert (1 <= s <= 53) as Hs by (unfold s; lia).
  set (q := n * 2 ^ s / cap) in *.
  set (l := new_location cap ((n * 2 ^ s) mod cap)) in *.
  assert (0 < 2 ^ s) as Hps by (apply Z.pow_pos_nonneg; lia).
  assert (2 ^ 52 * cap <= n * 2 ^ s) as Hq1.
  { apply Z.le_trans with (2 ^ 52 * 2 ^ (Z.log2 cap + 1)); [nia|].
    rewrite <- Z.pow_add_r by lia.
    replace (52 + (Z.log2 cap + 1)) with (Z.log2 n + s) by (unfold s; lia).
    rewrite Z.pow_add_r by lia. nia. }
  assert (n * 2 ^ s < 2 ^ 54 * cap) as Hq2.
  { apply Z.lt_le_trans with (2 ^ (Z.log2 n + 1) * 2 ^ s); [nia|].
    rewrite <- Z.pow_add_r by lia.
    replace (Z.log2 n + 1 + s) with (54 + Z.log2 cap) by (unfold s; lia).
    rewrite Z.pow_add_r by lia. nia. }
  assert (2 ^ 52 <= q) as Hqlo by (apply Z.div_le_lower_bound; lia).
  assert (q < 2 ^ 54) as Hqhi by (apply Z.div_lt_upper_bound; lia).
  assert (2 ^ s <= q) as Hqs by (apply Z.div_le_lower_bound; nia).
  assert (52 <= Z.log2 q) as HLq by (apply log2_ge; lia).
  assert (Z.log2 q < 54) as HLq' by (apply log2_lt; lia).
  assert (F64.int_truediv n cap
          = F64.finite_or_overflow (binary_round_aux 53 1024 false q (- s) l)) as Hdiv.
  { destruct n as [|pn|pn]; try lia. destruct cap as [|pc|pc]; try lia.
    unfold F64.int_truediv, F64.prec, F64.emax.
    change (Z.abs (Z.pos pn)) with (Z.pos pn). change (Z.abs (Z.pos pc)) with (Z.pos pc).
    rewrite Hcore. reflexivity. }
  destruct (binary_round_aux_normal q (- s) l) as (m & e & Hbra & Hm & He & Hv); try lia.
  set (k := Z.log2 q - 52) in *.
  assert (0 <= k <= 1) as Hk by (unfold k; lia).
  set (mrs := Nat.iter (Z.to_nat k) shr_1 (shr_record_of_loc q l)) in *.
  assert (shr_m mrs = q / 2 ^ k) as HQ.
  { unfold mrs. rewrite iter_shr_m; rewrite shr_m_of_loc; try lia.
    rewrite Z2Nat.id by lia. reflexivity. }
  set (R := round_nearest_even (shr_m mrs) (loc_of_shr_record mrs)) in *.
  assert (R = shr_m mrs \/ R = shr_m mrs + 1) as HR by apply round_nearest_even_cases.
  pose proof (shifted_mantissa_range q ltac:(lia) HLq) as HQr. fold k in HQr.
  assert (0 < 2 ^ k) as Hpk by (apply Z.pow_pos_nonneg; lia).
  set (j := e - (- s + k)) in *.
  assert (0 <= j <= 1) as Hj by (unfold j; lia).
  assert (Z.pos m * 2 ^ (e + frac_bits) = R * 2 ^ k * 2 ^ (frac_bits - s)) as Hsig.
  { rewrite <- Hv. replace (e + frac_bits) with (j + k + (frac_bits - s)) by (unfold j, frac_bits; lia).
    rewrite !Z.pow_add_r by (unfold frac_bits; lia). lia. }
  assert (-52 <= e) as He52.
  { destruct (Z.eq_dec k 0) as [Ek | Nk]; [|lia].
    assert (s <= 52); [|lia].
    destruct (Z.eq_dec s 53) as [E53|]; [|lia]. exfalso.
    assert (Z.log2 q = 52) as E52 by (unfold k in Ek; lia).
    pose proof (log2_bounds q ltac:(lia)) as Bq. rewrite E52 in Bq.
    rewrite E53 in Hqs. change (52 + 1) with 53 in Bq. lia. }
  exists m, e, s, k, R.
  rewrite Hdiv, Hbra. cbn [F64.finite_or_overflow].
  split; [reflexivity|]. split; [lia|]. split; [lia|]. split; [lia|]. split; [lia|].
  split; [reflexivity|]. split; [exact Hq1|]. split; [reflexivity|].
  split; [fold q; rewrite <- HQ; lia | exact Hsig].
Qed.

Lemma step_lower_arith a b c P Q R q n cap :
  0 < a <= 2 -> 0 < b -> 0 < c -> 0 < P -> 0 < cap ->
  Q <= R -> q < a * Q + a -> n * c < cap * q + cap ->
  a * P * cap <= n * c ->
  n * (c * b) * (P - 1) <= cap * (R * a * b) * P.
Proof.
  intros Ha Hb Hc HP Hcap HR Hq Hn Hbig.
  assert (n * c * (P - 1) <= cap * (R * a) * P) as H.
  { assert (n * c - a * cap <= cap * (a * Q)) as H1 by nia.
    assert (cap * (a * Q) <= cap * (R * a)) as H2 by nia.
    assert (n * c * (P - 1) <= (n * c - a * cap) * P) as H3 by nia.
    apply Z.le_trans with ((n * c - a * cap) * P); [exact H3|].
    apply Z.mul_le_mono_nonneg_r; lia. }
  replace (n * (c * b) * (P - 1)) with (n * c * (P - 1) * b) by ring.
  replace (cap * (R * a * b) * P) with (cap * (R * a) * P * b) by ring.
  apply Z.mul_le_mono_nonneg_r; lia.
Qed.

(** The step is at least [(n / cap) * (1 - 2^-52)]. *)
Lemma int_truediv_lower n cap : 1 <= cap <= n -> n < 2 ^ 53 ->
  exists ms es,
    F64.int_truediv n cap = Ok (S754_finite false ms es) /\
    n * 2 ^ frac_bits * (2 ^ 52 - 1) <= cap * (Zpos ms * 2 ^ (es + frac_bits)) * 2 ^ 52.
Proof.
  intros Hc Hn.
  destruct (int_truediv_structure n cap Hc Hn)
    as (ms & es & s & k & R & Hdiv & _ & _ & Hs & Hk & Ek & Hq1 & _ & HR & Hsig).
  exists ms, es. split; [exact Hdiv|]. rewrite Hsig.
  assert (2 ^ frac_bits = 2 ^ s * 2 ^ (frac_bits - s)) as EK
      by (apply pow2_split; unfold frac_bits; lia).
  rewrite EK.
  assert (0 < 2 ^ s) as Hps by (apply Z.pow_pos_nonneg; lia).
  assert (0 < 2 ^ k) as Hpk by (apply Z.pow_pos_nonneg; lia).
  assert (0 < 2 ^ (frac_bits - s)) as Hpb by (apply Z.pow_pos_nonneg; unfold frac_bits; lia).
  set (q := n * 2 ^ s / cap) in *.
  assert (2 ^ 52 <= q) as Hqlo by (apply Z.div_le_lower_bound; lia).
  pose proof (log2_bounds q ltac:(lia)) as Bq.
  replace (Z.log2 q) with (k + 52) in Bq by lia.
  pose proof (Z.div_mod q (2 ^ k) ltac:(lia)) as Eq1.
  pose proof (Z.mod_pos_bound q (2 ^ k) Hpk) as Bq1.
  pose proof (Z.div_mod (n * 2 ^ s) cap ltac:(lia)) as Eq2. fold q in Eq2.
  pose proof (Z.mod_pos_bound (n * 2 ^ s) cap ltac:(lia)) as Bq2.
  apply (step_lower_arith (2 ^ k) (2 ^ (frac_bits - s)) (2 ^ s) (2 ^ 52) (q / 2 ^ k) R q);
    try lia.
  - destruct (Z.eq_dec k 0) as [-> | Nk]; [change (2 ^ 0) with 1; lia|].
    replace k with 1 by lia. change (2 ^ 1) with 2. lia.
  - (* 2^k * 2^52 * cap <= n * 2^s, from q >= 2^(k + 52) *)
    rewrite Z.pow_add_r in Bq by lia.
    assert (cap * q <= n * 2 ^ s) by (apply Z.mul_div_le; lia).
    nia.
Qed.

Lemma rnd_lower K X N : 52 <= K -> 2 ^ K <= X -> X < 2 ^ (K + 52) ->
  4 * N * 2 ^ K - 2 * 2 ^ K <= 4 * X -> N - 1 <= rnd X / 2 ^ K.
Proof.
  intros HK HX HY HN.
  set (T := 2 ^ K) in *.
  assert (0 < T) as HT by (apply Z.pow_pos_nonneg; lia).
  pose proof (log2_bounds X ltac:(lia)) as BX.
  set (D := Z.log2 X) in *.
  assert (K <= D) as HKD by (apply log2_ge; lia).
  assert (D < K + 52) as HD' by (apply log2_lt; lia).
  set (U := 2 ^ (D - 52)).
  assert (0 < U) as HU by (apply Z.pow_pos_nonneg; lia).
  assert (T = U * (2 * 2 ^ (K + 51 - D))) as ET.
  { unfold T, U. rewrite <- (Z.pow_succ_r 2) by lia. rewrite <- Z.pow_add_r by lia.
    f_equal. lia. }
  assert (0 < 2 ^ (K + 51 - D)) by (apply Z.pow_pos_nonneg; lia).
  pose proof (rne_at_bounds U X HU) as B.
  assert ((N - 1) * T <= rnd X) by (unfold rnd; fold D U; nia).
  apply Z.div_le_lower_bound; lia.
Qed.

(** The last bound computed by [downsample] is [len] or [len - 1]. *)
Lemma last_boundary n cap : 1 <= cap < n -> n <= max_len ->
  exists step e,
    F64.int_truediv n cap = Ok step /\ boundary step cap = Ok e /\ n - 1 <= e <= n.
Proof.
  unfold max_len. intros Hc Hn.
  destruct (int_truediv_bounds n cap) as (ms & es & Hdiv & Hms & Hes & Hlo & Hhi); try lia.
  destruct (int_truediv_lower n cap) as (ms' & es' & Hdiv' & Hlow); try lia.
  rewrite Hdiv in Hdiv'. injection Hdiv' as <- <-.
  set (sigma := Z.pos ms * 2 ^ (es + frac_bits)) in *.
  set (T := 2 ^ frac_bits) in *.
  assert (0 < T) as HT by (apply Z.pow_pos_nonneg; unfold frac_bits; lia).
  assert (2 ^ (frac_bits + 52) = T * 2 ^ 52) as ET
      by (unfold T; apply Z.pow_add_r; unfold frac_bits; lia).
  assert (T <= cap * sigma) by nia.
  assert (2 * (cap * sigma) <= 2 * n * T + T) as Hcs by nia.
  assert (2 * n * T - T <= 2 * (cap * sigma)) as Hcl by nia.
  exists (S754_finite false ms es), (rnd (cap * sigma) / T).
  split; [exact Hdiv|]. split; [apply boundary_rnd; lia|].
  split.
  - apply (rnd_lower frac_bits); fold T; try lia; [unfold frac_bits; lia | nia].
  - apply (rnd_upper frac_bits); fold T; try lia; [unfold frac_bits; lia | nia].
Qed.

(** ** The downsampler: number of points, idempotence, alignment *)

Lemma mapM_length {A B} (f : A -> result B) l r :
  mapM f l = Ok r -> py_len r = py_len l.
Proof.
  intros H. apply mapM_inv in H. unfold py_len. f_equal. symmetry.
  exact (Forall2_length H).
Qed.

Lemma py_len_py_range n : py_len (py_range n) = Z.max n 0.
Proof. unfold py_len, py_range, py_range2. rewrite length_range_from. lia. Qed.

Lemma py_len_nonneg {A} (l : list A) : 0 <= py_len l.
Proof. unfold py_len. lia. Qed.

Lemma downsample_points_length values cap points :
  downsample values cap = Ok points ->
  py_len points = Z.min (py_len values) (Z.max cap 0).
Proof.
  unfold downsample. intros H. pose proof (py_len_nonneg values) as H0.
  destruct (Z.leb_spec (py_len values) cap) as [Le | Gt].
  - injection H as <-. lia.
  - destruct (F64.int_truediv (py_len values) cap) as [step|e]; cbn [bind] in H;
      [|discriminate].
    apply mapM_length in H. rewrite py_len_py_range in H. lia.
Qed.

(** X4: whenever [downsample] returns, it returns [min(len(values), cap)]
    points for a cap that is not negative, and none for a negative one:
    never more than [cap] points, whatever the length of the list. *)
Theorem downsample_length (values : list Z) (cap : Z) (points : list Z) :
  downsample values cap = Ok points ->
  py_len points = Z.min (py_len values) (Z.max cap 0).
Proof.
  unfold downsample. intros H. pose proof (py_len_nonneg values) as H0.
  destruct (Z.leb_spec (py_len values) cap) as [Le | Gt].
  - injection H as <-. lia.
  - destruct (F64.int_truediv (py_len values) cap) as [step|e]; cbn [bind] in H;
      [|discriminate].
    apply mapM_length in H. rewrite py_len_py_range in H. lia.
Qed.

Lemma downsample_length_witness :
  py_len [1; 3; 6] = Z.min (py_len [1; 2; 3; 4; 5; 6; 7]) (Z.max 3 0).
Proof.
  apply (downsample_length [1; 2; 3; 4; 5; 6; 7] 3 [1; 3; 6]).
  vm_compute. reflexivity.
Defined.

(** X5: downsampling what [downsample] returned, to the same cap, changes
    nothing. *)
Theorem downsample_idempotent (values : list Z) (cap : Z) (points : list Z) :
  downsample values cap = Ok points -> downsample points cap = Ok points.
Proof.
  intros H. pose proof (downsample_points_length values cap points H) as HL.
  pose proof (py_len_nonneg values) as H0.
  unfold downsample in H |- *.
  destruct (Z.leb_spec (py_len values) cap) as [Le | Gt].
  - injection H as <-.
    replace (py_len values <=? cap) with true by (symmetry; apply Z.leb_le; exact Le).
    reflexivity.
  - destruct (Z.leb_spec (py_len points) cap) as [Le' | Gt']; [reflexivity|].
    assert (cap < 0) as Hneg by lia.
    assert (points = []) as ->.
    { destruct points; [reflexivity|]. unfold py_len in HL. cbn [List.length] in HL. lia. }
    destruct cap as [|p|p]; try lia. reflexivity.
Qed.

Lemma downsample_idempotent_witness :
  downsample [1; 3; 6] 3 = Ok [1; 3; 6].
Proof.
  apply (downsample_idempotent [1; 2; 3; 4; 5; 6; 7] 3 [1; 3; 6]).
  vm_compute. reflexivity.
Defined.

(** The loop of [downsample], split into the bounds, which depend on the
    length only, and the averages. *)
Lemma bucket_points_split values n cap step l points :
  F64.int_truediv n cap = Ok step ->
  mapM (bucket_point values step) l = Ok points ->
  exists bounds,
    mapM (bucket n cap) l = Ok bounds /\
    Forall (fun se => snd se - fst se <> 0) bounds /\
    points = map (bucket_average values) bounds.
Proof.
  intros Hstep. revert points.
  induction l as [|i l IH]; intros points H; cbn [mapM] in H |- *.
  - injection H as <-. exists []. split; [reflexivity|]. split; [constructor | reflexivity].
  - destruct (bucket_point values step i) as [p|e] eqn:Ep; cbn [bind] in H; [|discriminate].
    destruct (mapM (bucket_point values step) l) as [ps|e] eqn:El; cbn [bind] in H;
      [|discriminate].
    injection H as <-. destruct (IH ps eq_refl) as (bounds & Hb & Hnz & ->).
    unfold bucket_point in Ep. unfold bucket at 1. rewrite Hstep. cbn [bind].
    destruct (boundary step i) as [s|e]; cbn [bind] in Ep |- *; [|discriminate].
    destruct (boundary step (i + 1)) as [e'|e]; cbn [bind] in Ep |- *; [|discriminate].
    unfold py_floordiv in Ep.
    destruct (Z.eqb_spec (e' - s) 0) as [E0 | N0]; [discriminate|].
    injection Ep as <-. rewrite Hb. cbn [bind].
    exists ((s, e') :: bounds). split; [reflexivity|].
    split; [constructor; [exact N0 | exact Hnz] | reflexivity].
Qed.

Lemma bucket_points_join values n cap step l bounds :
  F64.int_truediv n cap = Ok step ->
  mapM (bucket n cap) l = Ok bounds ->
  Forall (fun se => snd se - fst se <> 0) bounds ->
  mapM (bucket_point values step) l = Ok (map (bucket_average values) bounds).
Proof.
  intros Hstep. revert bounds.
  induction l as [|i l IH]; intros bounds H Hnz; cbn [mapM] in H |- *.
  - injection H as <-. reflexivity.
  - destruct (bucket n cap i) as [se|e] eqn:Eb; cbn [bind] in H; [|discriminate].
    destruct (mapM (bucket n cap) l) as [bs|e] eqn:El; cbn [bind] in H; [|discriminate].
    injection H as <-. inversion Hnz as [|? ? N0 Hnz']; subst.
    rewrite (IH bs eq_refl Hnz').
    unfold bucket in Eb. rewrite Hstep in Eb. cbn [bind] in Eb.
    unfold bucket_point.
    destruct (boundary step i) as [s|e]; cbn [bind] in Eb |- *; [|discriminate].
    destruct (boundary step (i + 1)) as [e'|e]; cbn [bind] in Eb |- *; [|discriminate].
    injection Eb as <-. cbn [fst snd] in N0.
    unfold py_floordiv.
    replace (e' - s =? 0) with false by (symmetry; apply Z.eqb_neq; exact N0).
    reflexivity.
Qed.

(** X6: the buckets depend on the length of the list and on the cap only.
    When [downsample] returns for a list longer than the cap, its points
    are the floor averages over the bounds that [bucket] computes, and
    every list of the same length is cut at the same bounds: point [j] of
    every series of a chart covers the same rows as point [j] of its
    ticks. *)
Theorem downsample_same_buckets (values others : list Z) (cap : Z) (points : list Z) :
  cap < py_len values ->
  py_len others = py_len values ->
  downsample values cap = Ok points ->
  exists bounds,
    mapM (bucket (py_len values) cap) (py_range cap) = Ok bounds /\
    points = map (bucket_average values) bounds /\
    downsample others cap = Ok (map (bucket_average others) bounds).
Proof.
  intros Hc Hlen H. unfold downsample in H |- *. rewrite Hlen.
  replace (py_len values <=? cap) with false in * by (symmetry; apply Z.leb_gt; exact Hc).
  destruct (F64.int_truediv (py_len values) cap) as [step|e] eqn:Es; cbn [bind] in H |- *;
    [|discriminate].
  destruct (bucket_points_split _ _ _ _ _ _ Es H) as (bounds & Hb & Hnz & ->).
  exists bounds. split; [exact Hb|]. split; [reflexivity|].
  apply (bucket_points_join others _ _ _ _ _ Es Hb Hnz).
Qed.

Lemma downsample_same_buckets_witness :
  exists bounds,
    mapM (bucket (py_len [1; 2; 3; 4; 5; 6; 7]) 3) (py_range 3) = Ok bounds /\
    [1; 3; 6] = map (bucket_average [1; 2; 3; 4; 5; 6; 7]) bounds /\
    downsample [10; 10; 20; 20; 30; 30; 90] 3
    = Ok (map (bucket_average [10; 10; 20; 20; 30; 30; 90]) bounds).
Proof.
  apply (downsample_same_buckets [1; 2; 3; 4; 5; 6; 7] [10; 10; 20; 20; 30; 30; 90] 3 [1; 3; 6]).
  - vm_compute. reflexivity.
  - reflexivity.
  - vm_compute. reflexivity.
Defined.

(** X7: with [1 <= cap < len(values) <= 2^51], the buckets start at 0,
    follow one another without gap or overlap, are non-empty, and the last
    one ends at [len(values)] or at [len(values) - 1]: the rounding of the
    step costs at most the last value. *)
Theorem downsample_drops_at_most_last (values : list Z) (cap : Z) :
  1 <= cap < py_len values -> py_len values <= max_len ->
  exists b : Z -> Z,
    b 0 = 0 /\
    (forall i, 0 <= i < cap -> b i < b (i + 1)) /\
    py_len values - 1 <= b cap <= py_len values /\
    (forall i, 0 <= i < cap -> bucket (py_len values) cap i = Ok (b i, b (i + 1))) /\
    downsample values cap
    = Ok (map (fun i => bucket_average values (b i, b (i + 1))) (py_range cap)).
Proof.
  intros Hc Hn.
  destruct (downsample_buckets values cap Hc Hn) as (b & Hb0 & Hstrict & Hcap & Hbucket & Hdown).
  destruct (last_boundary (py_len values) cap Hc Hn) as (step & e & Hstep & He & Hrange).
  exists b. split; [exact Hb0|]. split; [exact Hstrict|].
  split; [|split; [exact Hbucket | exact Hdown]].
  pose proof (Hbucket (cap - 1) ltac:(lia)) as Hlast.
  unfold bucket in Hlast. rewrite Hstep in Hlast. cbn [bind] in Hlast.
  destruct (boundary step (cap - 1)) as [s|x]; cbn [bind] in Hlast; [|discriminate].
  replace (cap - 1 + 1) with cap in Hlast by lia.
  rewrite He in Hlast. cbn [bind] in Hlast. injection Hlast as _ <-. exact Hrange.
Qed.

Lemma downsample_drops_at_most_last_witness :
  exists b : Z -> Z,
    b 0 = 0 /\
    (forall i, 0 <= i < 7 -> b i < b (i + 1)) /\
    py_len (repeat 1 61) - 1 <= b 7 <= py_len (repeat 1 61) /\
    (forall i, 0 <= i < 7 -> bucket (py_len (repeat 1 61)) 7 i = Ok (b i, b (i + 1))) /\
    downsample (repeat 1 61) 7
    = Ok (map (fun i => bucket_average (repeat 1 61) (b i, b (i + 1))) (py_range 7)).
Proof.
  apply (downsample_drops_at_most_last (repeat 1 61) 7).
  - vm_compute. split; [discriminate | reflexivity].
  - vm_compute. discriminate.
Defined.

(** ** The downsampler when the cap divides the length *)

Lemma new_location_zero c : new_location c 0 = loc_Exact.
Proof. unfold new_location. destruct (Z.even c); reflexivity. Qed.

(** The step is exact when [cap] divides [n]. *)
Lemma int_truediv_exact n cap : 1 <= cap <= n -> n < 2 ^ 53 -> (cap | n) ->
  exists ms es,
    F64.int_truediv n cap = Ok (S754_finite false ms es) /\
    2 ^ 52 <= Zpos ms < 2 ^ 53 /\ -52 <= es <= 1 /\
    Zpos ms * 2 ^ (es + frac_bits) = n / cap * 2 ^ frac_bits.
Proof.
  intros Hc Hn [d ->].
  destruct (int_truediv_structure (d * cap) cap Hc Hn)
    as (ms & es & s & k & R & Hdiv & Hms & Hes & Hs & Hk & Ek & Hq1 & HR & _ & Hsig).
  exists ms, es. split; [exact Hdiv|]. split; [exact Hms|]. split; [exact Hes|].
  rewrite Hsig. rewrite Z.div_mul by lia.
  assert (d * cap * 2 ^ s = d * 2 ^ s * cap) as E1 by ring.
  rewrite E1, Z.mod_mul, Z.div_mul, new_location_zero in HR by lia.
  cbn [shr_record_of_loc] in HR. cbv zeta in HR.
  assert (0 < 2 ^ s) as Hps by (apply Z.pow_pos_nonneg; lia).
  assert (0 <= d * 2 ^ s) as Hnn by nia.
  assert (R * 2 ^ k = d * 2 ^ s) as ER.
  { destruct (Z.eq_dec k 0) as [-> | Nk].
    - cbn in HR. change (2 ^ 0) with 1. lia.
    - assert (k = 1) as -> by lia.
      change (Z.to_nat 1) with 1%nat in HR.
      pose proof (round_shifted_exact 0 (d * 2 ^ s) Hnn) as HX. cbv zeta in HX.
      rewrite <- HR in HX. change (Z.of_nat 1) with 1 in HX.
      rewrite rne_at_multiple in HX.
      + lia.
      + change (2 ^ 1) with 2. lia.
      + exists (d * 2 ^ (s - 1)). rewrite (pow2_split s 1) by lia. ring. }
  rewrite ER. rewrite <- Z.mul_assoc. f_equal.
  symmetry. apply pow2_split. unfold frac_bits. lia.
Qed.

(** An integer below [2^53] is not changed by the rounding. *)
Lemma rnd_exact m : 1 <= m < 2 ^ 53 -> rnd (m * 2 ^ frac_bits) = m * 2 ^ frac_bits.
Proof.
  intros Hm. unfold rnd.
  assert (0 <= Z.log2 m) as HL0 by apply Z.log2_nonneg.
  assert (Z.log2 m < 53) as HL by (apply log2_lt; lia).
  rewrite Z.log2_mul_pow2 by (unfold frac_bits; lia).
  apply rne_at_multiple.
  - apply Z.pow_pos_nonneg; unfold frac_bits; lia.
  - apply Z.divide_mul_r. apply pow2_divide. unfold frac_bits. lia.
Qed.

(** With an exact step, the bounds are the exact multiples of the step. *)
Lemma boundary_exact n cap i : 1 <= cap <= n -> n < 2 ^ 53 -> (cap | n) ->
  0 <= i <= cap ->
  exists step,
    F64.int_truediv n cap = Ok step /\ boundary step i = Ok (exact_boundary n cap i).
Proof.
  intros Hc Hn Hd Hi.
  destruct (int_truediv_exact n cap Hc Hn Hd) as (ms & es & Hdiv & Hms & Hes & Hsig).
  exists (S754_finite false ms es). split; [exact Hdiv|].
  destruct Hd as [d ->]. rewrite Z.div_mul in Hsig by lia.
  unfold exact_boundary. rewrite Z.mul_assoc, Z.div_mul by lia.
  destruct (Z.eq_dec i 0) as [-> | Ni]; [apply boundary_zero|].
  assert (1 <= d) by nia.
  rewrite boundary_rnd by lia. rewrite Hsig, Z.mul_assoc.
  rewrite rnd_exact by nia.
  rewrite Z.div_mul; [reflexivity|].
  apply Z.pow_nonzero; unfold frac_bits; lia.
Qed.

(** X8: when the cap divides the length (below [2^53]), the step and all
    the products [i * step] are exact: [downsample] returns the points of
    the exact partition, every bucket holding [len(values) / cap] values
    and the last one ending at [len(values)]. *)
Theorem downsample_exact_when_divisible (values : list Z) (cap : Z) :
  1 <= cap < py_len values -> py_len values < 2 ^ 53 -> (cap | py_len values) ->
  downsample values cap = Ok (exact_downsample values cap) /\
  (forall i, 0 <= i < cap ->
     bucket (py_len values) cap i
     = Ok (i * (py_len values / cap), (i + 1) * (py_len values / cap))).
Proof.
  intros Hc Hn Hd.
  destruct (boundary_exact (py_len values) cap 0 ltac:(lia) Hn Hd ltac:(lia)) as (step & Hdiv & _).
  assert (forall i, 0 <= i <= cap ->
            boundary step i = Ok (exact_boundary (py_len values) cap i)) as Hb.
  { intros i Hi.
    destruct (boundary_exact (py_len values) cap i ltac:(lia) Hn Hd Hi) as (step' & Hdiv' & Hb).
    rewrite Hdiv in Hdiv'. injection Hdiv' as <-. exact Hb. }
  assert (forall i, exact_boundary (py_len values) cap i = i * (py_len values / cap)) as Hex.
  { intros i. unfold exact_boundary. destruct Hd as [d Ed]. rewrite Ed.
    rewrite Z.mul_assoc, !Z.div_mul by lia. reflexivity. }
  assert (1 <= py_len values / cap) as Hq.
  { apply Z.div_le_lower_bound; lia. }
  split.
  - unfold downsample, exact_downsample.
    replace (py_len values <=? cap) with false by (symmetry; apply Z.leb_gt; lia).
    rewrite Hdiv. cbn [bind]. apply mapM_ok.
    intros i Hi. apply in_py_range in Hi.
    unfold bucket_point. rewrite !Hb by lia. cbn [bind]. unfold py_floordiv.
    replace (exact_boundary (py_len values) cap (i + 1) - exact_boundary (py_len values) cap i =? 0)
      with false; [reflexivity|].
    symmetry. apply Z.eqb_neq. rewrite !Hex. lia.
  - intros i Hi. unfold bucket. rewrite Hdiv. cbn [bind].
    rewrite !Hb by lia. cbn [bind]. rewrite !Hex. reflexivity.
Qed.

Lemma downsample_exact_when_divisible_witness :
  downsample [1; 2; 3; 4; 5; 6] 3 = Ok (exact_downsample [1; 2; 3; 4; 5; 6] 3) /\
  (forall i, 0 <= i < 3 ->
     bucket (py_len [1; 2; 3; 4; 5; 6]) 3 i
     = Ok (i * (py_len [1; 2; 3; 4; 5; 6] / 3), (i + 1) * (py_len [1; 2; 3; 4; 5; 6] / 3))).
Proof.
  apply (downsample_exact_when_divisible [1; 2; 3; 4; 5; 6] 3).
  - vm_compute. split; [discriminate | reflexivity].
  - vm_compute. reflexivity.
  - exists 2. reflexivity.
Defined.

(** ** The downsampler keeps the order of a sorted series *)

Lemma sorted_by_adjacent r l :
  sorted_by r l = true <->
  forall i, (S i < List.length l)%nat -> r (nth i l 0) (nth (S i) l 0) = true.
Proof.
  induction l as [|a l IH]; [cbn; split; [intros _ i Hi; lia | reflexivity]|].
  destruct l as [|b l].
  - cbn. split; [intros _ i Hi; lia | reflexivity].
  - change (sorted_by r (a :: b :: l)) with (r a b && sorted_by r (b :: l))%bool.
    rewrite andb_true_iff, IH. split.
    + intros [Hab Hrest] i Hi. destruct i as [|i]; [exact Hab|].
      apply (Hrest i). cbn [List.length] in Hi |- *. lia.
    + intros H. split; [exact (H 0%nat ltac:(cbn [List.length]; lia))|].
      intros i Hi. apply (H (S i)). cbn [List.length] in Hi |- *. lia.
Qed.

Lemma sorted_by_nth_le r l :
  (forall a b, r a b = true -> a <= b) ->
  sorted_by r l = true ->
  forall i j, (i <= j < List.length l)%nat -> nth i l 0 <= nth j l 0.
Proof.
  intros Hle H i j Hij. rewrite sorted_by_adjacent in H.
  replace j with (i + (j - i))%nat by lia.
  assert (i + (j - i) < List.length l)%nat as Hj by lia.
  induction (j - i)%nat as [|d IH].
  - rewrite Nat.add_0_r. lia.
  - specialize (IH ltac:(lia)).
    pose proof (Hle _ _ (H (i + d)%nat ltac:(lia))) as Hstep.
    replace (i + S d)%nat with (S (i + d)) by lia. lia.
Qed.

(** The values of a slice of a sorted list lie between its first and its
    last value. *)
Lemma sorted_slice_bounds r values s e :
  (forall a b, r a b = true -> a <= b) ->
  sorted_by r values = true ->
  0 <= s < e -> e <= py_len values ->
  Forall (fun v => nth (Z.to_nat s) values 0 <= v <= nth (Z.to_nat (e - 1)) values 0)
         (py_slice values s e).
Proof.
  intros Hle H Hs He.
  destruct (py_slice_inner values s e ltac:(lia) He) as [-> _].
  apply Forall_forall. intros x Hx.
  apply (In_nth _ _ 0) in Hx. destruct Hx as (k & Hk & <-).
  rewrite length_firstn, length_skipn in Hk. unfold py_len in He.
  rewrite nth_firstn.
  replace (k <? Z.to_nat (e - s))%nat with true by (symmetry; apply Nat.ltb_lt; lia).
  rewrite nth_skipn.
  split; apply (sorted_by_nth_le r values Hle H); lia.
Qed.

Lemma slice_average_bounds lo hi values s e :
  Forall (fun v => lo <= v <= hi) (py_slice values s e) ->
  0 <= s < e -> e <= py_len values ->
  lo <= py_sum (py_slice values s e) / (e - s) <= hi.
Proof.
  intros H Hs He.
  pose proof (fold_left_add_bounds lo hi (py_slice values s e) 0 H) as B.
  destruct (py_slice_inner values s e ltac:(lia) He) as [_ HL].
  unfold py_len in HL. rewrite HL in B. fold (py_sum (py_slice values s e)) in B.
  split.
  - apply Z.div_le_lower_bound; lia.
  - apply Z.div_le_upper_bound; lia.
Qed.

Lemma nth_map_range (g : Z -> Z) n i : (i < n)%nat ->
  nth i (map g (range_from 0 n)) 0 = g (Z.of_nat i).
Proof.
  intros Hi.
  rewrite (nth_indep _ 0 (g 0)) by (rewrite length_map, length_range_from; exact Hi).
  rewrite map_nth, nth_range_from by exact Hi. reflexivity.
Qed.

(** The averages over adjacent non-empty buckets of a sorted list are
    sorted the same way. *)
Lemma averages_sorted r values (b : Z -> Z) cap :
  (forall a b, r a b = true -> a <= b) ->
  (forall a b c d, a <= b -> r b c = true -> c <= d -> r a d = true) ->
  sorted_by r values = true ->
  b 0 = 0 -> (forall i, 0 <= i < cap -> b i < b (i + 1)) -> b cap <= py_len values ->
  sorted_by r (map (fun i => py_sum (py_slice values (b i) (b (i + 1))) / (b (i + 1) - b i))
                   (py_range cap)) = true.
Proof.
  intros Hle Htrans H Hb0 Hstrict Hcap.
  pose proof (boundaries_mono b cap Hstrict) as Hmono.
  apply sorted_by_adjacent. intros i Hi.
  unfold py_range, py_range2 in *. rewrite length_map, length_range_from in Hi.
  rewrite !nth_map_range by lia.
  set (j := Z.of_nat i). assert (0 <= j /\ j + 1 < cap) as Hj by lia.
  replace (Z.of_nat (S i)) with (j + 1) by lia.
  pose proof (Hstrict j ltac:(lia)) as S1.
  pose proof (Hstrict (j + 1) ltac:(lia)) as S2.
  pose proof (Hmono 0 j ltac:(lia) ltac:(lia)) as M1.
  pose proof (Hmono (j + 1 + 1) cap ltac:(lia) ltac:(lia)) as M2.
  pose proof (slice_average_bounds _ _ values (b j) (b (j + 1))
                (sorted_slice_bounds r values (b j) (b (j + 1)) Hle H ltac:(lia) ltac:(lia))
                ltac:(lia) ltac:(lia)) as [_ A1].
  pose proof (slice_average_bounds _ _ values (b (j + 1)) (b (j + 1 + 1))
                (sorted_slice_bounds r values (b (j + 1)) (b (j + 1 + 1)) Hle H
                   ltac:(lia) ltac:(lia))
                ltac:(lia) ltac:(lia)) as [A2 _].
  eapply Htrans; [exact A1 | | exact A2].
  rewrite sorted_by_adjacent in H.
  replace (Z.to_nat (b (j + 1))) with (S (Z.to_nat (b (j + 1) - 1))) by lia.
  apply H. unfold py_len in *. lia.
Qed.

(** X9: a sorted series stays sorted.  For [cap >= 1] and at most [2^51]
    values, [downsample] returns, its points are non-decreasing when the
    values are, and strictly increasing when the values are: the ticks of
    a chart stay in order, without repetition. *)
Theorem downsample_keeps_order (values : list Z) (cap : Z) :
  1 <= cap -> py_len values <= max_len ->
  exists points,
    downsample values cap = Ok points /\
    (nondecreasing values = true -> nondecreasing points = true) /\
    (increasing values = true -> increasing points = true).
Proof.
  intros Hc Hn.
  destruct (Z.le_gt_cases (py_len values) cap) as [Le | Gt].
  - exists values. split; [|split; intros H; exact H].
    unfold downsample.
    replace (py_len values <=? cap) with true by (symmetry; apply Z.leb_le; exact Le).
    reflexivity.
  - destruct (downsample_buckets values cap ltac:(lia) Hn)
      as (b & Hb0 & Hstrict & Hcap & _ & Hdown).
    eexists. split; [exact Hdown|]. split; intros H.
    + apply averages_sorted; try assumption.
      * intros x y Hxy. apply Z.leb_le. exact Hxy.
      * intros x y z t Hxy Hyz Hzt. apply Z.leb_le in Hyz. apply Z.leb_le. lia.
    + apply averages_sorted; try assumption.
      * intros x y Hxy. apply Z.ltb_lt in Hxy. lia.
      * intros x y z t Hxy Hyz Hzt. apply Z.ltb_lt in Hyz. apply Z.ltb_lt. lia.
Qed.

Lemma downsample_keeps_order_witness :
  exists points,
    downsample [0; 10; 20; 30; 40; 50; 60] 3 = Ok points /\
    nondecreasing points = true /\ increasing points = true.
Proof.
  destruct (downsample_keeps_order [0; 10; 20; 30; 40; 50; 60] 3) as (points & H & Hnd & Hinc).
  - lia.
  - vm_compute. discriminate.
  - exists points. split; [exact H|].
    split; [apply Hnd; reflexivity | apply Hinc; reflexivity].
Defined.

(** ** The text renderer *)

(** With [cap >= 1] and at most [2^51] values, [downsample] returns. *)
Lemma downsample_total values cap : 1 <= cap -> py_len values <= max_len ->
  exists points,
    downsample values cap = Ok points /\ py_len points = Z.min (py_len values) cap.
Proof.
  intros Hc Hn.
  assert (exists points, downsample values cap = Ok points) as [points H].
  { destruct (Z.le_gt_cases (py_len values) cap) as [Le | Gt].
    - exists values. unfold downsample.
      replace (py_len values <=? cap) with true by (symmetry; apply Z.leb_le; exact Le).
      reflexivity.
    - destruct (downsample_buckets values cap ltac:(lia) Hn) as (b & _ & _ & _ & _ & Hdown).
      eexists. exact Hdown. }
  exists points. split; [exact H|].
  rewrite (downsample_points_length values cap points H). lia.
Qed.

Lemma series_lines_total (series : list (string * list Z)) :
  Forall (fun s => py_len (snd s) <= max_len) series ->
  exists ys,
    mapM (fun s : string * list Z =>
            y_down <- downsample (snd s) default_max_points ;;
            Ok (line_directive y_down)) series = Ok (map line_directive ys) /\
    Forall2 (fun s y => downsample (snd s) default_max_points = Ok y /\
                        py_len y = Z.min (py_len (snd s)) default_max_points) series ys.
Proof.
  intros H. induction H as [|s series Hs _ (ys & Hm & Hys)].
  - exists []. split; [reflexivity | constructor].
  - destruct (downsample_total (snd s) default_max_points ltac:(unfold default_max_points; lia) Hs)
      as (y & Hy & Hlen).
    exists (y :: ys). split.
    + cbn [mapM map]. rewrite Hy. cbn [bind]. rewrite Hm. reflexivity.
    + constructor; [split; assumption | exact Hys].
Qed.

(** The points of [downsample] lie between any bounds of the values. *)
Lemma downsample_bounded lo hi values cap points :
  1 <= cap -> py_len values <= max_len ->
  Forall (fun v => lo <= v <= hi) values ->
  downsample values cap = Ok points ->
  Forall (fun y => lo <= y <= hi) points.
Proof.
  intros Hc Hn Hb H.
  destruct (Z.le_gt_cases (py_len values) cap) as [Le | Gt].
  - unfold downsample in H.
    replace (py_len values <=? cap) with true in H by (symmetry; apply Z.leb_le; exact Le).
    injection H as <-. exact Hb.
  - destruct (downsample_buckets values cap ltac:(lia) Hn)
      as (b & Hb0 & Hstrict & Hcap & _ & Hdown).
    pose proof (boundaries_mono b cap Hstrict) as Hmono.
    rewrite Hdown in H. injection H as <-.
    apply Forall_forall. intros y Hy. apply in_map_iff in Hy.
    destruct Hy as (i & <- & Hi). apply in_py_range in Hi.
    pose proof (Hmono 0 i ltac:(lia) ltac:(lia)).
    pose proof (Hmono (i + 1) cap ltac:(lia) ltac:(lia)).
    specialize (Hstrict i Hi).
    apply bucket_average_bounds; [exact Hb | lia | lia].
Qed.

Lemma printable_bounds values :
  forallb printable values = true <->
  Forall (fun v => - (10 ^ max_str_digits - 1) <= v <= 10 ^ max_str_digits - 1) values.
Proof.
  rewrite forallb_forall, Forall_forall. unfold printable.
  generalize (10 ^ max_str_digits) as L. intros L.
  split; intros H v Hv; specialize (H v Hv).
  - apply Z.ltb_lt in H. lia.
  - apply Z.ltb_lt. lia.
Qed.

(** Downsampling printable values gives printable points: an average has
    no more digits than the longest value. *)
Lemma downsample_printable values cap points :
  1 <= cap -> py_len values <= max_len ->
  forallb printable values = true ->
  downsample values cap = Ok points ->
  forallb printable points = true.
Proof.
  intros Hc Hn Hp H. apply printable_bounds.
  apply (downsample_bounded _ _ values cap points Hc Hn); [|exact H].
  apply printable_bounds. exact Hp.
Qed.

(** X10: on lists of at most [2^51] values, each of at most 4300 digits (so
    that [str] converts it), [xychart] returns a block: the four header
    lines, one [line] directive per series in the order of the series, and
    the closing fence.  The axis holds [min(len, 30)] ticks and every
    directive [min(len, 30)] points of its series, and every number
    written has at most 4300 digits: no call of [str] exceeds the limit. *)
Theorem xychart_block (title : string) (x_values : list Z)
    (series : list (string * list Z)) (x_label y_label : string) :
  py_len x_values <= max_len ->
  Forall (fun s => py_len (snd s) <= max_len) series ->
  forallb printable x_values = true ->
  forallb (fun s => forallb printable (snd s)) series = true ->
  exists x_down ys,
    xychart title x_values series x_label y_label
    = Ok (String.concat newline
            (chart_header title x_label x_down ++ map line_directive ys ++ ["```"%string])) /\
    downsample x_values default_max_points = Ok x_down /\
    py_len x_down = Z.min (py_len x_values) default_max_points /\
    forallb printable x_down = true /\
    Forall2 (fun s y => downsample (snd s) default_max_points = Ok y /\
                        py_len y = Z.min (py_len (snd s)) default_max_points /\
                        forallb printable y = true) series ys.
Proof.
  intros Hx Hs Hpx Hps.
  assert (1 <= default_max_points) as H30 by (unfold default_max_points; lia).
  destruct (downsample_total x_values default_max_points H30 Hx) as (x_down & Hxd & Hlen).
  destruct (series_lines_total series Hs) as (ys & Hm & Hys).
  exists x_down, ys. unfold xychart. rewrite Hxd. cbn [bind]. rewrite Hm. cbn [bind].
  split; [reflexivity|]. split; [reflexivity|]. split; [exact Hlen|].
  split; [exact (downsample_printable _ _ _ H30 Hx Hpx Hxd)|].
  clear Hm. induction Hys as [|s y series ys [Hy Hly] _ IH]; [constructor|].
  inversion Hs as [|? ? Hs1 Hs2]; subst.
  cbn [forallb] in Hps. apply andb_true_iff in Hps. destruct Hps as [Hp1 Hp2].
  constructor; [|exact (IH Hs2 Hp2)].
  split; [exact Hy|]. split; [exact Hly|].
  exact (downsample_printable _ _ _ H30 Hs1 Hp1 Hy).
Qed.

Lemma xychart_block_witness :
  exists x_down ys,
    xychart "Population" (map Z.of_nat (seq 0 100)) [("alive"%string, repeat 7 100)] "tick" "count"
    = Ok (String.concat newline
            (chart_header "Population" "tick" x_down ++ map line_directive ys
             ++ ["```"%string])) /\
    downsample (map Z.of_nat (seq 0 100)) default_max_points = Ok x_down /\
    py_len x_down = Z.min (py_len (map Z.of_nat (seq 0 100))) default_max_points /\
    forallb printable x_down = true /\
    Forall2 (fun s y => downsample (snd s) default_max_points = Ok y /\
                        py_len y = Z.min (py_len (snd s)) default_max_points /\
                        forallb printable y = true)
            [("alive"%string, repeat 7 100)] ys.
Proof.
  apply (xychart_block "Population" (map Z.of_nat (seq 0 100))
           [("alive"%string, repeat 7 100)] "tick" "count").
  - vm_compute. discriminate.
  - constructor; [vm_compute; discriminate | constructor].
  - vm_compute. reflexivity.
  - vm_compute. reflexivity.
Defined.

Lemma mapM_map {A B C} (h : A -> B) (f : B -> result C) l :
  mapM (fun a => f (h a)) l = mapM f (map h l).
Proof.
  induction l as [|a l IH]; cbn [mapM map]; [reflexivity|]. rewrite IH. reflexivity.
Qed.

(** X11: the block does not depend on the names of the series nor on the
    [y_label]: two calls that differ in them only return the same text (or
    raise the same exception). *)
Theorem xychart_ignores_labels (title : string) (x_values : list Z)
    (series series' : list (string * list Z)) (x_label y_label y_label' : string) :
  map snd series = map snd series' ->
  xychart title x_values series x_label y_label
  = xychart title x_values series' x_label y_label'.
Proof.
  intros H. unfold xychart.
  rewrite (mapM_map snd (fun v => y_down <- downsample v default_max_points ;;
                                  Ok (line_directive y_down)) series).
  rewrite (mapM_map snd (fun v => y_down <- downsample v default_max_points ;;
                                  Ok (line_directive y_down)) series').
  rewrite H. reflexivity.
Qed.

Lemma xychart_ignores_labels_witness :
  xychart "Economy" [0; 1; 2] [("trades"%string, [0; 3; 3]); ("teaches"%string, [0; 1; 1])]
          "tick" "count"
  = xychart "Economy" [0; 1; 2] [("a"%string, [0; 3; 3]); ("b"%string, [0; 1; 1])]
            "tick" "value".
Proof.
  apply (xychart_ignores_labels "Economy" [0; 1; 2]
           [("trades"%string, [0; 3; 3]); ("teaches"%string, [0; 1; 1])]
           [("a"%string, [0; 3; 3]); ("b"%string, [0; 1; 1])] "tick" "count" "value").
  reflexivity.
Defined.

(** ** [main]: what is written, and in which order *)

(** The body shared by all the loops of [main]: compute the chart of a
    request, write it and an empty line. *)
Lemma io_for_ext {A} (l : list A) (f g : A -> io unit) :
  (forall a out, f a out = g a out) -> forall out, io_for l f out = io_for l g out.
Proof.
  intros H. induction l as [|a l IH]; intros out; cbn [io_for]; [reflexivity|].
  unfold io_bind. rewrite H. destruct (g a out) as [o [[]|e]]; [apply IH | reflexivity].
Qed.

Lemma io_for_map {A B} (h : A -> B) (l : list A) (body : B -> io unit) out :
  io_for (map h l) body out = io_for l (fun x => body (h x)) out.
Proof.
  revert out. induction l as [|a l IH]; intros out; cbn [io_for map]; [reflexivity|].
  unfold io_bind. destruct (body (h a) out) as [o [[]|e]]; [apply IH | reflexivity].
Qed.

Lemma io_for_app {A} (l l' : list A) (body : A -> io unit) out :
  io_for (l ++ l') body out
  = match io_for l body out with
    | (o, Ok _) => io_for l' body o
    | (o, Raise e) => (o, Raise e)
    end.
Proof.
  revert out. induction l as [|a l IH]; intros out; cbn [io_for app]; [reflexivity|].
  unfold io_bind. destruct (body a out) as [o [[]|e]]; [apply IH | reflexivity].
Qed.

Lemma render_metric_chart cols ticks m out :
  render_metric cols ticks m out
  = match chart_of cols ticks (Metric m) with
    | Ok chart => ((out ++ block chart)%list, Ok tt)
    | Raise e => (out, Raise e)
    end.
Proof.
  destruct m as [[title col] ylabel]. unfold render_metric, chart_of, io_bind, io_lift.
  destruct (dict_get cols (Some col)) as [values|e]; cbn [bind]; [|reflexivity].
  destruct (xychart title ticks [(col, values)] "tick" ylabel) as [chart|e]; [|reflexivity].
  unfold print, block. cbn [String.append]. rewrite <- app_assoc. reflexivity.
Qed.

Lemma render_composite_chart cols ticks c out :
  render_composite cols ticks c out
  = match chart_of cols ticks (Composite c) with
    | Ok chart => ((out ++ block chart)%list, Ok tt)
    | Raise e => (out, Raise e)
    end.
Proof.
  unfold render_composite, chart_of, io_bind, io_lift.
  destruct (composite_chart cols ticks c) as [chart|e]; [|reflexivity].
  unfold print, block. cbn [String.append]. rewrite <- app_assoc. reflexivity.
Qed.

(** Writing the charts of a list of requests, up to the first that
    fails. *)
Lemma write_requests_ok cols ticks (rs : list request) charts out :
  mapM (chart_of cols ticks) rs = Ok charts ->
  io_for rs (fun r out =>
               match chart_of cols ticks r with
               | Ok chart => ((out ++ block chart)%list, Ok tt)
               | Raise e => (out, Raise e)
               end) out
  = ((out ++ flat_map block charts)%list, Ok tt).
Proof.
  revert charts out. induction rs as [|r rs IH]; intros charts out H; cbn [mapM] in H.
  - injection H as <-. cbn [io_for flat_map]. unfold io_ret. rewrite app_nil_r. reflexivity.
  - destruct (chart_of cols ticks r) as [chart|e] eqn:E; cbn [bind] in H; [|discriminate].
    destruct (mapM (chart_of cols ticks) rs) as [cs|e]; cbn [bind] in H; [|discriminate].
    injection H as <-. cbn [io_for]. unfold io_bind. rewrite E.
    rewrite (IH cs _ eq_refl). cbn [flat_map]. rewrite <- app_assoc. reflexivity.
Qed.

Lemma write_requests_raise cols ticks (done rest : list request) r charts e out :
  mapM (chart_of cols ticks) done = Ok charts ->
  chart_of cols ticks r = Raise e ->
  io_for (done ++ r :: rest)
         (fun r out =>
            match chart_of cols ticks r with
            | Ok chart => ((out ++ block chart)%list, Ok tt)
            | Raise e => (out, Raise e)
            end) out
  = ((out ++ flat_map block charts)%list, Raise e).
Proof.
  intros Hd Hr. rewrite io_for_app, (write_requests_ok _ _ _ _ _ Hd).
  cbn [io_for]. unfold io_bind. rewrite Hr. reflexivity.
Qed.

Lemma io_for_selection cols ticks keys out :
  render_selection cols ticks keys out
  = io_for (flat_map (fun k => match catalog_find_text METRIC_GROUPS (py_strip k) with
                               | Some m => [Metric m]
                               | None => []
                               end) keys)
           (fun r out =>
              match chart_of cols ticks r with
              | Ok chart => ((out ++ block chart)%list, Ok tt)
              | Raise e => (out, Raise e)
              end) out.
Proof.
  unfold render_selection. revert out.
  induction keys as [|k keys IH]; intros out; cbn [io_for flat_map]; [reflexivity|].
  destruct (catalog_find_text METRIC_GROUPS (py_strip k)) as [m|].
  - cbn [app io_for]. unfold io_bind. rewrite render_metric_chart.
    destruct (chart_of cols ticks (Metric m)); [apply IH | reflexivity].
  - cbn [app]. unfold io_bind, io_ret. apply IH.
Qed.

(** [main] after a successful load: the preamble, then the loop over the
    requests. *)
Lemma main_as_requests parse_int a rows cols ticks out :
  load_csv parse_int rows = Ok cols ->
  dict_get cols (Some "tick"%string) = Ok ticks ->
  main parse_int a rows out
  = io_for (requests a)
           (fun r out =>
              match chart_of cols ticks r with
              | Ok chart => ((out ++ block chart)%list, Ok tt)
              | Raise e => (out, Raise e)
              end) (out ++ preamble a)%list.
Proof.
  intros Hload Htick. unfold main, io_bind at 1 2, io_lift. rewrite Hload, Htick.
  unfold io_bind at 1.
  assert ((if flowchart_flag a then io_bind (print flowchart) (fun _ => print "") else io_ret tt) out
          = ((out ++ preamble a)%list, Ok tt)) as ->.
  { unfold preamble. destruct (flowchart_flag a).
    - unfold io_bind, print, block. cbn [String.append]. rewrite <- app_assoc. reflexivity.
    - unfold io_ret. rewrite app_nil_r. reflexivity. }
  unfold requests. destruct (metrics a) as [[|c s]|].
  - destruct (all_flag a); rewrite io_for_map; apply io_for_ext; intros x o;
      [apply render_metric_chart | apply render_composite_chart].
  - apply io_for_selection.
  - destruct (all_flag a); rewrite io_for_map; apply io_for_ext; intros x o;
      [apply render_metric_chart | apply render_composite_chart].
Qed.

(** X13: a run that has loaded its input and can draw every chart asked
    for writes, after what [--flowchart] adds, one block and one empty line
    per request, in the order of the requests, and ends normally.  The
    requests are the keys of [-m] that, stripped of white space, are in the
    catalog, in the order given (repetitions kept), else the twelve metrics
    with [--all], else the four composites. *)
Theorem main_writes_requested_blocks parse_int (a : args) (rows : list row)
    (cols : dict (list Z)) (ticks : list Z) (charts : list string) (out : output) :
  load_csv parse_int rows = Ok cols ->
  dict_get cols (Some "tick"%string) = Ok ticks ->
  mapM (chart_of cols ticks) (requests a) = Ok charts ->
  main parse_int a rows out
  = ((out ++ preamble a ++ flat_map block charts)%list, Ok tt).
Proof.
  intros Hload Htick Hcharts.
  rewrite (main_as_requests _ _ _ _ _ _ Hload Htick).
  rewrite (write_requests_ok _ _ _ _ _ Hcharts), <- app_assoc. reflexivity.
Qed.

Lemma main_writes_requested_blocks_witness :
  main sample_parse
       (select_args (code_points "alive" ++ [0xA0] ++ code_points ", foo,avg_stress"))
       sample_rows []
  = (block (String.concat newline
              (chart_header "Population" "tick" [0; 1] ++ [line_directive [5; 5]; "```"%string]))
     ++ block (String.concat newline
                 (chart_header "Average Stress" "tick" [0; 1]
                  ++ [line_directive [1; 2]; "```"%string])),
     Ok tt).
Proof.
  apply (main_writes_requested_blocks sample_parse
           (select_args (code_points "alive" ++ [0xA0] ++ code_points ", foo,avg_stress"))
           sample_rows
           [(Some "tick", [0; 1]); (Some "alive", [5; 5]); (Some "avg_stress", [1; 2])]%string
           [0; 1]
           [String.concat newline
              (chart_header "Population" "tick" [0; 1] ++ [line_directive [5; 5]; "```"%string]);
            String.concat newline
              (chart_header "Average Stress" "tick" [0; 1]
               ++ [line_directive [1; 2]; "```"%string])] []);
    reflexivity.
Defined.

(** X14: a run that fails after the load has written whole blocks only:
    those of the requests before the first one whose chart raises, each
    with its empty line, and nothing for the failing request. *)
Theorem main_stops_at_first_failure parse_int (a : args) (rows : list row)
    (cols : dict (list Z)) (ticks : list Z) (done rest : list request) (r : request)
    (charts : list string) (e : exn) (out : output) :
  load_csv parse_int rows = Ok cols ->
  dict_get cols (Some "tick"%string) = Ok ticks ->
  requests a = (done ++ r :: rest)%list ->
  mapM (chart_of cols ticks) done = Ok charts ->
  chart_of cols ticks r = Raise e ->
  main parse_int a rows out
  = ((out ++ preamble a ++ flat_map block charts)%list, Raise e).
Proof.
  intros Hload Htick Hreq Hdone Hr.
  rewrite (main_as_requests _ _ _ _ _ _ Hload Htick), Hreq.
  rewrite (write_requests_raise _ _ _ _ _ _ _ _ Hdone Hr), <- app_assoc. reflexivity.
Qed.

Lemma main_stops_at_first_failure_witness :
  main sample_parse default_args sample_rows []
  = (block (String.concat newline
              (chart_header "Population & Stress" "tick" [0; 1]
               ++ [line_directive [5; 5]; line_directive [1; 2]; "```"%string])),
     Raise (KeyError (Some "trades"%string))).
Proof.
  apply (main_stops_at_first_failure sample_parse default_args sample_rows
           [(Some "tick", [0; 1]); (Some "alive", [5; 5]); (Some "avg_stress", [1; 2])]%string
           [0; 1]
           [Composite ("Population & Stress", [("alive", "alive"); ("avg_stress", "avg_stress")])]%string
           [Composite ("Fitness", [("best_fit", "best_fit"); ("avg_fit", "avg_fit")]);
            Composite ("Resources", [("food", "food"); ("items", "items")])]%string
           (Composite ("Economy", [("trades", "trades"); ("teaches", "teaches")]))%string
           [String.concat newline
              (chart_header "Population & Stress" "tick" [0; 1]
               ++ [line_directive [5; 5]; line_directive [1; 2]; "```"%string])]
           (KeyError (Some "trades"%string)) []);
    reflexivity.
Defined.

(** ** [main] on a CSV with every column *)

Lemma has_columns_get cols names c :
  has_columns cols names = true -> In c names ->
  exists values, dict_get cols (Some c) = Ok values.
Proof.
  unfold has_columns. rewrite forallb_forall. intros H Hc. specialize (H c Hc).
  destruct (dict_get cols (Some c)) as [values|e]; [exists values; reflexivity | discriminate].
Qed.

Lemma catalog_find_text_In {V} (d : list (string * V)) k v :
  catalog_find_text d k = Some v -> exists k', In (k', v) d.
Proof.
  induction d as [|[k' v'] d IH]; cbn [catalog_find_text]; [discriminate|].
  destruct (text_eqb k (code_points k')).
  - intros H. injection H as <-. exists k'. left. reflexivity.
  - intros H. destruct (IH H) as [k'' Hin]. exists k''. right. exact Hin.
Qed.

Lemma composite_columns_known :
  Forall (fun kc : string * composite =>
            Forall (fun d : string * string => In (snd d) chart_columns) (snd (snd kc)))
         COMPOSITES.
Proof.
  unfold COMPOSITES.
  repeat (apply Forall_cons;
          [cbn [snd];
           repeat (apply Forall_cons; [cbn; repeat (first [left; reflexivity | right])|]);
           apply Forall_nil|]).
  apply Forall_nil.
Qed.

Lemma xychart_returns title ticks series x_label y_label :
  py_len ticks <= max_len ->
  Forall (fun s : string * list Z => py_len (snd s) <= max_len) series ->
  exists text, xychart title ticks series x_label y_label = Ok text.
Proof.
  intros Hx Hs.
  destruct (downsample_total ticks default_max_points ltac:(unfold default_max_points; lia) Hx)
    as (x_down & Hxd & _).
  destruct (series_lines_total series Hs) as (ys & Hm & _).
  unfold xychart. rewrite Hxd. cbn [bind]. rewrite Hm. cbn [bind]. eexists. reflexivity.
Qed.

Lemma mapM_total {A B} (f : A -> result B) l :
  (forall a, In a l -> exists b, f a = Ok b) -> exists r, mapM f l = Ok r.
Proof.
  induction l as [|a l IH]; intros H; cbn [mapM]; [eexists; reflexivity|].
  destruct (H a (or_introl eq_refl)) as [b ->]. cbn [bind].
  destruct IH as [r ->]; [intros x Hx; apply H; right; exact Hx|].
  eexists. reflexivity.
Qed.

Lemma composite_series_total cols n defs :
  (forall k c, dict_get cols k = Ok c -> py_len c = n) ->
  Forall (fun d : string * string => exists v, dict_get cols (Some (snd d)) = Ok v) defs ->
  exists series,
    composite_series cols defs = Ok series /\
    Forall (fun s : string * list Z => py_len (snd s) = n) series.
Proof.
  intros Hlen H. unfold composite_series.
  induction H as [|d defs [v Hv] _ (series & Hs & Hall)]; cbn [mapM].
  - exists []. split; [reflexivity | constructor].
  - rewrite Hv. cbn [bind]. rewrite Hs. cbn [bind].
    exists ((fst d, v) :: series). split; [reflexivity|].
    constructor; [exact (Hlen _ _ Hv) | exact Hall].
Qed.

(** Every request of [main] names columns of [chart_columns] only. *)
Lemma chart_of_total cols ticks n a r :
  (forall k c, dict_get cols k = Ok c -> py_len c = n) ->
  n <= max_len -> py_len ticks <= max_len ->
  has_columns cols chart_columns = true ->
  In r (requests a) ->
  exists chart, chart_of cols ticks r = Ok chart.
Proof.
  intros Hlen Hn Ht Hcols Hr.
  assert (forall k m, In (k, m) METRIC_GROUPS ->
            exists chart, chart_of cols ticks (Metric m) = Ok chart) as Hmetric.
  { intros k m Hm.
    assert (In (metric_column m) chart_columns) as Hc.
    { right. apply (in_map (fun km : string * metric => metric_column (snd km)) _ _ Hm). }
    destruct (has_columns_get _ _ _ Hcols Hc) as [values Hv].
    destruct m as [[title col] ylabel]. unfold metric_column in Hv. cbn [fst snd] in Hv.
    cbn [chart_of]. rewrite Hv. cbn [bind].
    apply xychart_returns; [exact Ht|].
    constructor; [|constructor]. cbn [snd]. rewrite (Hlen _ _ Hv). exact Hn. }
  assert (forall k c, In (k, c) COMPOSITES ->
            exists chart, chart_of cols ticks (Composite c) = Ok chart) as Hcomposite.
  { intros k c Hc. pose proof composite_columns_known as Hknown.
    rewrite Forall_forall in Hknown. specialize (Hknown _ Hc). cbn [snd] in Hknown.
    destruct (composite_series_total cols n (snd c) Hlen) as (series & Hs & Hall).
    { eapply Forall_impl; [|exact Hknown]. intros d Hd. cbv beta in Hd.
      exact (has_columns_get _ _ _ Hcols Hd). }
    cbn [chart_of]. unfold composite_chart. rewrite Hs. cbn [bind].
    apply xychart_returns; [exact Ht|].
    eapply Forall_impl; [|exact Hall]. intros s Hs'. cbv beta in Hs'. lia. }
  unfold requests in Hr. destruct (metrics a) as [[|c s]|].
  - destruct (all_flag a); apply in_map_iff in Hr; destruct Hr as ([k x] & <- & Hx);
      [exact (Hmetric k x Hx) | exact (Hcomposite k x Hx)].
  - apply in_flat_map in Hr. destruct Hr as (key & _ & Hkey).
    destruct (catalog_find_text METRIC_GROUPS (py_strip key)) as [m|] eqn:E; [|destruct Hkey].
    destruct Hkey as [<- | []]. destruct (catalog_find_text_In _ _ _ E) as [k' Hin].
    exact (Hmetric k' m Hin).
  - destruct (all_flag a); apply in_map_iff in Hr; destruct Hr as ([k x] & <- & Hx);
      [exact (Hmetric k x Hx) | exact (Hcomposite k x Hx)].
Qed.

(** X15: a run that writes to the standard output (no [-o], so that no
    file is opened) on a CSV that loads, has at most [2^51] rows and holds
    [tick] and the twelve columns of the catalog does not fail, whatever
    [-m], [--all] and [--flowchart] are: it writes one block (and an empty
    line) per request and ends normally. *)
Theorem main_draws_every_chart parse_int (a : args) (rows : list row)
    (cols : dict (list Z)) (out : output) :
  output_path a = None ->
  load_csv parse_int rows = Ok cols ->
  py_len rows <= max_len ->
  has_columns cols chart_columns = true ->
  exists ticks charts,
    dict_get cols (Some "tick"%string) = Ok ticks /\
    mapM (chart_of cols ticks) (requests a) = Ok charts /\
    py_len charts = py_len (requests a) /\
    main parse_int a rows out
    = ((out ++ preamble a ++ flat_map block charts)%list, Ok tt).
Proof.
  intros _ Hload Hn Hcols.
  pose proof (load_csv_same_length _ _ _ Hload) as Hlen.
  destruct (has_columns_get _ _ "tick"%string Hcols (or_introl eq_refl)) as [ticks Htick].
  destruct (mapM_total (chart_of cols ticks) (requests a)) as [charts Hcharts].
  { intros r Hr. apply (chart_of_total cols ticks (py_len rows) a r); try assumption.
    rewrite (Hlen _ _ Htick). exact Hn. }
  exists ticks, charts. split; [exact Htick|]. split; [exact Hcharts|].
  split; [exact (mapM_length _ _ _ Hcharts)|].
  rewrite (main_as_requests _ _ _ _ _ _ Hload Htick).
  rewrite (write_requests_ok _ _ _ _ _ Hcharts), <- app_assoc. reflexivity.
Qed.

Lemma main_draws_every_chart_witness :
  exists ticks charts,
    dict_get full_cols (Some "tick"%string) = Ok ticks /\
    mapM (chart_of full_cols ticks) (requests default_args) = Ok charts /\
    py_len charts = py_len (requests default_args) /\
    main sample_parse default_args full_rows []
    = (([] ++ preamble default_args ++ flat_map block charts)%list, Ok tt).
Proof.
  apply (main_draws_every_chart sample_parse default_args full_rows full_cols []).
  - reflexivity.
  - reflexivity.
  - vm_compute. discriminate.
  - reflexivity.
Defined.

(** ** The activity rates: sign and sums *)

(** The rates of a series at least as long as the ticks. *)
Lemma rate_ok cols name ticks c :
  dict_get cols (Some name) = Ok c ->
  py_len ticks <= py_len c ->
  rate cols name ticks
  = Ok (map (fun i => nth (Z.to_nat i) c 0 - nth (Z.to_nat (i - 1)) c 0)
            (py_range2 1 (py_len ticks))).
Proof.
  intros Hc Hlen. unfold rate. apply mapM_ok. intros i Hi.
  unfold py_range2 in Hi. apply in_range_from in Hi.
  rewrite Hc. cbn [bind].
  rewrite (py_getitem_inner c 0 i) by lia. cbn [bind].
  rewrite (py_getitem_inner c 0 (i - 1)) by lia. reflexivity.
Qed.

Lemma Forall_map_range (P : Z -> Prop) (g : Z -> Z) s len :
  Forall P (map g (range_from s len)) <-> forall i, s <= i < s + Z.of_nat len -> P (g i).
Proof.
  rewrite Forall_forall. split.
  - intros H i Hi. apply H. apply in_map. apply in_range_from. exact Hi.
  - intros H x Hx. apply in_map_iff in Hx. destruct Hx as (i & <- & Hi).
    apply H. apply in_range_from. exact Hi.
Qed.

(** X16: over ticks of the same length, the rates of a series are all
    non-negative exactly when the series never decreases: a cumulative
    counter gives no negative rate, and a negative rate shows a counter
    that went down. *)
Theorem rate_nonnegative_iff (cols : dict (list Z)) (name : string) (ticks c : list Z) :
  dict_get cols (Some name) = Ok c ->
  py_len c = py_len ticks ->
  exists r,
    rate cols name ticks = Ok r /\
    (nondecreasing c = true <-> Forall (fun v => 0 <= v) r).
Proof.
  intros Hc Hlen. eexists. split; [apply (rate_ok cols name ticks c Hc); lia|].
  unfold nondecreasing, py_range2. rewrite sorted_by_adjacent, Forall_map_range.
  unfold py_len in *. split.
  - intros H i Hi. specialize (H (Z.to_nat (i - 1)) ltac:(lia)).
    apply Z.leb_le in H. replace (S (Z.to_nat (i - 1))) with (Z.to_nat i) in H by lia. lia.
  - intros H i Hi. specialize (H (Z.of_nat (S i)) ltac:(lia)).
    apply Z.leb_le. replace (Z.to_nat (Z.of_nat (S i) - 1)) with i in H by lia.
    rewrite Nat2Z.id in H. lia.
Qed.

Lemma rate_nonnegative_iff_witness :
  exists r,
    rate sample_cols "trades" [0; 1; 2; 3] = Ok r /\ Forall (fun v => 0 <= v) r.
Proof.
  destruct (rate_nonnegative_iff sample_cols "trades" [0; 1; 2; 3] [0; 3; 3; 7])
    as (r & Hr & Hiff).
  - reflexivity.
  - reflexivity.
  - exists r. split; [exact Hr | apply Hiff; reflexivity].
Defined.

(** A sum of first differences telescopes. *)
Lemma sum_differences (f : Z -> Z) s len a :
  fold_left Z.add (map (fun i => f i - f (i - 1)) (range_from s len)) a
  = a + f (s + Z.of_nat len - 1) - f (s - 1).
Proof.
  revert s a. induction len as [|len IH]; intros s a; cbn [range_from map fold_left].
  - replace (s + Z.of_nat 0 - 1) with (s - 1) by lia. lia.
  - rewrite IH. replace (s + 1 + Z.of_nat len - 1) with (s + Z.of_nat (S len) - 1) by lia.
    replace (s + 1 - 1) with s by lia. lia.
Qed.

Lemma firstn_range_from s len k : (k <= len)%nat ->
  firstn k (range_from s len) = range_from s k.
Proof.
  revert s len. induction k as [|k IH]; intros s len Hk; [reflexivity|].
  destruct len as [|len]; [lia|]. cbn [range_from firstn]. rewrite IH by lia. reflexivity.
Qed.

(** X17: the rates lose the first value of the series only.  Value [i] of
    the series is its first value plus the sum of the first [i] rates; in
    particular the rates add up to the last value minus the first. *)
Theorem rate_sums_back (cols : dict (list Z)) (name : string) (ticks c : list Z) :
  dict_get cols (Some name) = Ok c ->
  py_len ticks <= py_len c ->
  exists r,
    rate cols name ticks = Ok r /\
    forall i, 0 <= i < py_len ticks ->
      nth (Z.to_nat i) c 0 = nth 0 c 0 + py_sum (py_slice r 0 i).
Proof.
  intros Hc Hlen. eexists. split; [apply (rate_ok cols name ticks c Hc Hlen)|].
  intros i Hi.
  set (g := fun j => nth (Z.to_nat j) c 0 - nth (Z.to_nat (j - 1)) c 0).
  assert (py_len (map g (py_range2 1 (py_len ticks))) = py_len ticks - 1) as HL.
  { rewrite py_len_map, py_len_range2 by lia. reflexivity. }
  destruct (py_slice_inner (map g (py_range2 1 (py_len ticks))) 0 i ltac:(lia) ltac:(lia))
    as [-> _].
  replace (i - 0) with i by lia. change (Z.to_nat 0) with 0%nat. cbn [skipn].
  rewrite firstn_map. unfold py_range2. rewrite firstn_range_from by lia.
  unfold py_sum. subst g.
  rewrite (sum_differences (fun j => nth (Z.to_nat j) c 0) 1 (Z.to_nat i) 0).
  replace (1 + Z.of_nat (Z.to_nat i) - 1) with i by lia.
  change (Z.to_nat (1 - 1)) with 0%nat. lia.
Qed.

Lemma rate_sums_back_witness :
  exists r,
    rate sample_cols "trades" [0; 1; 2; 3] = Ok r /\
    forall i, 0 <= i < py_len [0; 1; 2; 3] ->
      nth (Z.to_nat i) [0; 3; 3; 7] 0 = nth 0 [0; 3; 3; 7] 0 + py_sum (py_slice r 0 i).
Proof.
  apply (rate_sums_back sample_cols "trades" [0; 1; 2; 3] [0; 3; 3; 7]).
  - reflexivity.
  - vm_compute. discriminate.
Defined.

(** ** [main]: the only failure after the load *)

Lemma dict_get_raise {V} (d : dict V) k e : dict_get d k = Raise e -> e = KeyError k.
Proof.
  induction d as [|[k' v] d IH]; cbn [dict_get]; intros H.
  - injection H as <-. reflexivity.
  - destruct (key_eqb k k'); [discriminate | exact (IH H)].
Qed.

Lemma has_columns_missing (cols : dict (list Z)) c :
  dict_get cols (Some c) = Raise (KeyError (Some c)) -> has_columns cols [c] = false.
Proof. intros H. unfold has_columns. cbn [forallb]. rewrite H. reflexivity. Qed.

Lemma write_requests_raise_inv cols ticks (rs : list request) out out' e :
  io_for rs (fun r out =>
               match chart_of cols ticks r with
               | Ok chart => ((out ++ block chart)%list, Ok tt)
               | Raise e => (out, Raise e)
               end) out = (out', Raise e) ->
  exists r, In r rs /\ chart_of cols ticks r = Raise e.
Proof.
  revert out. induction rs as [|r rs IH]; intros out H; cbn [io_for] in H.
  - discriminate H.
  - unfold io_bind in H. destruct (chart_of cols ticks r) as [chart|e'] eqn:E.
    + destruct (IH _ H) as (r' & Hin & Hr'). exists r'. split; [right; exact Hin | exact Hr'].
    + injection H as _ <-. exists r. split; [left; reflexivity | exact E].
Qed.

(** On columns of at most [2^51] values, the chart of a request fails for
    one reason only: a column that the request names is missing. *)
Lemma chart_of_raise cols ticks n a r e :
  (forall k c, dict_get cols k = Ok c -> py_len c = n) ->
  n <= max_len -> py_len ticks <= max_len ->
  In r (requests a) ->
  chart_of cols ticks r = Raise e ->
  exists c, In c chart_columns /\ e = KeyError (Some c) /\
            dict_get cols (Some c) = Raise (KeyError (Some c)).
Proof.
  intros Hlen Hn Ht Hr He.
  assert (forall k m, In (k, m) METRIC_GROUPS -> chart_of cols ticks (Metric m) = Raise e ->
            exists c, In c chart_columns /\ e = KeyError (Some c) /\
                      dict_get cols (Some c) = Raise (KeyError (Some c))) as Hmetric.
  { intros k m Hm Hraise.
    assert (In (metric_column m) chart_columns) as Hc.
    { right. apply (in_map (fun km : string * metric => metric_column (snd km)) _ _ Hm). }
    destruct m as [[title col] ylabel]. unfold metric_column in Hc. cbn [fst snd] in Hc.
    cbn [chart_of] in Hraise.
    destruct (dict_get cols (Some col)) as [values|e'] eqn:Hv; cbn [bind] in Hraise.
    - exfalso.
      destruct (xychart_returns title ticks [(col, values)] "tick" ylabel Ht) as [text Htext].
      { constructor; [|constructor]. cbn [snd]. rewrite (Hlen _ _ Hv). exact Hn. }
      rewrite Htext in Hraise. discriminate.
    - injection Hraise as ->. pose proof (dict_get_raise _ _ _ Hv) as ->.
      exists col. auto. }
  assert (forall k c, In (k, c) COMPOSITES -> chart_of cols ticks (Composite c) = Raise e ->
            exists c, In c chart_columns /\ e = KeyError (Some c) /\
                      dict_get cols (Some c) = Raise (KeyError (Some c))) as Hcomposite.
  { intros k c Hc Hraise. pose proof composite_columns_known as Hknown.
    rewrite Forall_forall in Hknown. specialize (Hknown _ Hc). cbn [snd] in Hknown.
    rewrite Forall_forall in Hknown.
    cbn [chart_of] in Hraise. unfold composite_chart in Hraise.
    destruct (composite_series cols (snd c)) as [series|e'] eqn:Hs; cbn [bind] in Hraise.
    - exfalso. apply composite_series_inv in Hs.
      destruct (xychart_returns (fst c) ticks series "tick" "value" Ht) as [text Htext].
      { clear Hraise Hknown Hc. induction Hs as [|d s defs series [_ Hd] _ IH]; constructor.
        - rewrite (Hlen _ _ Hd). exact Hn.
        - exact IH. }
      rewrite Htext in Hraise. discriminate.
    - injection Hraise as ->. unfold composite_series in Hs. apply mapM_raise in Hs.
      destruct Hs as (d & Hd & Hget).
      destruct (dict_get cols (Some (snd d))) as [v|e'] eqn:Hv; cbn [bind] in Hget;
        [discriminate|].
      injection Hget as ->. pose proof (dict_get_raise _ _ _ Hv) as ->.
      exists (snd d). split; [exact (Hknown d Hd) | auto]. }
  unfold requests in Hr. destruct (metrics a) as [[|c s]|].
  - destruct (all_flag a); apply in_map_iff in Hr; destruct Hr as ([k x] & <- & Hx);
      [exact (Hmetric k x Hx He) | exact (Hcomposite k x Hx He)].
  - apply in_flat_map in Hr. destruct Hr as (key & _ & Hkey).
    destruct (catalog_find_text METRIC_GROUPS (py_strip key)) as [m|] eqn:E; [|destruct Hkey].
    destruct Hkey as [<- | []]. destruct (catalog_find_text_In _ _ _ E) as [k' Hin].
    exact (Hmetric k' m Hin He).
  - destruct (all_flag a); apply in_map_iff in Hr; destruct Hr as ([k x] & <- & Hx);
      [exact (Hmetric k x Hx He) | exact (Hcomposite k x Hx He)].
Qed.

(** X19: once a CSV of at most [2^51] rows is loaded, [main] can fail in
    one way only: with the [KeyError] of a column that the CSV does not
    have, [tick] or a column of the catalog.  No division by zero and no
    overflow comes out of the downsampler. *)
Theorem main_fails_only_on_missing_column parse_int (a : args) (rows : list row)
    (cols : dict (list Z)) (out out' : output) (e : exn) :
  load_csv parse_int rows = Ok cols ->
  py_len rows <= max_len ->
  main parse_int a rows out = (out', Raise e) ->
  exists c, In c chart_columns /\ e = KeyError (Some c) /\ has_columns cols [c] = false.
Proof.
  intros Hload Hn Hmain.
  pose proof (load_csv_same_length _ _ _ Hload) as Hlen.
  destruct (dict_get cols (Some "tick"%string)) as [ticks|e'] eqn:Htick.
  - rewrite (main_as_requests _ _ _ _ _ _ Hload Htick) in Hmain.
    apply write_requests_raise_inv in Hmain. destruct Hmain as (r & Hr & Hraise).
    destruct (chart_of_raise cols ticks (py_len rows) a r e Hlen Hn
                ltac:(rewrite (Hlen _ _ Htick); exact Hn) Hr Hraise) as (c & Hc & -> & Hget).
    exists c. split; [exact Hc|]. split; [reflexivity | exact (has_columns_missing _ _ Hget)].
  - unfold main, io_bind, io_lift in Hmain. rewrite Hload, Htick in Hmain.
    injection Hmain as _ <-. pose proof (dict_get_raise _ _ _ Htick) as ->.
    exists "tick"%string. split; [left; reflexivity|].
    split; [reflexivity | exact (has_columns_missing _ _ Htick)].
Qed.

Lemma main_fails_only_on_missing_column_witness :
  exists c,
    In c chart_columns /\ KeyError (Some "trades"%string) = KeyError (Some c) /\
    has_columns [(Some "tick", [0; 1]); (Some "alive", [5; 5]); (Some "avg_stress", [1; 2])]%string
                [c] = false.
Proof.
  apply (main_fails_only_on_missing_column sample_parse default_args sample_rows
           [(Some "tick", [0; 1]); (Some "alive", [5; 5]); (Some "avg_stress", [1; 2])]%string
           [] (fst (main sample_parse default_args sample_rows []))
           (KeyError (Some "trades"%string))).
  - reflexivity.
  - vm_compute. discriminate.
  - reflexivity.
Defined.

(** ** [plot]: the data of the panels *)

Lemma differences_ok l :
  differences l
  = Ok (map (fun i => nth (Z.to_nat i) l 0 - nth (Z.to_nat (i - 1)) l 0)
            (py_range2 1 (py_len l))).
Proof.
  unfold differences. apply mapM_ok. intros i Hi.
  unfold py_range2 in Hi. apply in_range_from in Hi.
  rewrite (py_getitem_inner l 0 i) by lia. cbn [bind].
  rewrite (py_getitem_inner l 0 (i - 1)) by lia. reflexivity.
Qed.

(** A column that [plot] reads and the CSV does not have. *)
Lemma missing_chart_column (cols : dict (list Z)) c e :
  In c chart_columns ->
  dict_get cols (Some c) = Raise e ->
  exists c', In c' chart_columns /\ e = KeyError (Some c') /\ has_columns cols [c'] = false.
Proof.
  intros Hc H. pose proof (dict_get_raise _ _ _ H) as ->.
  exists c. split; [exact Hc|]. split; [reflexivity | exact (has_columns_missing _ _ H)].
Qed.

(** X18: what [plot] hands to matplotlib, on the columns of a loaded CSV
    of [n] rows.  When the CSV holds [tick] and the twelve columns of the
    panels, the reads and the rates raise nothing, and there are fourteen
    calls, each with as many [x] as [y] values: [n] for the twelve columns
    and [n - 1] for the two rates, drawn against [ticks[1:]].  Otherwise
    the only exception is the [KeyError] of a column that the CSV does not
    have: the rates never leave their columns ([IndexError]). *)
Theorem plot_calls_of_loaded_csv parse_int (rows : list row) (cols : dict (list Z)) :
  load_csv parse_int rows = Ok cols ->
  (has_columns cols chart_columns = true ->
   exists calls,
     plot_calls cols = Ok calls /\
     map (fun xy : list Z * list Z => (py_len (fst xy), py_len (snd xy))) calls
     = (repeat (py_len rows, py_len rows) 4
        ++ repeat (py_len rows - 1, py_len rows - 1) 2
        ++ repeat (py_len rows, py_len rows) 8)%list) /\
  (forall e, plot_calls cols = Raise e ->
     exists c, In c chart_columns /\ e = KeyError (Some c) /\ has_columns cols [c] = false).
Proof.
  intros Hload.
  pose proof (load_csv_same_length _ _ _ Hload) as Hlen.
  assert (1 <= py_len rows) as Hrows.
  { destruct rows; [discriminate Hload|]. unfold py_len. cbn [List.length]. lia. }
  split.
  - intros Hcols.
    assert (forall c, In c chart_columns ->
              exists v, dict_get cols (Some c) = Ok v /\ py_len v = py_len rows) as Hget.
    { intros c Hc. destruct (has_columns_get _ _ c Hcols Hc) as [v Hv].
      exists v. split; [exact Hv | exact (Hlen _ _ Hv)]. }
    unfold plot_calls.
    destruct (Hget "tick"%string ltac:(cbn; tauto)) as (ticks & -> & Lt). cbn [bind].
    destruct (Hget "alive"%string ltac:(cbn; tauto)) as (alive & -> & L1). cbn [bind].
    destruct (Hget "avg_stress"%string ltac:(cbn; tauto)) as (avg_stress & -> & L2). cbn [bind].
    destruct (Hget "trades"%string ltac:(cbn; tauto)) as (trades & Htr & L3).
    destruct (Hget "teaches"%string ltac:(cbn; tauto)) as (teaches & Hte & L4).
    rewrite Htr. cbn [bind]. rewrite Hte. cbn [bind].
    rewrite differences_ok. cbn [bind].
    rewrite (rate_ok cols "trades" ticks trades Htr) by lia. cbn [bind].
    rewrite (rate_ok cols "teaches" ticks teaches Hte) by lia. cbn [bind].
    destruct (Hget "food"%string ltac:(cbn; tauto)) as (food & -> & L5). cbn [bind].
    destruct (Hget "items"%string ltac:(cbn; tauto)) as (items & -> & L6). cbn [bind].
    destruct (Hget "gold"%string ltac:(cbn; tauto)) as (gold & -> & L7). cbn [bind].
    destruct (Hget "best_fit"%string ltac:(cbn; tauto)) as (best_fit & -> & L8). cbn [bind].
    destruct (Hget "avg_fit"%string ltac:(cbn; tauto)) as (avg_fit & -> & L9). cbn [bind].
    destruct (Hget "holders"%string ltac:(cbn; tauto)) as (holders & -> & L10). cbn [bind].
    destruct (Hget "crafted"%string ltac:(cbn; tauto)) as (crafted & -> & L11). cbn [bind].
    destruct (Hget "crystal_npcs"%string ltac:(cbn; tauto)) as (crystal & -> & L12).
    cbn [bind].
    eexists. split; [reflexivity|].
    cbn [map fst snd repeat app].
    rewrite (py_len_slice ticks 1 (py_len ticks)) by lia.
    rewrite !py_len_map, !py_len_range2 by lia.
    rewrite Lt, L1, L2, L3, L4, L5, L6, L7, L8, L9, L10, L11, L12.
    replace (Z.min (py_len rows) (py_len rows) - Z.min 1 (py_len rows))
      with (py_len rows - 1) by lia.
    reflexivity.
  - intros e H. unfold plot_calls in H.
    destruct (dict_get cols (Some "tick"%string)) as [ticks|x] eqn:E0; cbn [bind] in H;
      [|injection H as ->; apply (missing_chart_column cols "tick"); [cbn; tauto | exact E0]].
    destruct (dict_get cols (Some "alive"%string)) as [alive|x] eqn:E1; cbn [bind] in H;
      [|injection H as ->; apply (missing_chart_column cols "alive"); [cbn; tauto | exact E1]].
    destruct (dict_get cols (Some "avg_stress"%string)) as [avg_stress|x] eqn:E2;
      cbn [bind] in H;
      [|injection H as ->; apply (missing_chart_column cols "avg_stress");
        [cbn; tauto | exact E2]].
    destruct (dict_get cols (Some "trades"%string)) as [trades|x] eqn:E3; cbn [bind] in H;
      [|injection H as ->; apply (missing_chart_column cols "trades"); [cbn; tauto | exact E3]].
    destruct (dict_get cols (Some "teaches"%string)) as [teaches|x] eqn:E4; cbn [bind] in H;
      [|injection H as ->; apply (missing_chart_column cols "teaches");
        [cbn; tauto | exact E4]].
    rewrite differences_ok in H. cbn [bind] in H.
    pose proof (Hlen _ _ E0) as Lt. pose proof (Hlen _ _ E3) as L3.
    pose proof (Hlen _ _ E4) as L4.
    rewrite (rate_ok cols "trades" ticks trades E3) in H by lia. cbn [bind] in H.
    rewrite (rate_ok cols "teaches" ticks teaches E4) in H by lia. cbn [bind] in H.
    destruct (dict_get cols (Some "food"%string)) as [food|x] eqn:E5; cbn [bind] in H;
      [|injection H as ->; apply (missing_chart_column cols "food"); [cbn; tauto | exact E5]].
    destruct (dict_get cols (Some "items"%string)) as [items|x] eqn:E6; cbn [bind] in H;
      [|injection H as ->; apply (missing_chart_column cols "items"); [cbn; tauto | exact E6]].
    destruct (dict_get cols (Some "gold"%string)) as [gold|x] eqn:E7; cbn [bind] in H;
      [|injection H as ->; apply (missing_chart_column cols "gold"); [cbn; tauto | exact E7]].
    destruct (dict_get cols (Some "best_fit"%string)) as [best_fit|x] eqn:E8; cbn [bind] in H;
      [|injection H as ->; apply (missing_chart_column cols "best_fit");
        [cbn; tauto | exact E8]].
    destruct (dict_get cols (Some "avg_fit"%string)) as [avg_fit|x] eqn:E9; cbn [bind] in H;
      [|injection H as ->; apply (missing_chart_column cols "avg_fit");
        [cbn; tauto | exact E9]].
    destruct (dict_get cols (Some "holders"%string)) as [holders|x] eqn:E10; cbn [bind] in H;
      [|injection H as ->; apply (missing_chart_column cols "holders");
        [cbn; tauto | exact E10]].
    destruct (dict_get cols (Some "crafted"%string)) as [crafted|x] eqn:E11; cbn [bind] in H;
      [|injection H as ->; apply (missing_chart_column cols "crafted");
        [cbn; tauto | exact E11]].
    destruct (dict_get cols (Some "crystal_npcs"%string)) as [crystal|x] eqn:E12;
      cbn [bind] in H;
      [|injection H as ->; apply (missing_chart_column cols "crystal_npcs");
        [cbn; tauto | exact E12]].
    discriminate H.
Qed.

Lemma plot_calls_of_loaded_csv_witness :
  exists calls,
    plot_calls full_cols = Ok calls /\
    map (fun xy : list Z * list Z => (py_len (fst xy), py_len (snd xy))) calls
    = (repeat (py_len full_rows, py_len full_rows) 4
       ++ repeat (py_len full_rows - 1, py_len full_rows - 1) 2
       ++ repeat (py_len full_rows, py_len full_rows) 8)%list.
Proof.
  apply (proj1 (plot_calls_of_loaded_csv sample_parse full_rows full_cols eq_refl)).
  reflexivity.
Defined.

(** ** The selection: splitting at commas and stripping *)

Lemma blank_no_comma s : blank s = true -> no_comma s = true.
Proof.
  unfold blank, no_comma. rewrite !forallb_forall. intros H a Ha. specialize (H a Ha).
  destruct (Z.eqb_spec a comma) as [-> | N]; [vm_compute in H; discriminate H | reflexivity].
Qed.

(** A piece without a comma in front of a comma is the first piece. *)
Lemma py_split_piece p rest : no_comma p = true ->
  py_split comma (p ++ comma :: rest) = p :: py_split comma rest.
Proof.
  induction p as [|a p IH]; intros H.
  - cbn [app py_split]. rewrite Z.eqb_refl. reflexivity.
  - unfold no_comma in H. cbn [forallb] in H. apply andb_true_iff in H.
    destruct H as [Ha Hp]. apply negb_true_iff in Ha.
    cbn [app py_split]. rewrite Ha, (IH Hp). reflexivity.
Qed.

Lemma py_split_plain p : no_comma p = true -> py_split comma p = [p].
Proof.
  induction p as [|a p IH]; intros H.
  - reflexivity.
  - unfold no_comma in H. cbn [forallb] in H. apply andb_true_iff in H.
    destruct H as [Ha Hp]. apply negb_true_iff in Ha.
    cbn [py_split]. rewrite Ha, (IH Hp). reflexivity.
Qed.

(** Splitting at the commas undoes the joining of pieces without comma. *)
Lemma py_split_join ps : ps <> [] -> Forall (fun p => no_comma p = true) ps ->
  py_split comma (py_join [comma] ps) = ps.
Proof.
  intros Hne H. induction H as [|p ps Hp Hps IH]; [contradiction|].
  destruct ps as [|q ps].
  - cbn [py_join]. apply py_split_plain. exact Hp.
  - change (py_join [comma] (p :: q :: ps))
      with (p ++ comma :: py_join [comma] (q :: ps)).
    rewrite (py_split_piece p _ Hp), IH by discriminate. reflexivity.
Qed.

Lemma lstrip_blank l x : blank l = true -> lstrip (l ++ x) = lstrip x.
Proof.
  induction l as [|a l IH]; intros H; [reflexivity|].
  unfold blank in H. cbn [forallb] in H. apply andb_true_iff in H.
  destruct H as [Ha Hl]. cbn [app lstrip]. rewrite Ha. exact (IH Hl).
Qed.

Lemma lstrip_all_blank s : blank s = true -> lstrip s = [].
Proof.
  intros H. rewrite <- (app_nil_r s). rewrite (lstrip_blank s [] H). reflexivity.
Qed.

Lemma lstrip_not_blank k r : blank k = false -> lstrip (k ++ r) = lstrip k ++ r.
Proof.
  induction k as [|a k IH]; intros H; [discriminate H|].
  unfold blank in H. cbn [forallb] in H.
  cbn [app lstrip]. destruct (is_space a); [|reflexivity].
  apply IH. exact H.
Qed.

Lemma rstrip_blank r : blank r = true -> rstrip r = [].
Proof.
  induction r as [|a r IH]; intros H; [reflexivity|].
  unfold blank in H. cbn [forallb] in H. apply andb_true_iff in H.
  destruct H as [Ha Hr]. cbn [rstrip]. rewrite (IH Hr), Ha. reflexivity.
Qed.

Lemma rstrip_app_blank k r : blank r = true -> rstrip (k ++ r) = rstrip k.
Proof.
  intros H. induction k as [|a k IH].
  - cbn [app]. rewrite (rstrip_blank r H). reflexivity.
  - cbn [app rstrip]. rewrite IH. reflexivity.
Qed.

(** White space around a key does not change what [strip] returns. *)
Lemma py_strip_padded l k r : blank l = true -> blank r = true ->
  py_strip (l ++ k ++ r) = py_strip k.
Proof.
  intros Hl Hr. unfold py_strip. rewrite (lstrip_blank l _ Hl).
  destruct (blank k) eqn:Hk.
  - rewrite (lstrip_blank k r Hk), (lstrip_all_blank r Hr), (lstrip_all_blank k Hk).
    reflexivity.
  - rewrite (lstrip_not_blank k r Hk). apply rstrip_app_blank. exact Hr.
Qed.

Lemma well_padded_no_comma lkr : well_padded lkr = true -> no_comma (padded lkr) = true.
Proof.
  destruct lkr as [[l k] r]. unfold well_padded, padded.
  rewrite !andb_true_iff. intros [[Hl Hr] Hk].
  unfold no_comma. rewrite !forallb_app.
  fold no_comma. rewrite (blank_no_comma l Hl), (blank_no_comma r Hr), Hk. reflexivity.
Qed.

Lemma well_padded_strip lkr : well_padded lkr = true ->
  py_strip (padded lkr) = py_strip (snd (fst lkr)).
Proof.
  destruct lkr as [[l k] r]. unfold well_padded, padded. cbn [fst snd].
  rewrite !andb_true_iff. intros [[Hl Hr] Hk]. apply py_strip_padded; assumption.
Qed.

(** The selection loop depends on the stripped keys only. *)
Lemma render_selection_stripped cols ticks keys keys' out :
  map py_strip keys = map py_strip keys' ->
  render_selection cols ticks keys out = render_selection cols ticks keys' out.
Proof.
  unfold render_selection. revert keys' out.
  induction keys as [|k keys IH]; intros [|k' keys'] out H; try discriminate H;
    [reflexivity|].
  cbn [map] in H. injection H as Hk Hrest. cbn [io_for]. rewrite Hk. unfold io_bind.
  destruct (match catalog_find_text METRIC_GROUPS (py_strip k') with
            | Some m => render_metric cols ticks m
            | None => io_ret tt
            end out) as [o [[]|e]]; [apply IH; exact Hrest | reflexivity].
Qed.

(** X20: the keys of [-m] are read back from the argument whatever white
    space surrounds them, be it ASCII or any other white space that
    [strip] removes: for keys without comma, joined by commas with white
    space around each, splitting at the commas and stripping gives the
    stripped keys, in order; and when the keys alone do not join to the
    empty string, the run is the run of the selection without the white
    space. *)
Theorem selection_ignores_blanks (keys : list (text * text * text)) :
  keys <> [] ->
  forallb well_padded keys = true ->
  map py_strip (py_split comma (py_join [comma] (map padded keys)))
  = map (fun lkr => py_strip (snd (fst lkr))) keys /\
  (py_join [comma] (map (fun lkr => snd (fst lkr)) keys) <> [] ->
   forall parse_int rows out,
     main parse_int (select_args (py_join [comma] (map padded keys))) rows out
     = main parse_int
         (select_args (py_join [comma] (map (fun lkr => snd (fst lkr)) keys))) rows out).
Proof.
  intros Hne Hall. rewrite forallb_forall in Hall.
  assert (py_split comma (py_join [comma] (map padded keys)) = map padded keys) as Hsplit.
  { apply py_split_join.
    - destruct keys; [contradiction | discriminate].
    - apply Forall_forall. intros p Hp. apply in_map_iff in Hp.
      destruct Hp as (lkr & <- & Hin). apply well_padded_no_comma. exact (Hall _ Hin). }
  assert (py_split comma (py_join [comma] (map (fun lkr => snd (fst lkr)) keys))
          = map (fun lkr => snd (fst lkr)) keys) as Hsplit'.
  { apply py_split_join.
    - destruct keys; [contradiction | discriminate].
    - apply Forall_forall. intros p Hp. apply in_map_iff in Hp.
      destruct Hp as ([[l k] r] & <- & Hin). specialize (Hall _ Hin).
      unfold well_padded in Hall. apply andb_true_iff in Hall. apply Hall. }
  assert (map py_strip (map padded keys) = map (fun lkr => py_strip (snd (fst lkr))) keys)
    as Hstrip.
  { rewrite map_map. apply map_ext_in. intros lkr Hin.
    apply well_padded_strip. exact (Hall _ Hin). }
  split; [rewrite Hsplit; exact Hstrip|].
  intros Hkeys parse_int rows out.
  destruct (py_join [comma] (map (fun lkr => snd (fst lkr)) keys)) as [|c' s'] eqn:Ej;
    [contradiction|].
  destruct (py_join [comma] (map padded keys)) as [|c s] eqn:Ep.
  - exfalso. destruct keys as [|[[l k] r] keys]; [contradiction|].
    cbn [py_split map] in Hsplit. injection Hsplit as Hp Hnil.
    symmetry in Hnil. apply map_eq_nil in Hnil. subst keys.
    cbn [map py_join fst snd] in Ej. unfold padded in Hp.
    destruct l; [|discriminate Hp]. cbn [app] in Hp.
    destruct k; [discriminate Ej | discriminate Hp].
  - unfold main, select_args. cbn [metrics flowchart_flag all_flag].
    unfold io_bind, io_lift.
    destruct (load_csv parse_int rows) as [cols|e]; [|reflexivity].
    destruct (dict_get cols (Some "tick"%string)) as [ticks|e]; [|reflexivity].
    unfold io_ret. apply render_selection_stripped.
    rewrite Hsplit, Hsplit', Hstrip, map_map. reflexivity.
Qed.

Lemma selection_ignores_blanks_witness :
  map py_strip
      (py_split comma
         ([0x20] ++ code_points "alive" ++ [0xA0] ++ code_points ",trades,"
          ++ [0x2003; 0x3000] ++ code_points "avg_stress"))
  = [code_points "alive"; code_points "trades"; code_points "avg_stress"] /\
  forall parse_int rows out,
    main parse_int
         (select_args
            ([0x20] ++ code_points "alive" ++ [0xA0] ++ code_points ",trades,"
             ++ [0x2003; 0x3000] ++ code_points "avg_stress")) rows out
    = main parse_int (select_args (code_points "alive,trades,avg_stress")) rows out.
Proof.
  destruct (selection_ignores_blanks
              [([0x20], code_points "alive", [0xA0]);
               ([], code_points "trades", []);
               ([0x2003; 0x3000], code_points "avg_stress", [])])
    as [Hsplit Hmain].
  - discriminate.
  - reflexivity.
  - split; [exact Hsplit | apply Hmain; discriminate].
Defined.
